(** * Lab 4: top-p sampling, perplexity scoring and the gap-filling exam

    A shallow embedding of [lab_4_fill_words_by_ngrams/main.py]
    ([TopPGenerator], [QualityChecker], [Examiner], [GeneratorRuleStudent])
    together with the properties its specification states about them.

    Modelling conventions.
    - Python [int] is [Z]; token ids are [Z].
    - Python [float]: a double is the rational number it stands for ([Q]),
      compared exactly; the additions of [TopPGenerator.run] round to the
      nearest double, ties to even ([Float64.fadd]).  The values that go
      through [math.log] and [math.exp] are real numbers ([R]).  Infinities
      and NaN are outside the model.
    - [str] is [string]; a character is a code point below 256.
    - A [dict] is an association list in insertion order with distinct keys.
    - A raised exception is the [Raise] alternative of [result]; [None] is the
      [None] of [option].
    - [random.choice] draws from an explicit stream of random numbers that is
      threaded through the code as state. *)

From Stdlib Require Import List ZArith QArith Qround Qreals Reals Psatz Lia.
From Stdlib Require Import String Ascii Bool Permutation Sorted.
From Stdlib Require Floats.
Import ListNotations.

Set Implicit Arguments.

(** ** Exceptions and results *)

(** One constructor for every [raise] site of the file, plus the exceptions
    the interpreter raises by itself in the modelled code. *)
Inductive exn : Type :=
| InappropriateInput        (* ValueError("Inappropriate input.") *)
| CouldntEncodePrompt       (* ValueError("Couldn't encode prompt.") *)
| ModelReturnedNone         (* ValueError("Model returned None instead of generated tokens.") *)
| CouldntDecodeText         (* ValueError("Couldn't decode text.") *)
| CouldntGenerateTokens     (* ValueError("Couldn't generate tokens.") *)
| SumOfProbabilitiesIsZero  (* ValueError("Sum of token probabilities is 0.") *)
| TextWasNotGenerated       (* ValueError("Text was not generated.") *)
| PerplexityNotCalculated   (* ValueError("Perplexity was not calculated.") *)
| NoAnswersGenerated        (* ValueError("No answers were generated.") *)
| MathDomainError           (* ValueError raised by math.log on a negative number *)
| EmptySeparator            (* ValueError("empty separator") raised by str.split *)
| Foreign (is_value_error : bool) (* raised inside a generator of lab 3 *)
| ZeroDivisionError
| IndexError
| StopIteration.

Definition is_ValueError (e : exn) : bool :=
  match e with
  | ZeroDivisionError | IndexError | StopIteration => false
  | Foreign b => b
  | _ => true
  end.

Inductive result (A : Type) : Type :=
| Ok (a : A)
| Raise (e : exn).
Arguments Raise {A} e.

Definition raises_ValueError {A} (r : result A) : Prop :=
  exists e, r = Raise e /\ is_ValueError e = true.

(** ** The random number generator as threaded state *)

Record rng : Type := { stream : nat -> nat; cursor : nat }.

(** A computation that may draw random numbers and may raise. *)
Definition M (A : Type) : Type := rng -> result A * rng.

Definition ret {A} (a : A) : M A := fun g => (Ok a, g).
Definition throw {A} (e : exn) : M A := fun g => (Raise e, g).
Definition bind {A B} (m : M A) (k : A -> M B) : M B :=
  fun g => match m g with
           | (Ok a, g') => k a g'
           | (Raise e, g') => (Raise e, g')
           end.

Notation "x <- m ;; k" := (bind m (fun x => k))
  (at level 61, m at next level, right associativity).

(** [random.choice(seq)] is [seq[randbelow(len(seq))]]; on an empty sequence
    it raises [IndexError]. *)
Definition randbelow (n : nat) : M nat :=
  fun g => (Ok (stream g (cursor g) mod n)%nat,
            {| stream := stream g; cursor := S (cursor g) |}).

Definition choice {A} (l : list A) : M A :=
  match l with
  | [] => throw IndexError
  | _ => i <- randbelow (List.length l) ;;
         match nth_error l i with
         | Some x => ret x
         | None => throw IndexError
         end
  end.

(** ** Python sequences *)

Module Py.

(** Clamp a slice bound as CPython does for a sequence of length [len]. *)
Definition clamp (len : nat) (i : Z) : nat :=
  if (i <? 0)%Z then Z.to_nat (Z.max 0 (Z.of_nat len + i))
  else Nat.min (Z.to_nat i) len.

(** [l[a:b]] *)
Definition slice {A} (l : list A) (a b : Z) : list A :=
  let lo := clamp (List.length l) a in
  let hi := clamp (List.length l) b in
  firstn (hi - lo) (skipn lo l).

(** [l[:b]] and [l[a:]] *)
Definition slice_to {A} (l : list A) (b : Z) : list A :=
  firstn (clamp (List.length l) b) l.
Definition slice_from {A} (l : list A) (a : Z) : list A :=
  skipn (clamp (List.length l) a) l.

(** [l[i]], with negative indices counted from the end. *)
Definition get {A} (l : list A) (i : Z) : result A :=
  let j := if (i <? 0)%Z then (Z.of_nat (List.length l) + i)%Z else i in
  if (j <? 0)%Z then Raise IndexError
  else match nth_error l (Z.to_nat j) with
       | Some x => Ok x
       | None => Raise IndexError
       end.

(** [range(a, b)] *)
Definition range (a b : Z) : list Z :=
  map (fun k => (a + Z.of_nat k)%Z) (seq 0 (Z.to_nat (b - a))).

(** [sorted(l, key=..., reverse=...)] is stable; [lt a b] is [key(a) < key(b)].
    CPython's merge sort and a stable insertion sort return the same list. *)
Fixpoint insert_asc {A} (lt : A -> A -> bool) (x : A) (l : list A) : list A :=
  match l with
  | [] => [x]
  | y :: l' => if lt y x then y :: insert_asc lt x l' else x :: l
  end.

Fixpoint insert_desc {A} (lt : A -> A -> bool) (x : A) (l : list A) : list A :=
  match l with
  | [] => [x]
  | y :: l' => if lt x y then y :: insert_desc lt x l' else x :: l
  end.

Definition sorted {A} (lt : A -> A -> bool) (reverse : bool) (l : list A)
  : list A :=
  fold_right (if reverse then insert_desc lt else insert_asc lt) [] l.

(** Strings as lists of characters. *)
Definition chars (s : string) : list ascii := list_ascii_of_string s.
Definition str (l : list ascii) : string := string_of_list_ascii l.

Definition str_slice_to (s : string) (b : Z) : string :=
  str (slice_to (chars s) b).
Definition str_slice_from (s : string) (a : Z) : string :=
  str (slice_from (chars s) a).

(** [str.lower] on code points below 256: [A-Z] and the Latin-1 capitals
    (U+00C0 to U+00DE except the multiplication sign U+00D7) move up by 32. *)
Definition lower_char (c : ascii) : ascii :=
  let n := nat_of_ascii c in
  if ((65 <=? n) && (n <=? 90)
      || (192 <=? n) && (n <=? 222) && negb (n =? 215))%nat
  then ascii_of_nat (n + 32) else c.

Definition lower (s : string) : string := str (map lower_char (chars s)).

(** A [dict] in insertion order. *)
Section Dict.
Variables K V : Type.
Variable eqb : K -> K -> bool.

Fixpoint dict_get (d : list (K * V)) (k : K) : option V :=
  match d with
  | [] => None
  | (k', v) :: d' => if eqb k' k then Some v else dict_get d' k
  end.

(** [d[k] = v]: an existing key keeps its place. *)
Fixpoint dict_set (d : list (K * V)) (k : K) (v : V) : list (K * V) :=
  match d with
  | [] => [(k, v)]
  | (k', v') :: d' =>
      if eqb k' k then (k', v) :: d' else (k', v') :: dict_set d' k v
  end.
End Dict.

End Py.

(** ** Collaborators from lab 3 *)

Definition token : Type := Z.
Definition token_eqb : token -> token -> bool := Z.eqb.

(** The value of [generate_next_token]: a [dict] from token to probability. *)
Definition distribution : Type := list (token * Q).

Record NGramLanguageModel : Type := {
  generate_next_token : list token -> option distribution;
  get_n_gram_size : Z
}.

Record WordProcessor : Type := {
  encode : string -> option (list token);
  decode : list token -> option string
}.

(** Anything with a [run(seq_len, prompt)] method.  Its callers only test the
    returned text for truth, so a [None] from a generator of lab 3 is the
    empty string here. *)
Definition generator : Type := Z -> string -> M string.

(** Python truth value of a string. *)
Definition str_nonempty (s : string) : bool :=
  match s with EmptyString => false | _ => true end.

(** ** Double-precision addition *)

(** Python's [float] is the IEEE 754 binary64 format: the finite doubles are
    the numbers [k * 2^-1074] whose integer [k] has at most 53 significant
    bits, and [a + b] is the double nearest to the exact sum, the one with
    the even significand when two are equally near.  Sums of magnitude
    [2^1024] and more, which binary64 turns into an infinity, are outside
    the model. *)
Module Float64.

(** The integer nearest to a non-negative rational, ties to even. *)
Definition rne (x : Q) : Z :=
  let f := Qfloor x in
  match Qcompare (x - inject_Z f) (1 # 2) with
  | Lt => f
  | Gt => (f + 1)%Z
  | Eq => if Z.even f then f else (f + 1)%Z
  end.

(** The number of units [2^-1074] in 1. *)
Definition quantum : Q := inject_Z (2 ^ 1074).

(** A number of [x] units keeps its 53 leading bits: the doubles around it
    are [2 ^ shift x] units apart. *)
Definition shift (x : Q) : Z := Z.max 0 (Z.log2 (Qfloor x) - 52).

(** The double nearest to [x >= 0], both counted in units. *)
Definition round_units (x : Q) : Z :=
  (rne (x / inject_Z (2 ^ shift x)) * 2 ^ shift x)%Z.

(** The double nearest to [q]. *)
Definition round64 (q : Q) : Q :=
  match Qcompare q 0 with
  | Eq => 0
  | Gt => Qred (inject_Z (round_units (q * quantum)) / quantum)
  | Lt => Qred (- (inject_Z (round_units (- q * quantum)) / quantum))
  end.

(** [a + b] on doubles.  Adding zero changes nothing. *)
Definition fadd (a b : Q) : Q :=
  if Qeq_bool a 0 then b
  else if Qeq_bool b 0 then a
  else round64 (a + b).

(** The double a decimal literal such as [0.3] denotes. *)
Definition double (q : Q) : Q := round64 q.

Definition is_double (q : Q) : Prop := round64 q == q.

(** The same on the primitive binary64 numbers of the proof assistant, to
    compare with. *)
Definition value (f : PrimFloat.float) : option Q :=
  match FloatOps.Prim2SF f with
  | SpecFloat.S754_zero _ => Some 0
  | SpecFloat.S754_finite s m e =>
      let v := inject_Z (Zpos m) * 2 ^ e in
      Some (Qred (if s then - v else v))
  | _ => None
  end.

(** The binary64 number of a decimal literal: the correctly rounded quotient
    of two integers below [2^53]. *)
Definition literal (q : Q) : PrimFloat.float :=
  let magnitude :=
    PrimFloat.div (PrimFloat.of_uint63 (Uint63.of_Z (Z.abs (Qnum q))))
                  (PrimFloat.of_uint63 (Uint63.of_Z (Zpos (Qden q)))) in
  if (Qnum q <? 0)%Z then PrimFloat.opp magnitude else magnitude.

End Float64.

(** ** TopPGenerator *)

Module TopPGenerator.

Record t : Type := {
  _model : NGramLanguageModel;
  _word_processor : WordProcessor;
  _p_value : Q
}.

(** [key(a) < key(b)] for [key = lambda pair: (float(pair[1]), pair[0])]:
    tuples compare on the first component on which they differ. *)
Definition key_lt (a b : token * Q) : bool :=
  if Qeq_bool (snd a) (snd b) then (fst a <? fst b)%Z
  else negb (Qle_bool (snd b) (snd a)).

Definition sorted_tokens (tokens : distribution) : list (token * Q) :=
  Py.sorted key_lt true tokens.

(** The [for index, (_, prob) in enumerate(sorted_tokens)] loop: [Some index]
    when it leaves through [break], [None] when it runs into its [else].
    [sum_probability += prob] is an addition of doubles. *)
Fixpoint scan (p_value : Q) (l : list (token * Q)) (index : nat)
  (sum_probability : Q) : option nat :=
  match l with
  | [] => None
  | (_, prob) :: l' =>
      let sum_probability := Float64.fadd sum_probability prob in
      if Qle_bool p_value sum_probability then Some index
      else scan p_value l' (S index) sum_probability
  end.

(** One pass through the body of [while seq_len >= 1]: [None] is [break],
    [Some encoded'] goes on to [seq_len -= 1]. *)
Definition body (self : t) (encoded : list token) : M (option (list token)) :=
  match generate_next_token (_model self) encoded with
  | None => throw ModelReturnedNone
  | Some [] => ret None
  | Some tokens =>
      let sorted_tokens := sorted_tokens tokens in
      match scan (_p_value self) sorted_tokens 0 0 with
      | Some index =>
          random_token <- choice (firstn (index + 1) sorted_tokens) ;;
          ret (Some (encoded ++ [fst random_token]))
      | None => ret None
      end
  end.

(** The [while] loop, on the number of passes that are left. *)
Fixpoint loop (self : t) (seq_len : nat) (encoded : list token)
  : M (list token) :=
  match seq_len with
  | O => ret encoded
  | S seq_len' =>
      r <- body self encoded ;;
      match r with
      | None => ret encoded
      | Some encoded' => loop self seq_len' encoded'
      end
  end.

(** The tail of [run]: decode and check. *)
Definition finish (self : t) (encoded : list token) : M string :=
  match decode (_word_processor self) encoded with
  | Some decoded =>
      if str_nonempty decoded then ret decoded else throw CouldntDecodeText
  | None => throw CouldntDecodeText
  end.

Definition run (self : t) (seq_len : Z) (prompt : string) : M string :=
  if negb (str_nonempty prompt && (0 <? seq_len)%Z)
  then throw InappropriateInput
  else
    match encode (_word_processor self) prompt with
    | None | Some [] => throw CouldntEncodePrompt
    | Some encoded =>
        encoded <- loop self (Z.to_nat seq_len) encoded ;;
        finish self encoded
    end.

End TopPGenerator.

(** ** GenerationResultDTO and QualityChecker *)

Record GenerationResultDTO : Type := {
  get_text : string;
  get_perplexity : R;
  get_type : Z
}.

(** An error-only computation, for the code that draws no random number. *)
Definition rbind {A B} (r : result A) (k : A -> result B) : result B :=
  match r with
  | Ok a => k a
  | Raise e => Raise e
  end.

Definition lift {A} (r : result A) : M A := fun g => (r, g).

Module QualityChecker.

Record t : Type := {
  _generators : list (Z * generator);
  _language_model : NGramLanguageModel;
  _word_processor : WordProcessor
}.

(** The body of [for index in range(n_gram_size - 1, len(encoded))], from the
    value of [sum_log] before the pass to its value after it. *)
Definition score (self : t) (encoded : list token) (index : Z) (sum_log : R)
  : result R :=
  let n_gram_size := get_n_gram_size (_language_model self) in
  let context := Py.slice encoded (index - n_gram_size + 1) index in
  rbind (Py.get encoded index) (fun token =>
  match generate_next_token (_language_model self) context with
  | None | Some [] => Raise CouldntGenerateTokens
  | Some generated_tokens =>
      match Py.dict_get token_eqb generated_tokens token with
      | None => Ok sum_log
      | Some probability =>
          if Qeq_bool probability 0 then Ok sum_log
          else if Qle_bool probability 0 then Raise MathDomainError
          else Ok (sum_log + ln (Q2R probability))%R
      end
  end).

Fixpoint sum_logs (self : t) (encoded : list token) (indices : list Z)
  (sum_log : R) : result R :=
  match indices with
  | [] => Ok sum_log
  | index :: indices' =>
      rbind (score self encoded index sum_log)
            (sum_logs self encoded indices')
  end.

Definition _calculate_perplexity (self : t) (generated_text : string)
  : result R :=
  if negb (str_nonempty generated_text) then Raise InappropriateInput
  else
    match encode (_word_processor self) generated_text with
    | None | Some [] => Raise CouldntEncodePrompt
    | Some encoded =>
        let n_gram_size := get_n_gram_size (_language_model self) in
        let len := Z.of_nat (List.length encoded) in
        rbind (sum_logs self encoded (Py.range (n_gram_size - 1) len) 0%R)
          (fun sum_log =>
             if Req_dec_T sum_log 0 then Raise SumOfProbabilitiesIsZero
             else
               let d := (- (len - n_gram_size))%Z in
               if (d =? 0)%Z then Raise ZeroDivisionError
               else Ok (exp (sum_log / IZR d)))
    end.

(** [key(a) < key(b)] for
    [key = lambda dto: (dto.get_perplexity(), dto.get_type())]. *)
Definition key_lt (a b : GenerationResultDTO) : bool :=
  if Req_dec_T (get_perplexity a) (get_perplexity b)
  then (get_type a <? get_type b)%Z
  else if Rlt_dec (get_perplexity a) (get_perplexity b) then true else false.

(** The [for gen_type, generator in self._generators.items()] loop. *)
Fixpoint collect (self : t) (seq_len : Z) (prompt : string)
  (items : list (Z * generator)) (results : list GenerationResultDTO)
  : M (list GenerationResultDTO) :=
  match items with
  | [] => ret results
  | (gen_type, generator) :: items' =>
      text <- generator seq_len prompt ;;
      if negb (str_nonempty text) then throw TextWasNotGenerated
      else
        perplexity <- lift (_calculate_perplexity self text) ;;
        if Req_dec_T perplexity 0 then throw PerplexityNotCalculated
        else collect self seq_len prompt items'
               (results ++ [{| get_text := text;
                               get_perplexity := perplexity;
                               get_type := gen_type |}])
  end.

Definition run (self : t) (seq_len : Z) (prompt : string)
  : M (list GenerationResultDTO) :=
  if negb (str_nonempty prompt && (0 <? seq_len)%Z)
  then throw InappropriateInput
  else
    results <- collect self seq_len prompt (_generators self) [] ;;
    ret (Py.sorted key_lt false results).

End QualityChecker.

(** ** Examiner *)

Module Examiner.

Record t : Type := {
  _questions_and_answers : list ((string * Z) * string)
}.

(** [next(ans for (que, loc), ans in ....items() if que == question)] *)
Fixpoint actual_answer (items : list ((string * Z) * string))
  (question : string) : result string :=
  match items with
  | [] => Raise StopIteration
  | ((que, _), ans) :: items' =>
      if String.eqb que question then Ok ans
      else actual_answer items' question
  end.

(** The [for question, answer in answers.items()] loop; [true_answers] counts
    in units of [1.]. *)
Fixpoint count (self : t) (items : list (string * string)) (true_answers : Z)
  : result Z :=
  match items with
  | [] => Ok true_answers
  | (question, answer) :: items' =>
      rbind (actual_answer (_questions_and_answers self) question)
        (fun actual_answer =>
           if String.eqb (Py.lower actual_answer) (Py.lower answer)
           then count self items' (true_answers + 1)
           else count self items' true_answers)
  end.

Definition assess_exam (self : t) (answers : list (string * string))
  : result Q :=
  match answers with
  | [] => Raise InappropriateInput
  | _ =>
      rbind (count self answers 0)
        (fun true_answers =>
           Ok (inject_Z true_answers
               / inject_Z (Z.of_nat (List.length answers))))
  end.

End Examiner.

(** ** GeneratorRuleStudent *)

Module GeneratorRuleStudent.

Record t : Type := {
  _generator : generator;
  _generator_type : Z
}.

(** [answer[-1] == '.'] on a non-empty [answer], then [f"{answer[:-1]} "]. *)
Definition strip_full_stop (answer : string) : string :=
  match Py.get (Py.chars answer) (-1) with
  | Ok "."%char => (Py.str_slice_to answer (-1) ++ " ")%string
  | _ => answer
  end.

(** The [for (question, position) in tasks] loop. *)
Fixpoint fill (self : t) (tasks : list (string * Z))
  (answers : list (string * string)) : M (list (string * string)) :=
  match tasks with
  | [] => ret answers
  | (question, position) :: tasks' =>
      let context := Py.str_slice_to question position in
      answer <- _generator self 1%Z context ;;
      if negb (str_nonempty answer) then throw NoAnswersGenerated
      else
        let answer := strip_full_stop answer in
        fill self tasks'
          (Py.dict_set String.eqb answers question
             (answer ++ Py.str_slice_from question position)%string)
  end.

Definition take_exam (self : t) (tasks : list (string * Z))
  : M (list (string * string)) :=
  match tasks with
  | [] => throw InappropriateInput
  | _ => fill self tasks []
  end.

End GeneratorRuleStudent.

(** ** Vocabulary of the specification *)

Module Spec.

(** The exact sum of the probabilities of a list of (token, probability)
    pairs. *)
Definition mass (l : list (token * Q)) : Q :=
  fold_right (fun pair acc => snd pair + acc) 0 l.

(** Their cumulative probability in double precision: added up from [sum]
    (from 0) in the order of the list, every sum rounded to a double. *)
Definition accumulated_from (sum : Q) (l : list (token * Q)) : Q :=
  fold_left (fun sum pair => Float64.fadd sum (snd pair)) l sum.

Definition accumulated (l : list (token * Q)) : Q := accumulated_from 0 l.

(** [a] comes no later than [b] in the order "descending by probability, ties
    broken by token identity descending". *)
Definition before (a b : token * Q) : Prop :=
  snd b < snd a \/ (snd a == snd b /\ (fst b <= fst a)%Z).

(** Ascending for a key order [lt]: a later element is never below an earlier
    one.  Descending: it is never above. *)
Definition asc {A} (lt : A -> A -> bool) (a b : A) : Prop := lt b a = false.
Definition desc {A} (lt : A -> A -> bool) (a b : A) : Prop := lt a b = false.

(** [(a.perplexity, a.type) <= (b.perplexity, b.type)], lexicographically. *)
Definition key_le (a b : GenerationResultDTO) : Prop :=
  (get_perplexity a < get_perplexity b)%R
  \/ (get_perplexity a = get_perplexity b /\ (get_type a <= get_type b)%Z).


End Spec.

(** ** States of the generation loop *)

Module Trace.
Import TopPGenerator.

(** A state of [while seq_len >= 1]: the passes that are left, the tokens so
    far and the random number generator. *)
Definition state : Type := (nat * list token * rng)%type.

(** [reaches self s s']: from [s] the loop gets to [s'] through passes that
    each append a token. *)
Inductive reaches (self : t) : state -> state -> Prop :=
| reaches_here : forall s, reaches self s s
| reaches_pass : forall seq_len encoded g encoded' g' s,
    body self encoded g = (Ok (Some encoded'), g') ->
    reaches self (seq_len, encoded', g') s ->
    reaches self (S seq_len, encoded, g) s.

(** [decode] gave nothing the caller can use: [None] or the empty string. *)
Definition decode_fails (self : t) (encoded : list token) : Prop :=
  match decode (_word_processor self) encoded with
  | Some decoded => str_nonempty decoded = false
  | None => True
  end.

(** [encode] gave nothing: [None] or the empty tuple. *)
Definition encode_fails (self : t) (prompt : string) : Prop :=
  match encode (_word_processor self) prompt with
  | Some [] | None => True
  | Some _ => False
  end.

Definition raises {A} (r : result A * rng) : Prop :=
  exists e g, r = (Raise e, g) /\ is_ValueError e = true.

End Trace.

(** The random number generator after one draw. *)
Definition advance (g : rng) : rng :=
  {| stream := stream g; cursor := S (cursor g) |}.

(** ** Vocabulary of the perplexity formula *)

Module PerplexitySpec.

(** The [n - 1] tokens before position [i]. *)
Definition context_window (encoded : list token) (n i : nat) : list token :=
  firstn (n - 1) (skipn (i - (n - 1)) encoded).

(** The model's distribution at the context of position [i] is there and is
    not empty. *)
Definition answered (lm : NGramLanguageModel) (encoded : list token)
  (n i : nat) : Prop :=
  exists tokens,
    generate_next_token lm (context_window encoded n i) = Some tokens
    /\ tokens <> [].

(** The probability that distribution gives to the token at position [i],
    if any. *)
Definition observed (lm : NGramLanguageModel) (encoded : list token)
  (n i : nat) : option Q :=
  match nth_error encoded i with
  | Some token =>
      match generate_next_token lm (context_window encoded n i) with
      | Some tokens => Py.dict_get token_eqb tokens token
      | None => None
      end
  | None => None
  end.

(** Natural logarithm of an observed probability; zero and missing
    probabilities contribute nothing. *)
Definition log_term (o : option Q) : R :=
  match o with
  | Some q => if Qeq_bool q 0 then 0%R else ln (Q2R q)
  | None => 0%R
  end.

(** S: the sum over the positions [n - 1 .. L - 1]. *)
Definition log_sum (lm : NGramLanguageModel) (encoded : list token) (n : nat)
  : R :=
  fold_right Rplus 0%R
    (map (fun i => log_term (observed lm encoded n i))
         (seq (n - 1) (List.length encoded - (n - 1)))).

End PerplexitySpec.

(** ** Concrete collaborators for the examples *)

Module Examples.

(** A word processor with one token per character. *)
Definition char_tokens : WordProcessor := {|
  encode := fun s => Some (map (fun c => Z.of_nat (nat_of_ascii c)) (Py.chars s));
  decode := fun l => Some (Py.str (map (fun z => ascii_of_nat (Z.to_nat z)) l))
|}.

(** The same, with a [decode] that gives nothing. *)
Definition mute : WordProcessor := {|
  encode := encode char_tokens;
  decode := fun _ => None
|}.

(** A model that answers every context with the same distribution. *)
Definition constant_model (tokens : distribution) (n : Z)
  : NGramLanguageModel := {|
  generate_next_token := fun _ => Some tokens;
  get_n_gram_size := n
|}.

(** A generator that returns the same text whatever it is asked. *)
Definition constant_generator (text : string) : generator :=
  fun _ _ => ret text.

Definition g0 : rng := {| stream := fun _ => 0%nat; cursor := 0 |}.

(** Token ids of the letters of the specification's example. *)
Definition A : token := 65%Z.
Definition B : token := 66%Z.
Definition C : token := 67%Z.

(** The distribution [{A: 0.5, B: 0.3, C: 0.2}] and the threshold 0.7 of the
    specification's example. *)
Definition abc : distribution :=
  [(A, Float64.double (5 # 10)); (B, Float64.double (3 # 10));
   (C, Float64.double (2 # 10))].

Definition p07 : Q := Float64.double (7 # 10).

(** [{A: 0.1, B: 0.2}]: far below a threshold of 0.5. *)
Definition low : distribution :=
  [(A, Float64.double (1 # 10)); (B, Float64.double (2 # 10))].

(** [{1: 0.25, 2: 0.1, 3: 0.1, 4: 0.05, 5: 0.05}]: the four largest doubles
    add up to more than 0.5, their sum in double precision is below. *)
Definition five : distribution :=
  [(1%Z, Float64.double (25 # 100)); (2%Z, Float64.double (1 # 10));
   (3%Z, Float64.double (1 # 10)); (4%Z, Float64.double (5 # 100));
   (5%Z, Float64.double (5 # 100))].

(** [{1: 0.7, 2: 0.2, 3: 0.1}]: 0.9999999999999999 in double precision. *)
Definition whole : distribution :=
  [(1%Z, Float64.double (7 # 10)); (2%Z, Float64.double (2 # 10));
   (3%Z, Float64.double (1 # 10))].

(** [{A: 0.35, B: 0.15}]: the two doubles add up to less than 0.5, their sum
    in double precision is 0.5. *)
Definition rounding : distribution :=
  [(A, Float64.double (35 # 100)); (B, Float64.double (15 # 100))].

Definition top_p (tokens : distribution) (p : Q) : TopPGenerator.t := {|
  TopPGenerator._model := constant_model tokens 2%Z;
  TopPGenerator._word_processor := char_tokens;
  TopPGenerator._p_value := p
|}.

(** A model that has a continuation for contexts of at most two tokens and
    an empty distribution for longer ones. *)
Definition fading_model : NGramLanguageModel := {|
  generate_next_token := fun context =>
    if (List.length context <=? 2)%nat then Some [(99%Z, 1)] else Some [];
  get_n_gram_size := 2
|}.

Definition top_p_fading : TopPGenerator.t := {|
  TopPGenerator._model := fading_model;
  TopPGenerator._word_processor := char_tokens;
  TopPGenerator._p_value := 1 # 2
|}.

Definition top_p_mute : TopPGenerator.t := {|
  TopPGenerator._model := constant_model [(99%Z, 1)] 2%Z;
  TopPGenerator._word_processor := mute;
  TopPGenerator._p_value := 1 # 2
|}.

Definition top_p_fading_mute : TopPGenerator.t := {|
  TopPGenerator._model := fading_model;
  TopPGenerator._word_processor := mute;
  TopPGenerator._p_value := 1 # 2
|}.

Definition top_p_low_mute : TopPGenerator.t := {|
  TopPGenerator._model := constant_model low 2%Z;
  TopPGenerator._word_processor := mute;
  TopPGenerator._p_value := 1 # 2
|}.

Definition checker (generators : list (Z * generator)) (tokens : distribution)
  : QualityChecker.t := {|
  QualityChecker._generators := generators;
  QualityChecker._language_model := constant_model tokens 1%Z;
  QualityChecker._word_processor := char_tokens
|}.

(** Two generators that both answer [ab], registered as type 1 and then as
    type 0: equal perplexities, so the type decides the order. *)
Definition tied : QualityChecker.t :=
  checker [(1%Z, constant_generator "ab"); (0%Z, constant_generator "ab")]
          [(98%Z, 1 # 2)].

Definition tied_perplexity : R := exp ((0 + ln (Q2R (1 # 2))) / IZR (- (2 - 1))).

Definition tied_result (gen_type : Z) : GenerationResultDTO :=
  {| get_text := "ab"; get_perplexity := tied_perplexity;
     get_type := gen_type |}.

Definition examiner : Examiner.t := {|
  Examiner._questions_and_answers := [(("q1", 0%Z), "cat")]
|}%string.

Definition student (text : string) : GeneratorRuleStudent.t := {|
  GeneratorRuleStudent._generator := constant_generator text;
  GeneratorRuleStudent._generator_type := 0
|}.

End Examples.

(** ** Vocabulary of the exam *)

Module ExamSpec.

(** The stored expected answer for a question: the first stored entry with
    that question. *)
Definition expected (self : Examiner.t) (question : string) : option string :=
  option_map snd
    (find (fun item => String.eqb (fst (fst item)) question)
          (Examiner._questions_and_answers self)).

(** The answer equals the expected one, letter case apart. *)
Definition correct (self : Examiner.t) (item : string * string) : bool :=
  match expected self (fst item) with
  | Some actual => String.eqb (Py.lower actual) (Py.lower (snd item))
  | None => false
  end.

Definition correct_count (self : Examiner.t) (answers : list (string * string))
  : nat :=
  List.length (filter (correct self) answers).

(** [fragment] is [generated] with a final full stop replaced by a space,
    and [generated] itself when it ends otherwise. *)
Definition fragment_of (generated fragment : string) : Prop :=
  (exists body, generated = (body ++ ".")%string
                /\ fragment = (body ++ " ")%string)
  \/ ((forall body, generated <> (body ++ ".")%string)
      /\ fragment = generated).

(** The fragment as the specification words it: any final sentence-terminal
    mark, [.], [!] or [?], is replaced by a space. *)
Definition strip_terminal (generated : string) : string :=
  match rev (Py.chars generated) with
  | c :: body =>
      if (Ascii.eqb c "." || Ascii.eqb c "!" || Ascii.eqb c "?")%bool
      then (Py.str (rev body) ++ " ")%string
      else generated
  | [] => generated
  end.

(** What the task [(question, position)] records when its turn comes with
    the random number generator at [g1]: the generator is asked for one
    token after the prompt [question[:position]] and leaves the random
    number generator at [g2]; the answer is the fragment of the generated
    text followed by [question[position:]]. *)
Definition recorded (self : GeneratorRuleStudent.t) (question : string)
  (position : Z) (g1 g2 : rng) (answer : string) : Prop :=
  exists generated fragment,
    GeneratorRuleStudent._generator self 1%Z
      (Py.str_slice_to question position) g1
    = (Ok generated, g2)
    /\ str_nonempty generated = true
    /\ fragment_of generated fragment
    /\ answer = (fragment ++ Py.str_slice_from question position)%string.

(** The tasks taken in turn from [g] on: [log] holds, task by task, the
    question and the answer recorded for it. *)
Inductive answered (self : GeneratorRuleStudent.t)
  : list (string * Z) -> rng -> list (string * string) -> rng -> Prop :=
| answered_none : forall g, answered self [] g [] g
| answered_task : forall question position tasks g g1 g' answer log,
    recorded self question position g g1 answer ->
    answered self tasks g1 log g' ->
    answered self ((question, position) :: tasks) g
      ((question, answer) :: log) g'.

(** The answer of the last entry of [log] for [question]. *)
Fixpoint last_answer (log : list (string * string)) (question : string)
  : option string :=
  match log with
  | [] => None
  | (q, answer) :: log' =>
      match last_answer log' question with
      | Some later => Some later
      | None => if String.eqb q question then Some answer else None
      end
  end.

End ExamSpec.

(** ** WordProcessor: tokenization and storage *)

Module WordProcessorCode.

(** The attributes the methods below read and write: the end-of-word token
    and the storage, a [dict] from element to id. *)
Record t : Type := {
  _end_of_word_token : string;
  _storage : list (string * Z)
}.

(** [str.isspace] on code points below 256: U+0009..U+000D, U+001C..U+0020,
    U+0085 and U+00A0. *)
Definition isspace (c : ascii) : bool :=
  let n := nat_of_ascii c in
  ((9 <=? n) && (n <=? 13) || (28 <=? n) && (n <=? 32)
   || (n =? 133) || (n =? 160))%nat.

(** [str.isalpha] on code points below 256: [A-Z], [a-z], U+00AA, U+00B5,
    U+00BA and U+00C0..U+00FF without the signs U+00D7 and U+00F7. *)
Definition isalpha (c : ascii) : bool :=
  let n := nat_of_ascii c in
  ((65 <=? n) && (n <=? 90) || (97 <=? n) && (n <=? 122)
   || (n =? 170) || (n =? 181) || (n =? 186)
   || (192 <=? n) && negb (n =? 215) && negb (n =? 247))%nat.

Definition cons_word (word : list ascii) (words : list (list ascii))
  : list (list ascii) :=
  match word with
  | [] => words
  | _ => word :: words
  end.

(** [str.split()]: the maximal runs of characters that are not whitespace.
    [split_from l] is the run that starts [l], if any, and the later runs. *)
Fixpoint split_from (l : list ascii) : list ascii * list (list ascii) :=
  match l with
  | [] => ([], [])
  | c :: l' =>
      let (word, words) := split_from l' in
      if isspace c then ([], cons_word word words) else (c :: word, words)
  end.

Definition split (l : list ascii) : list (list ascii) :=
  let (word, words) := split_from l in cons_word word words.

(** [word[-1] in ('!', '.', '?')] on a non-empty [word]. *)
Definition ends_sentence (word : list ascii) : bool :=
  match Py.get word (-1) with
  | Ok c => (Ascii.eqb c "!" || Ascii.eqb c "." || Ascii.eqb c "?")%bool
  | Raise _ => false
  end.

(** The [for word in text.lower().split()] loop. *)
Fixpoint tokens_of (self : t) (words : list (list ascii)) : list string :=
  match words with
  | [] => []
  | word :: words' =>
      let clear_word := filter isalpha word in
      match clear_word with
      | [] => tokens_of self words'
      | _ =>
          Py.str clear_word
          :: (if ends_sentence word then [_end_of_word_token self] else [])
          ++ tokens_of self words'
      end
  end.

Definition _tokenize (self : t) (text : string) : result (list string) :=
  if negb (str_nonempty text) then Raise InappropriateInput
  else Ok (tokens_of self (split (Py.chars (Py.lower text)))).

(** [_put] changes the storage in place; here it returns the new object. *)
Definition _put (self : t) (element : string) : result t :=
  if negb (str_nonempty element) then Raise InappropriateInput
  else
    match Py.dict_get String.eqb (_storage self) element with
    | Some _ => Ok self
    | None =>
        Ok {| _end_of_word_token := _end_of_word_token self;
              _storage :=
                Py.dict_set String.eqb (_storage self) element
                  (Z.of_nat (List.length (_storage self))) |}
    end.

(** The ids of a storage are its positions: the i-th key has id i. *)
Definition dense (storage : list (string * Z)) : Prop :=
  map snd storage = map Z.of_nat (seq 0 (List.length storage)).

(** A token [_tokenize] can produce from a word: not empty, letters only,
    unchanged by [str.lower]. *)
Definition is_word (token : string) : Prop :=
  token <> EmptyString
  /\ forallb isalpha (Py.chars token) = true
  /\ Py.lower token = token.

(** What one word of the text contributes: nothing, a word token, or a word
    token followed by the end-of-word token. *)
Definition is_block (self : t) (block : list string) : Prop :=
  exists token,
    is_word token
    /\ (block = [token] \/ block = [token; _end_of_word_token self]).

End WordProcessorCode.

(** ** GeneratorTypes, and how a student picks its generator *)

Module GeneratorTypes.

Record t : Type := {
  greedy : Z;
  top_p : Z;
  beam_search : Z;
  types : list (Z * string)
}.

Definition __init__ : t :=
  let greedy := 0%Z in
  let top_p := 1%Z in
  let beam_search := 2%Z in
  {| greedy := greedy; top_p := top_p; beam_search := beam_search;
     types :=
       Py.dict_set Z.eqb
         (Py.dict_set Z.eqb
            (Py.dict_set Z.eqb [] greedy "Greedy Generator"%string)
            top_p "Top-P Generator"%string)
         beam_search "Beam Search Generator"%string |}.

(** [self.types[generator_type]]; [None] stands for the [KeyError]. *)
Definition get_conversion_generator_type (self : t) (generator_type : Z)
  : option string :=
  Py.dict_get Z.eqb (types self) generator_type.

End GeneratorTypes.

Module Student.

(** [GeneratorRuleStudent.__init__]; the constructors of the two generators
    of lab 3 are parameters. *)
Definition __init__
  (GreedyTextGenerator : NGramLanguageModel -> WordProcessor -> generator)
  (BeamSearchTextGenerator :
     NGramLanguageModel -> WordProcessor -> Z -> generator)
  (generator_type : Z) (language_model : NGramLanguageModel)
  (word_processor : WordProcessor) : result GeneratorRuleStudent.t :=
  let gens :=
    [GreedyTextGenerator language_model word_processor;
     TopPGenerator.run
       {| TopPGenerator._model := language_model;
          TopPGenerator._word_processor := word_processor;
          TopPGenerator._p_value := 5 # 10 |};
     BeamSearchTextGenerator language_model word_processor 5%Z] in
  rbind (Py.get gens generator_type)
    (fun generator =>
       Ok {| GeneratorRuleStudent._generator := generator;
             GeneratorRuleStudent._generator_type := generator_type |}).

(** [get_generator_type]; [None] stands for the [KeyError]. *)
Definition get_generator_type (self : GeneratorRuleStudent.t) : option string :=
  GeneratorTypes.get_conversion_generator_type GeneratorTypes.__init__
    (GeneratorRuleStudent._generator_type self).

End Student.

Module Questions.

(** [Examiner.provide_questions]: the keys of the stored dict, in order. *)
Definition provide_questions (self : Examiner.t) : list (string * Z) :=
  map fst (Examiner._questions_and_answers self).

End Questions.

(** ** WordProcessor: from decoded tokens to text *)

Module Postprocess.
Import WordProcessorCode.

(** [sep.join(items)] *)
Fixpoint join {A} (sep : list A) (items : list (list A)) : list A :=
  match items with
  | [] => []
  | [item] => item
  | item :: items' => item ++ sep ++ join sep items'
  end.

(** [l] starts with [sep]. *)
Fixpoint starts_with (sep l : list ascii) : bool :=
  match sep, l with
  | [], _ => true
  | c :: sep', d :: l' => Ascii.eqb c d && starts_with sep' l'
  | _ :: _, [] => false
  end.

(** [str.split(sep)] for a non-empty [sep]: the pieces between the
    occurrences of [sep], found from the left and not overlapping.  [skip]
    counts the characters of an occurrence still to pass, [piece] holds the
    current piece backwards. *)
Fixpoint split_on (sep l : list ascii) (skip : nat) (piece : list ascii)
  : list (list ascii) :=
  match l with
  | [] => [rev piece]
  | c :: l' =>
      match skip with
      | S skip' => split_on sep l' skip' piece
      | O =>
          if starts_with sep l
          then rev piece :: split_on sep l' (List.length sep - 1) []
          else split_on sep l' 0 (c :: piece)
      end
  end.

Fixpoint lstrip (l : list ascii) : list ascii :=
  match l with
  | c :: l' => if isspace c then lstrip l' else l
  | [] => []
  end.

(** [str.strip()] *)
Definition strip (l : list ascii) : list ascii :=
  rev (lstrip (rev (lstrip l))).

(** The text that is returned is a list of code points: the corpus has its
    characters below 256, the capitals of two of them lie above. *)
Definition codes (s : string) : list nat := map nat_of_ascii (Py.chars s).

(** The title case of a code point below 256, as the first character of
    [str.capitalize()] gets it: the small letters move down by 32, U+00DF
    becomes [Ss], U+00B5 becomes U+039C, U+00FF becomes U+0178, the rest
    stays. *)
Definition title_char (c : ascii) : list nat :=
  let n := nat_of_ascii c in
  if (n =? 181)%nat then [924%nat]
  else if (n =? 255)%nat then [376%nat]
  else if (n =? 223)%nat then [83; 115]%nat
  else if ((97 <=? n) && (n <=? 122)
           || (224 <=? n) && (n <=? 254) && negb (n =? 247))%nat
  then [(n - 32)%nat]
  else [n].

(** [str.capitalize()]: the first character in title case, the others in
    lower case. *)
Definition capitalize (l : list ascii) : list nat :=
  match l with
  | [] => []
  | c :: l' => title_char c ++ map (fun d => nat_of_ascii (Py.lower_char d)) l'
  end.

(** Empty, or ending with a character that is not a space. *)
Definition tidy (l : list nat) : Prop :=
  l = [] \/ exists body last, l = body ++ [last] /\ last <> 32%nat.

(** How a call of [_postprocess_decoded_text] ends. *)
Inductive outcome : Type :=
| Returns (text : list nat)
| Raises (e : exn).

Definition _postprocess_decoded_text (self : t) (decoded_corpus : list string)
  : outcome :=
  match decoded_corpus with
  | [] => Raises InappropriateInput
  | _ =>
      match Py.chars (_end_of_word_token self) with
      | [] => Raises EmptySeparator
      | sep =>
          let sentences :=
            split_on sep (join [" "%char] (map Py.chars decoded_corpus)) 0 []
          in
          let text :=
            join [46; 32]%nat
              (map (fun sentence => capitalize (strip sentence)) sentences) in
          match Py.get text (-1) with
          | Raise e => Raises e
          | Ok last =>
              if (last =? 32)%nat then Returns (Py.slice_to text (-1))
              else Returns (text ++ [46%nat])
          end
      end
  end.

(** The string of a text whose code points are all below 256. *)
Definition to_str (text : list nat) : option string :=
  if forallb (fun n => n <? 256)%nat text
  then Some (Py.str (map ascii_of_nat text))
  else None.

End Postprocess.

(** ** Concrete objects for the later examples *)

Module MoreExamples.

(** A word processor as lab 3 starts it: the end-of-word token is [_] and
    has id 0. *)
Definition words : WordProcessorCode.t := {|
  WordProcessorCode._end_of_word_token := "_";
  WordProcessorCode._storage := [("_"%string, 0%Z)]
|}.

(** A generator of lab 3 stands for any function of the right type. *)
Definition lab3_greedy : NGramLanguageModel -> WordProcessor -> generator :=
  fun _ _ => Examples.constant_generator "greedy.".
Definition lab3_beam : NGramLanguageModel -> WordProcessor -> Z -> generator :=
  fun _ _ _ => Examples.constant_generator "beam.".

Definition counting : rng := {| stream := fun i => i; cursor := 0 |}.

End MoreExamples.

(** ** Facts about the Python primitives *)

Section SortedFacts.
Variable A : Type.
Variable lt : A -> A -> bool.

Lemma insert_asc_perm (x : A) (l : list A) :
  Permutation (Py.insert_asc lt x l) (x :: l).
Proof.
  induction l as [|y l IH]; simpl; [reflexivity|].
  destruct (lt y x); [|reflexivity].
  rewrite IH. apply perm_swap.
Qed.

Lemma insert_desc_perm (x : A) (l : list A) :
  Permutation (Py.insert_desc lt x l) (x :: l).
Proof.
  induction l as [|y l IH]; simpl; [reflexivity|].
  destruct (lt x y); [|reflexivity].
  rewrite IH. apply perm_swap.
Qed.

Lemma sorted_perm (reverse : bool) (l : list A) :
  Permutation (Py.sorted lt reverse l) l.
Proof.
  unfold Py.sorted. induction l as [|x l IH]; simpl; [reflexivity|].
  destruct reverse.
  - rewrite insert_desc_perm. now constructor.
  - rewrite insert_asc_perm. now constructor.
Qed.

Lemma sorted_length (reverse : bool) (l : list A) :
  List.length (Py.sorted lt reverse l) = List.length l.
Proof. apply Permutation_length, sorted_perm. Qed.

(** [lt] is the strict part of a total preorder on keys. *)
Hypothesis lt_asym : forall a b, lt a b = true -> lt b a = false.
Hypothesis lt_negtrans :
  forall a b c, lt a b = false -> lt b c = false -> lt a c = false.

Lemma insert_asc_sorted (x : A) (l : list A) :
  StronglySorted (Spec.asc lt) l -> StronglySorted (Spec.asc lt) (Py.insert_asc lt x l).
Proof.
  induction 1 as [|y l Hl IH Hy]; simpl.
  - repeat constructor.
  - destruct (lt y x) eqn:E.
    + constructor; [exact IH|].
      apply (Permutation_Forall (Permutation_sym (insert_asc_perm x l))).
      constructor; [|exact Hy]. unfold Spec.asc. now apply lt_asym.
    + constructor; [now constructor|].
      constructor; [exact E|].
      eapply Forall_impl; [|exact Hy].
      intros z Hz. unfold Spec.asc in *.
      now apply lt_negtrans with y.
Qed.

Lemma insert_desc_sorted (x : A) (l : list A) :
  StronglySorted (Spec.desc lt) l -> StronglySorted (Spec.desc lt) (Py.insert_desc lt x l).
Proof.
  induction 1 as [|y l Hl IH Hy]; simpl.
  - repeat constructor.
  - destruct (lt x y) eqn:E.
    + constructor; [exact IH|].
      apply (Permutation_Forall (Permutation_sym (insert_desc_perm x l))).
      constructor; [|exact Hy]. unfold Spec.desc. now apply lt_asym.
    + constructor; [now constructor|].
      constructor; [exact E|].
      eapply Forall_impl; [|exact Hy].
      intros z Hz. unfold Spec.desc in *.
      now apply lt_negtrans with y.
Qed.

Lemma sorted_asc (l : list A) : StronglySorted (Spec.asc lt) (Py.sorted lt false l).
Proof.
  unfold Py.sorted. induction l as [|x l IH]; simpl.
  - constructor.
  - now apply insert_asc_sorted.
Qed.

Lemma sorted_desc (l : list A) : StronglySorted (Spec.desc lt) (Py.sorted lt true l).
Proof.
  unfold Py.sorted. induction l as [|x l IH]; simpl.
  - constructor.
  - now apply insert_desc_sorted.
Qed.
End SortedFacts.

(** Elements at positions [i < j] of a strongly sorted list are related. *)
Lemma StronglySorted_nth {A} (R : A -> A -> Prop) (l : list A) :
  StronglySorted R l ->
  forall i j a b, (i < j)%nat ->
    nth_error l i = Some a -> nth_error l j = Some b -> R a b.
Proof.
  induction 1 as [|x l Hl IH Hx]; intros i j a b Hij Hi Hj.
  - destruct i; discriminate.
  - destruct j as [|j]; [lia|]. simpl in Hj.
    destruct i as [|i]; simpl in Hi.
    + injection Hi as <-. rewrite Forall_forall in Hx.
      apply Hx. eapply nth_error_In; eauto.
    + apply (IH i j); auto. lia.
Qed.

(** ** Facts about the monad *)

Lemma bind_Ok {A B} (m : M A) (k : A -> M B) (g g' : rng) (b : B) :
  bind m k g = (Ok b, g') ->
  exists a g1, m g = (Ok a, g1) /\ k a g1 = (Ok b, g').
Proof.
  unfold bind. destruct (m g) as [[a|e] g1]; intros H.
  - now exists a, g1.
  - discriminate.
Qed.

Lemma choice_Ok {A} (l : list A) (g g' : rng) (x : A) :
  choice l g = (Ok x, g') ->
  nth_error l (stream g (cursor g) mod List.length l) = Some x
  /\ g' = {| stream := stream g; cursor := S (cursor g) |}.
Proof.
  unfold choice. destruct l as [|y l]; [discriminate|].
  set (l0 := y :: l). unfold bind, randbelow.
  destruct (nth_error l0 _) eqn:E; unfold ret, throw; intros H;
    [|discriminate].
  injection H as -> <-. now split.
Qed.

Lemma choice_nonempty {A} (l : list A) (g : rng) :
  l <> [] ->
  exists x, nth_error l (stream g (cursor g) mod List.length l) = Some x
    /\ choice l g = (Ok x, {| stream := stream g; cursor := S (cursor g) |}).
Proof.
  intros Hl. destruct l as [|y l]; [congruence|].
  set (l0 := y :: l) in *.
  assert (Hlt : (stream g (cursor g) mod List.length l0 < List.length l0)%nat)
    by (apply Nat.mod_upper_bound; discriminate).
  destruct (nth_error l0 (stream g (cursor g) mod List.length l0)) eqn:E.
  - exists a. split; [reflexivity|].
    unfold choice, l0 at 1, bind, randbelow. fold l0. now rewrite E.
  - apply nth_error_None in E. lia.
Qed.

(** ** Double-precision addition: rounding is monotone and idempotent *)

Module Float64Facts.
Import Float64.

Lemma rne_comp (x y : Q) : x == y -> rne x = rne y.
Proof.
  intros H. unfold rne. rewrite (Qfloor_comp _ _ H).
  assert (E : Qcompare (x - inject_Z (Qfloor y)) (1 # 2)
              = Qcompare (y - inject_Z (Qfloor y)) (1 # 2)).
  { apply Qcompare_comp; [rewrite H; reflexivity | reflexivity]. }
  rewrite E. reflexivity.
Qed.

Lemma rne_bounds (x : Q) : (Qfloor x <= rne x <= Qfloor x + 1)%Z.
Proof.
  unfold rne. destruct (Qcompare _ _); [destruct (Z.even _)| |]; lia.
Qed.

Lemma rne_Z (n : Z) : rne (inject_Z n) = n.
Proof.
  unfold rne. rewrite Qfloor_Z.
  assert (E : Qcompare (inject_Z n - inject_Z n) (1 # 2) = Lt).
  { rewrite <- Qlt_alt. lra. }
  rewrite E. reflexivity.
Qed.

Lemma rne_mono (x y : Q) : x <= y -> (rne x <= rne y)%Z.
Proof.
  intros H. pose proof (Qfloor_resp_le _ _ H) as Hf.
  destruct (Z.eq_dec (Qfloor x) (Qfloor y)) as [E|N].
  - unfold rne. rewrite E.
    destruct (Qcompare_spec (x - inject_Z (Qfloor y)) (1 # 2)) as [Hx|Hx|Hx];
      destruct (Qcompare_spec (y - inject_Z (Qfloor y)) (1 # 2)) as [Hy|Hy|Hy];
      try destruct (Z.even _); try lia; exfalso; lra.
  - pose proof (rne_bounds x). pose proof (rne_bounds y). lia.
Qed.

Lemma inject_Z_pos (p : Z) : (0 < p)%Z -> 0 < inject_Z p.
Proof. intros H. change 0 with (inject_Z 0). rewrite <- Zlt_Qlt. exact H. Qed.

Lemma rne_quotient (m p : Z) :
  (0 < p)%Z -> rne (inject_Z (m * p) / inject_Z p) = m.
Proof.
  intros Hp. transitivity (rne (inject_Z m)); [apply rne_comp|apply rne_Z].
  rewrite inject_Z_mult. pose proof (inject_Z_pos Hp). field. lra.
Qed.

Lemma rne_le (x : Q) (m p : Z) :
  (0 < p)%Z -> x <= inject_Z (m * p) -> (rne (x / inject_Z p) <= m)%Z.
Proof.
  intros Hp H. apply Z.le_trans with (rne (inject_Z (m * p) / inject_Z p));
    [|rewrite (rne_quotient m Hp); lia]. apply rne_mono.
  pose proof (inject_Z_pos Hp) as Hq.
  unfold Qdiv. apply Qmult_le_compat_r; [exact H|].
  apply Qlt_le_weak, Qinv_lt_0_compat, Hq.
Qed.

Lemma rne_ge (x : Q) (m p : Z) :
  (0 < p)%Z -> inject_Z (m * p) <= x -> (m <= rne (x / inject_Z p))%Z.
Proof.
  intros Hp H. apply Z.le_trans with (rne (inject_Z (m * p) / inject_Z p));
    [rewrite (rne_quotient m Hp); lia|]. apply rne_mono.
  pose proof (inject_Z_pos Hp) as Hq.
  unfold Qdiv. apply Qmult_le_compat_r; [exact H|].
  apply Qlt_le_weak, Qinv_lt_0_compat, Hq.
Qed.

Lemma shift_nonneg (x : Q) : (0 <= shift x)%Z.
Proof. unfold shift. lia. Qed.

Lemma pow2_pos (s : Z) : (0 <= s)%Z -> (0 < 2 ^ s)%Z.
Proof. intros. apply Z.pow_pos_nonneg; lia. Qed.

Lemma floor_nonneg (x : Q) : 0 <= x -> (0 <= Qfloor x)%Z.
Proof.
  intros H. rewrite <- (Qfloor_Z 0). apply Qfloor_resp_le. exact H.
Qed.

(** Below the next power of two of its binade. *)
Lemma below_binade (x : Q) : 0 <= x -> x <= inject_Z (2 ^ (shift x + 53)).
Proof.
  intros H. pose proof (floor_nonneg H) as Hf.
  assert (Hz : (Qfloor x + 1 <= 2 ^ (shift x + 53))%Z).
  { destruct (Z.eq_dec (Qfloor x) 0) as [E|N].
    - rewrite E. pose proof (shift_nonneg x).
      assert (0 < 2 ^ (shift x + 53))%Z by (apply pow2_pos; lia). lia.
    - assert (Hpos : (0 < Qfloor x)%Z) by lia.
      pose proof (Z.log2_spec _ Hpos) as [_ Hlt].
      assert ((2 ^ Z.succ (Z.log2 (Qfloor x)) <= 2 ^ (shift x + 53))%Z).
      { apply Z.pow_le_mono_r; [lia|]. unfold shift. lia. }
      lia. }
  apply Qle_trans with (inject_Z (Qfloor x + 1)).
  - apply Qlt_le_weak, Qlt_floor.
  - rewrite <- Zle_Qle. exact Hz.
Qed.

Lemma round_units_comp (x y : Q) : x == y -> round_units x = round_units y.
Proof.
  intros H. unfold round_units, shift. rewrite (Qfloor_comp _ _ H).
  f_equal. apply rne_comp. rewrite H. reflexivity.
Qed.

Lemma round_units_nonneg (x : Q) : 0 <= x -> (0 <= round_units x)%Z.
Proof.
  intros H. unfold round_units.
  pose proof (pow2_pos (shift_nonneg x)) as Hp.
  apply Z.mul_nonneg_nonneg; [|lia].
  apply (@rne_ge x 0 _ Hp). simpl. exact H.
Qed.

Lemma round_units_mono (x y : Q) :
  0 <= x -> x <= y -> (round_units x <= round_units y)%Z.
Proof.
  intros Hx Hxy. assert (Hy : 0 <= y) by lra.
  pose proof (Qfloor_resp_le _ _ Hxy) as Hf.
  pose proof (floor_nonneg Hx) as Hfx.
  assert (Hs : (shift x <= shift y)%Z).
  { unfold shift. pose proof (Z.log2_le_mono _ _ Hf). lia. }
  pose proof (pow2_pos (shift_nonneg x)) as Hpx.
  pose proof (pow2_pos (shift_nonneg y)) as Hpy.
  destruct (Z.eq_dec (shift x) (shift y)) as [E|N].
  - unfold round_units. rewrite E.
    apply Z.mul_le_mono_nonneg_r; [lia|]. apply rne_mono.
    unfold Qdiv. apply Qmult_le_compat_r; [exact Hxy|].
    apply Qlt_le_weak, Qinv_lt_0_compat, inject_Z_pos, Hpy.
  - assert (Hlt : (shift x < shift y)%Z) by lia.
    pose proof (shift_nonneg x) as H0.
    assert (Ey : shift y = (Z.log2 (Qfloor y) - 52)%Z) by (unfold shift in *; lia).
    assert (Hfy : (0 < Qfloor y)%Z).
    { destruct (Z.eq_dec (Qfloor y) 0) as [Z0|]; [|lia].
      rewrite Z0 in Ey. simpl in Ey. lia. }
    apply Z.le_trans with (2 ^ (shift y + 52))%Z.
    + (* round_units x <= 2^E *)
      unfold round_units.
      replace (2 ^ (shift y + 52))%Z
        with (2 ^ (shift y + 52 - shift x) * 2 ^ shift x)%Z
        by (rewrite <- Z.pow_add_r; [f_equal; lia|lia|lia]).
      apply Z.mul_le_mono_nonneg_r; [lia|].
      apply rne_le; [exact Hpx|].
      rewrite <- Z.pow_add_r by lia.
      apply Qle_trans with (inject_Z (2 ^ (shift x + 53))).
      * apply below_binade, Hx.
      * rewrite <- Zle_Qle. apply Z.pow_le_mono_r; lia.
    + unfold round_units.
      replace (2 ^ (shift y + 52))%Z with (2 ^ 52 * 2 ^ shift y)%Z
        by (rewrite <- Z.pow_add_r; [f_equal; lia|lia|lia]).
      apply Z.mul_le_mono_nonneg_r; [lia|].
      apply rne_ge; [exact Hpy|].
      rewrite <- Z.pow_add_r by lia.
      apply Qle_trans with (inject_Z (Qfloor y)); [|apply Qfloor_le].
      rewrite <- Zle_Qle.
      pose proof (Z.log2_spec _ Hfy) as [Hle _].
      replace (52 + shift y)%Z with (Z.log2 (Qfloor y)) by lia. exact Hle.
Qed.

Lemma round_units_idem (x : Q) :
  0 <= x -> round_units (inject_Z (round_units x)) = round_units x.
Proof.
  intros Hx.
  pose proof (shift_nonneg x) as Hs.
  pose proof (pow2_pos Hs) as Hp.
  pose proof (round_units_nonneg Hx) as Hr.
  set (m := rne (x / inject_Z (2 ^ shift x))).
  assert (Hm : (m <= 2 ^ 53)%Z).
  { apply rne_le; [exact Hp|]. rewrite <- Z.pow_add_r by lia.
    rewrite Z.add_comm. apply below_binade, Hx. }
  assert (Er : round_units x = (m * 2 ^ shift x)%Z) by reflexivity.
  assert (Hm0 : (0 <= m)%Z).
  { apply (@rne_ge x 0 _ Hp). simpl. exact Hx. }
  rewrite Er.
  assert (Hshift : shift (inject_Z (m * 2 ^ shift x))
                   = Z.max 0 (Z.log2 (m * 2 ^ shift x) - 52)).
  { unfold shift at 1. rewrite Qfloor_Z. reflexivity. }
  unfold round_units. rewrite Hshift. clear Hshift.
  destruct (Z.eq_dec m (2 ^ 53)) as [E|N].
  - rewrite E. rewrite <- Z.pow_add_r by lia.
    rewrite Z.log2_pow2 by lia.
    replace (Z.max 0 (53 + shift x - 52)) with (shift x + 1)%Z by lia.
    replace (2 ^ (53 + shift x))%Z with (2 ^ 52 * 2 ^ (shift x + 1))%Z
      by (rewrite <- Z.pow_add_r; [f_equal; lia|lia|lia]).
    rewrite rne_quotient; [reflexivity|apply pow2_pos; lia].
  - set (r := (m * 2 ^ shift x)%Z).
    assert (Hlog : (Z.log2 r - 52 <= shift x)%Z).
    { destruct (Z.eq_dec r 0) as [Z0|NZ].
      - rewrite Z0. simpl. lia.
      - assert (Hrpos : (0 < r)%Z) by (unfold r in *; nia).
        assert (Hlt : (r < 2 ^ (53 + shift x))%Z).
        { rewrite Z.pow_add_r by lia. unfold r. nia. }
        apply Z.log2_lt_pow2 in Hlt; [lia|exact Hrpos]. }
    set (s' := Z.max 0 (Z.log2 r - 52)).
    assert (Hs' : (0 <= s' <= shift x)%Z) by (unfold s'; lia).
    assert (Esplit : r = (m * 2 ^ (shift x - s') * 2 ^ s')%Z).
    { unfold r. rewrite <- Z.mul_assoc, <- Z.pow_add_r by lia.
      do 2 f_equal. lia. }
    rewrite Esplit at 1.
    rewrite rne_quotient; [symmetry; exact Esplit|apply pow2_pos; lia].
Qed.

Lemma quantum_pos : 0 < quantum.
Proof. apply inject_Z_pos. reflexivity. Qed.

Lemma round64_pos (x : Q) :
  0 < x -> round64 x == inject_Z (round_units (x * quantum)) / quantum.
Proof.
  intros H. unfold round64.
  assert (E : Qcompare x 0 = Gt) by (rewrite <- Qgt_alt; exact H).
  rewrite E. apply Qred_correct.
Qed.

Lemma round64_zero (x : Q) : x == 0 -> round64 x = 0.
Proof.
  intros H. unfold round64.
  assert (E : Qcompare x 0 = Eq) by (rewrite <- Qeq_alt; exact H).
  rewrite E. reflexivity.
Qed.

Lemma scaled_nonneg (x : Q) : 0 <= x -> 0 <= x * quantum.
Proof. intros. pose proof quantum_pos. nra. Qed.

Lemma round64_nonneg (x : Q) : 0 <= x -> 0 <= round64 x.
Proof.
  intros H. destruct (Qeq_dec x 0) as [E|N].
  - rewrite (round64_zero E). lra.
  - assert (Hx : 0 < x) by lra.
    rewrite (round64_pos Hx).
    pose proof (round_units_nonneg (scaled_nonneg H)) as Hr.
    apply Qle_shift_div_l; [apply quantum_pos|].
    rewrite Qmult_0_l. change 0 with (inject_Z 0). rewrite <- Zle_Qle.
    exact Hr.
Qed.

Lemma round64_mono (x y : Q) : 0 <= x -> x <= y -> round64 x <= round64 y.
Proof.
  intros Hx Hxy. destruct (Qeq_dec x 0) as [E|N].
  - rewrite (round64_zero E). apply round64_nonneg. lra.
  - assert (Hx' : 0 < x) by lra. assert (Hy : 0 < y) by lra.
    rewrite (round64_pos Hx'), (round64_pos Hy).
    unfold Qdiv. apply Qmult_le_compat_r.
    + rewrite <- Zle_Qle. apply round_units_mono; [apply scaled_nonneg, Hx|].
      pose proof quantum_pos. nra.
    + apply Qlt_le_weak, Qinv_lt_0_compat, quantum_pos.
Qed.

Lemma round64_idem (x : Q) : 0 <= x -> round64 (round64 x) == round64 x.
Proof.
  intros Hx. destruct (Qeq_dec x 0) as [E|N].
  - rewrite (round64_zero E). reflexivity.
  - assert (Hx' : 0 < x) by lra.
    destruct (Qeq_dec (round64 x) 0) as [E0|N0].
    + rewrite (round64_zero E0). symmetry. exact E0.
    + pose proof (round64_nonneg Hx) as Hr.
      assert (Hr' : 0 < round64 x) by lra.
      rewrite (round64_pos Hr').
      rewrite (round64_pos Hx') at 2.
      assert (Eu : round_units (round64 x * quantum)
                   = round_units (x * quantum)).
      { rewrite <- (round_units_idem (scaled_nonneg Hx)).
        apply round_units_comp. rewrite (round64_pos Hx').
        pose proof quantum_pos. field. lra. }
      rewrite Eu. reflexivity.
Qed.

(** Adding a non-negative double to a non-negative double does not
    decrease it, and gives a double. *)
Lemma fadd_increases (a b : Q) :
  0 <= a -> is_double a -> 0 <= b -> is_double b ->
  a <= fadd a b /\ 0 <= fadd a b /\ is_double (fadd a b).
Proof.
  intros Ha Da Hb Db. unfold fadd.
  destruct (Qeq_bool a 0) eqn:Ea.
  - apply Qeq_bool_eq in Ea. split; [lra|]. split; assumption.
  - destruct (Qeq_bool b 0) eqn:Eb.
    + split; [lra|]. split; assumption.
    + assert (Hab : 0 <= a + b) by lra.
      split; [|split].
      * unfold is_double in Da. rewrite <- Da at 1.
        apply round64_mono; lra.
      * apply round64_nonneg, Hab.
      * apply round64_idem, Hab.
Qed.

(** The running sum of non-negative doubles never decreases. *)
Lemma accumulated_from_ge (l : list (token * Q)) :
  Forall (fun pair => 0 <= snd pair /\ is_double (snd pair)) l ->
  forall sum, 0 <= sum -> is_double sum ->
    sum <= Spec.accumulated_from sum l.
Proof.
  induction 1 as [|[t q] l [Hq Dq] _ IH]; intros s Hs Ds.
  - simpl. lra.
  - change (Spec.accumulated_from s ((t, q) :: l))
      with (Spec.accumulated_from (fadd s q) l).
    simpl snd in *.
    destruct (fadd_increases Hs Ds Hq Dq) as (H1 & H2 & H3).
    pose proof (IH _ H2 H3). lra.
Qed.

Lemma accumulated_from_firstn (l : list (token * Q)) :
  Forall (fun pair => 0 <= snd pair /\ is_double (snd pair)) l ->
  forall sum j, 0 <= sum -> is_double sum ->
    Spec.accumulated_from sum (firstn j l) <= Spec.accumulated_from sum l.
Proof.
  induction 1 as [|[t q] l [Hq Dq] Hl IH]; intros s j Hs Ds.
  - rewrite firstn_nil. lra.
  - destruct j as [|j].
    + change (firstn 0 ((t, q) :: l)) with (@nil (token * Q)).
      change (Spec.accumulated_from s []) with s.
      apply accumulated_from_ge; [|exact Hs|exact Ds].
      constructor; [split; assumption|exact Hl].
    + change (firstn (S j) ((t, q) :: l)) with ((t, q) :: firstn j l).
      change (Spec.accumulated_from s ((t, q) :: firstn j l))
        with (Spec.accumulated_from (fadd s q) (firstn j l)).
      change (Spec.accumulated_from s ((t, q) :: l))
        with (Spec.accumulated_from (fadd s q) l).
      simpl snd in *.
      destruct (fadd_increases Hs Ds Hq Dq) as (H1 & H2 & H3).
      apply IH; assumption.
Qed.

Lemma zero_is_double : is_double 0.
Proof. unfold is_double. rewrite round64_zero; reflexivity. Qed.

End Float64Facts.

(** ** TopPGenerator: the order and the nucleus *)

Module TopPFacts.
Import TopPGenerator.

Lemma key_lt_false (a b : token * Q) : key_lt a b = false <-> Spec.before a b.
Proof.
  unfold key_lt, Spec.before.
  destruct (Qeq_bool (snd a) (snd b)) eqn:E.
  - apply Qeq_bool_iff in E. rewrite Z.ltb_ge. split.
    + intros H. right. now split.
    + intros [H|[_ H]]; [lra|exact H].
  - apply Qeq_bool_neq in E. rewrite negb_false_iff, Qle_bool_iff. split.
    + intros H. left. lra.
    + intros [H|[H _]]; [lra|contradiction].
Qed.

Lemma key_lt_asym (a b : token * Q) : key_lt a b = true -> key_lt b a = false.
Proof.
  intros H. apply key_lt_false.
  destruct (key_lt b a) eqn:E.
  - assert (Ha : ~ Spec.before a b) by (rewrite <- key_lt_false; congruence).
    assert (Hb : ~ Spec.before b a) by (rewrite <- key_lt_false; congruence).
    unfold Spec.before in *. exfalso.
    destruct (Qlt_le_dec (snd a) (snd b)); [tauto|].
    destruct (Qlt_le_dec (snd b) (snd a)); [tauto|].
    assert (snd a == snd b) by lra.
    destruct (Z_le_gt_dec (fst a) (fst b)).
    + apply Hb. right. split; [lra|lia].
    + apply Ha. right. split; [lra|lia].
  - now apply key_lt_false.
Qed.

Lemma key_lt_negtrans (a b c : token * Q) :
  key_lt a b = false -> key_lt b c = false -> key_lt a c = false.
Proof.
  rewrite !key_lt_false. unfold Spec.before.
  intros [H1|[H1 H1']] [H2|[H2 H2']].
  - left. lra.
  - left. lra.
  - left. lra.
  - right. split; [lra|lia].
Qed.

Lemma sorted_tokens_before (tokens : distribution) :
  StronglySorted Spec.before (sorted_tokens tokens).
Proof.
  pose proof (@sorted_desc _ key_lt key_lt_asym key_lt_negtrans tokens) as H.
  unfold sorted_tokens. induction H; constructor; auto.
  eapply Forall_impl; [|eassumption].
  intros b Hb. now apply key_lt_false.
Qed.

Lemma accumulated_from_cons (sum : Q) (x : token * Q) (l : list (token * Q)) :
  Spec.accumulated_from sum (x :: l)
  = Spec.accumulated_from (Float64.fadd sum (snd x)) l.
Proof. reflexivity. Qed.

(** Where [scan] leaves through [break]: the running sum reaches the
    threshold exactly there and at no earlier pass. *)
Lemma scan_Some (p : Q) (l : list (token * Q)) :
  forall index sum_probability i,
    scan p l index sum_probability = Some i ->
    exists k, i = (index + k)%nat /\ (k < List.length l)%nat
      /\ p <= Spec.accumulated_from sum_probability (firstn (S k) l)
      /\ forall j, (1 <= j <= k)%nat ->
           ~ p <= Spec.accumulated_from sum_probability (firstn j l).
Proof.
  induction l as [|[t q] l IH]; intros index s i H; simpl in H; [discriminate|].
  destruct (Qle_bool p (Float64.fadd s q)) eqn:E.
  - injection H as <-. exists 0%nat. apply Qle_bool_iff in E.
    repeat split; [lia|simpl; lia|exact E|intros j Hj; lia].
  - apply IH in H as (k & -> & Hk & Hle & Hmin).
    assert (Hn : ~ p <= Float64.fadd s q)
      by (rewrite <- Qle_bool_iff; congruence).
    exists (S k). repeat split; [lia|simpl; lia|exact Hle|].
    intros j Hj. destruct j as [|j]; [lia|].
    change (firstn (S j) ((t, q) :: l)) with ((t, q) :: firstn j l).
    rewrite accumulated_from_cons. simpl snd.
    destruct j as [|j]; [exact Hn|].
    apply Hmin. lia.
Qed.

(** Where [scan] runs into the [else]: no running sum reaches the
    threshold. *)
Lemma scan_None (p : Q) (l : list (token * Q)) :
  forall index sum_probability,
    scan p l index sum_probability = None <->
    forall j, (1 <= j <= List.length l)%nat ->
      ~ p <= Spec.accumulated_from sum_probability (firstn j l).
Proof.
  induction l as [|[t q] l IH]; intros index s; simpl.
  - split; [intros _ j Hj; lia|reflexivity].
  - destruct (Qle_bool p (Float64.fadd s q)) eqn:E.
    + apply Qle_bool_iff in E. split; [discriminate|].
      intros H. exfalso. apply (H 1%nat); [lia|]. exact E.
    + assert (Hn : ~ p <= Float64.fadd s q)
        by (rewrite <- Qle_bool_iff; congruence).
      rewrite IH. split; intros H j Hj.
      * destruct j as [|[|j]]; [lia|exact Hn|].
        change (firstn (S (S j)) ((t, q) :: l))
          with ((t, q) :: firstn (S j) l).
        rewrite accumulated_from_cons. apply H. lia.
      * apply (H (S j)). lia.
Qed.


(** The whole list reaches the threshold: [scan] leaves through [break]. *)
Lemma scan_reaches (p : Q) (l : list (token * Q)) :
  l <> [] -> p <= Spec.accumulated l ->
  exists i, scan p l 0 0 = Some i /\ (i < List.length l)%nat.
Proof.
  intros Hne Hp. destruct (scan p l 0 0) as [i|] eqn:Hs.
  - exists i. split; [reflexivity|].
    apply scan_Some in Hs as (k & -> & Hk & _). exact Hk.
  - exfalso.
    apply (proj1 (scan_None _ _ _ _) Hs (List.length l)).
    + destruct l; [congruence|simpl; lia].
    + rewrite firstn_all. exact Hp.
Qed.

End TopPFacts.

Module TopPStep.
Import TopPGenerator TopPFacts.

(** What a pass of the loop body does once the model has answered with a
    non-empty distribution. *)
Lemma body_nonempty (self : t) (encoded : list token) (tokens : distribution)
  (g : rng) :
  generate_next_token (_model self) encoded = Some tokens ->
  tokens <> [] ->
  body self encoded g =
    match scan (_p_value self) (sorted_tokens tokens) 0 0 with
    | Some index =>
        (random_token <- choice (firstn (index + 1) (sorted_tokens tokens)) ;;
         ret (Some (encoded ++ [fst random_token]))) g
    | None => (Ok None, g)
    end.
Proof.
  intros Hm Hne. unfold body. rewrite Hm.
  destruct tokens as [|x tokens]; [congruence|].
  destruct (scan _ _ 0%nat 0); reflexivity.
Qed.



End TopPStep.

(** ** TopPGenerator: the loop *)

Module TopPLoop.
Import TopPGenerator TopPFacts TopPStep Trace.

Lemma loop_reaches_state (self : t) (s s' : state) :
  reaches self s s' ->
  loop self (fst (fst s)) (snd (fst s)) (snd s)
  = loop self (fst (fst s')) (snd (fst s')) (snd s').
Proof.
  induction 1 as [|n enc g enc' g' s Hb Hr IH]; [reflexivity|].
  simpl in *. unfold bind at 1. rewrite Hb. exact IH.
Qed.

Lemma loop_reaches (self : t) (n : nat) (enc : list token) (g : rng)
  (n' : nat) (enc' : list token) (g' : rng) :
  reaches self (n, enc, g) (n', enc', g') ->
  loop self n enc g = loop self n' enc' g'.
Proof. intros H. exact (loop_reaches_state H). Qed.

Lemma reaches_length_state (self : t) (s s' : state) :
  reaches self s s' ->
  (fst (fst s') <= fst (fst s))%nat
  /\ (List.length (snd (fst s')) + fst (fst s')
      = List.length (snd (fst s)) + fst (fst s))%nat.
Proof.
  induction 1 as [|n enc g enc' g' s Hb Hr IH]; [split; reflexivity|].
  simpl in *. destruct IH as [IH1 IH2]. split; [lia|].
  rewrite IH2.
  assert (List.length enc' = S (List.length enc)); [|lia].
  unfold body in Hb.
  destruct (generate_next_token _ _) as [[|x tokens]|]; try discriminate.
  destruct (scan _ _ _ _); [|discriminate].
  apply bind_Ok in Hb as (pair & g1 & _ & Hr').
  unfold ret in Hr'. injection Hr' as <- _.
  rewrite length_app. simpl. lia.
Qed.

Lemma reaches_length (self : t) (n : nat) (enc : list token) (g : rng)
  (n' : nat) (enc' : list token) (g' : rng) :
  reaches self (n, enc, g) (n', enc', g') ->
  (n' <= n)%nat
  /\ (List.length enc' + n' = List.length enc + n)%nat.
Proof. intros H. exact (reaches_length_state H). Qed.

Lemma reaches_trans (self : t) (s1 s2 s3 : state) :
  reaches self s1 s2 -> reaches self s2 s3 -> reaches self s1 s3.
Proof.
  induction 1; intros H3; [exact H3|].
  eapply reaches_pass; eauto.
Qed.

(** A pass either raises because the model gave [None], or stops the loop,
    or appends a token; [random.choice] never fails in it. *)
Lemma body_cases (self : t) (encoded : list token) (g : rng) :
  (generate_next_token (_model self) encoded = None
   /\ body self encoded g = (Raise ModelReturnedNone, g))
  \/ (generate_next_token (_model self) encoded <> None
      /\ body self encoded g = (Ok None, g))
  \/ (generate_next_token (_model self) encoded <> None
      /\ exists encoded' g', body self encoded g = (Ok (Some encoded'), g')).
Proof.
  destruct (generate_next_token (_model self) encoded) as [tokens|] eqn:Hm.
  - right. destruct tokens as [|x tokens'] eqn:Ht.
    + left. split; [discriminate|]. unfold body. now rewrite Hm.
    + rewrite <- Ht in *.
      assert (Hne : tokens <> []) by (rewrite Ht; discriminate).
      rewrite (body_nonempty self encoded g Hm Hne).
      destruct (scan _ _ 0%nat 0) as [index|] eqn:Hs.
      * right. split; [discriminate|].
        apply scan_Some in Hs as (k & -> & Hk & _).
        assert (Hl : firstn (0 + k + 1) (sorted_tokens tokens) <> []).
        { intros E. apply (f_equal (@List.length _)) in E.
          rewrite length_firstn in E. simpl in E. lia. }
        destruct (choice_nonempty g Hl) as (x' & _ & Hc).
        do 2 eexists. unfold bind. rewrite Hc. reflexivity.
      * left. split; [discriminate|reflexivity].
  - left. split; [reflexivity|]. unfold body. now rewrite Hm.
Qed.

(** The loop ends in one of three ways. *)
Lemma loop_cases (self : t) (seq_len : nat) :
  forall encoded g,
    (exists k enc g1,
        reaches self (seq_len, encoded, g) (S k, enc, g1)
        /\ generate_next_token (_model self) enc = None
        /\ loop self seq_len encoded g = (Raise ModelReturnedNone, g1))
    \/ (exists k enc g1,
        reaches self (seq_len, encoded, g) (k, enc, g1)
        /\ loop self seq_len encoded g = (Ok enc, g1)
        /\ forall k' enc' g', reaches self (seq_len, encoded, g) (S k', enc', g') ->
             generate_next_token (_model self) enc' <> None).
Proof.
  induction seq_len as [|n IH]; intros encoded g.
  - right. exists 0%nat, encoded, g. split; [constructor|].
    split; [reflexivity|]. intros k' enc' g' H. inversion H.
  - destruct (body_cases self encoded g) as [[Hm Hb]|[[Hm Hb]|[Hm (e' & g' & Hb)]]].
    + left. exists n, encoded, g. split; [constructor|]. split; [exact Hm|].
      simpl. unfold bind. now rewrite Hb.
    + right. exists (S n), encoded, g. split; [constructor|].
      split; [simpl; unfold bind; now rewrite Hb|].
      intros k' enc' g' H. inversion H; subst; [exact Hm|congruence].
    + destruct (IH e' g')
        as [(k & enc & g1 & Hr & Hn & Hl)|(k & enc & g1 & Hr & Hl & Hall)].
      * left. exists k, enc, g1. split; [eapply reaches_pass; eauto|].
        split; [exact Hn|]. simpl. unfold bind at 1. now rewrite Hb.
      * right. exists k, enc, g1. split; [eapply reaches_pass; eauto|].
        split; [simpl; unfold bind at 1; now rewrite Hb|].
        intros k' enc' g'' H. inversion H; subst; [exact Hm|].
        match goal with
        | H1 : body _ _ _ = (Ok (Some ?a), ?b) |- _ =>
            rewrite Hb in H1; injection H1 as <- <-
        end.
        eapply Hall; eauto.
Qed.

End TopPLoop.

(** ** TopPGenerator: early stops and errors *)

Module TopPRun.
Import TopPGenerator TopPFacts TopPStep Trace TopPLoop.

Lemma run_valid (self : t) (seq_len : Z) (prompt : string) (g : rng)
  (encoded0 : list token) :
  str_nonempty prompt = true -> (0 < seq_len)%Z ->
  encode (_word_processor self) prompt = Some encoded0 -> encoded0 <> [] ->
  run self seq_len prompt g
  = (encoded <- loop self (Z.to_nat seq_len) encoded0 ;; finish self encoded) g.
Proof.
  intros Hp Hn He Hne. unfold run. rewrite Hp.
  apply Z.ltb_lt in Hn. rewrite Hn. simpl. rewrite He.
  destruct encoded0; [congruence|reflexivity].
Qed.

(** A pass that ends in [break] ends the loop with the tokens it had. *)
Lemma loop_break (self : t) (seq_len : nat) (encoded0 : list token) (g : rng)
  (k : nat) (encoded : list token) (g1 : rng) :
  reaches self (seq_len, encoded0, g) (S k, encoded, g1) ->
  body self encoded g1 = (Ok None, g1) ->
  loop self seq_len encoded0 g = (Ok encoded, g1).
Proof.
  intros Hr Hb. rewrite (loop_reaches Hr). simpl. unfold bind.
  now rewrite Hb.
Qed.

Lemma finish_decoded (self : t) (encoded : list token) (g : rng)
  (decoded : string) :
  decode (_word_processor self) encoded = Some decoded ->
  str_nonempty decoded = true ->
  finish self encoded g = (Ok decoded, g).
Proof. intros Hd Hs. unfold finish. now rewrite Hd, Hs. Qed.

Lemma finish_fails (self : t) (encoded : list token) (g : rng) :
  decode_fails self encoded ->
  finish self encoded g = (Raise CouldntDecodeText, g).
Proof.
  unfold decode_fails, finish.
  destruct (decode (_word_processor self) encoded) as [decoded|];
    [|reflexivity].
  intros ->. reflexivity.
Qed.

(** What a run whose loop stops at [encoded] comes to. *)
Lemma run_break (self : t) (seq_len : Z) (prompt : string) (g : rng)
  (encoded0 : list token) (k : nat) (encoded : list token) (g1 : rng) :
  str_nonempty prompt = true -> (0 < seq_len)%Z ->
  encode (_word_processor self) prompt = Some encoded0 -> encoded0 <> [] ->
  reaches self (Z.to_nat seq_len, encoded0, g) (S k, encoded, g1) ->
  body self encoded g1 = (Ok None, g1) ->
  loop self (Z.to_nat seq_len) encoded0 g = (Ok encoded, g1)
  /\ (forall decoded,
        decode (_word_processor self) encoded = Some decoded ->
        str_nonempty decoded = true ->
        run self seq_len prompt g = (Ok decoded, g1))
  /\ (decode_fails self encoded ->
        run self seq_len prompt g = (Raise CouldntDecodeText, g1))
  /\ (List.length encoded + S k
      = List.length encoded0 + Z.to_nat seq_len)%nat.
Proof.
  intros Hp Hn He Hne Hr Hb.
  pose proof (loop_break Hr Hb) as Hl.
  assert (Hrun : run self seq_len prompt g = finish self encoded g1).
  { rewrite (@run_valid self seq_len prompt g encoded0 Hp Hn He Hne).
    unfold bind. now rewrite Hl. }
  split; [exact Hl|]. split; [|split].
  - intros decoded Hd Hs. rewrite Hrun. now apply finish_decoded.
  - intros Hf. rewrite Hrun. now apply finish_fails.
  - apply reaches_length in Hr as [_ Hr]. exact Hr.
Qed.

(** C5, as the program has it.  If the model answers some pass of
    [TopPGenerator.run] with an empty distribution, the loop ends there
    without an exception, holding the tokens accumulated so far (fewer new
    ones than [seq_len] asked for).  [run] then returns their decoded text,
    unless decoding them gives nothing: then it raises a [ValueError]. *)
Theorem empty_distribution_stops_generation
  (self : t) (seq_len : Z) (prompt : string) (g : rng)
  (encoded0 : list token) (k : nat) (encoded : list token) (g1 : rng) :
  str_nonempty prompt = true -> (0 < seq_len)%Z ->
  encode (_word_processor self) prompt = Some encoded0 -> encoded0 <> [] ->
  reaches self (Z.to_nat seq_len, encoded0, g) (S k, encoded, g1) ->
  generate_next_token (_model self) encoded = Some [] ->
  loop self (Z.to_nat seq_len) encoded0 g = (Ok encoded, g1)
  /\ (forall decoded,
        decode (_word_processor self) encoded = Some decoded ->
        str_nonempty decoded = true ->
        run self seq_len prompt g = (Ok decoded, g1))
  /\ (decode_fails self encoded ->
        run self seq_len prompt g = (Raise CouldntDecodeText, g1)
        /\ is_ValueError CouldntDecodeText = true)
  /\ (List.length encoded + S k
      = List.length encoded0 + Z.to_nat seq_len)%nat.
Proof.
  intros Hp Hn He Hne Hr Hm.
  assert (Hb : body self encoded g1 = (Ok None, g1))
    by (unfold body; now rewrite Hm).
  destruct (@run_break self seq_len prompt g encoded0 k encoded g1
              Hp Hn He Hne Hr Hb) as (H1 & H2 & H3 & H4).
  split; [exact H1|]. split; [exact H2|]. split; [|exact H4].
  intros Hf. split; [now apply H3|reflexivity].
Qed.

(** C9, as the program has it.  If the model answers some pass with a
    non-empty distribution of non-negative probabilities whose sum, added up
    in double precision in sorted order as [run] does, is below [p_value],
    no token is chosen: the loop ends there without an exception, exactly as
    for an empty distribution.  [run] then returns the decoded tokens so
    far, unless decoding them gives nothing: then it raises a
    [ValueError]. *)
Theorem low_mass_stops_generation
  (self : t) (seq_len : Z) (prompt : string) (g : rng)
  (encoded0 : list token) (k : nat) (encoded : list token) (g1 : rng)
  (tokens : distribution) :
  str_nonempty prompt = true -> (0 < seq_len)%Z ->
  encode (_word_processor self) prompt = Some encoded0 -> encoded0 <> [] ->
  reaches self (Z.to_nat seq_len, encoded0, g) (S k, encoded, g1) ->
  generate_next_token (_model self) encoded = Some tokens ->
  tokens <> [] ->
  Forall (fun pair => 0 <= snd pair /\ Float64.is_double (snd pair)) tokens ->
  Spec.accumulated (sorted_tokens tokens) < _p_value self ->
  body self encoded g1 = (Ok None, g1)
  /\ loop self (Z.to_nat seq_len) encoded0 g = (Ok encoded, g1)
  /\ (forall decoded,
        decode (_word_processor self) encoded = Some decoded ->
        str_nonempty decoded = true ->
        run self seq_len prompt g = (Ok decoded, g1))
  /\ (decode_fails self encoded ->
        run self seq_len prompt g = (Raise CouldntDecodeText, g1)
        /\ is_ValueError CouldntDecodeText = true)
  /\ (List.length encoded + S k
      = List.length encoded0 + Z.to_nat seq_len)%nat.
Proof.
  intros Hp Hn He Hne Hr Hm Ht Hpos Hlow.
  assert (Hb : body self encoded g1 = (Ok None, g1)).
  { rewrite (body_nonempty self encoded g1 Hm Ht).
    assert (Hs : scan (_p_value self) (sorted_tokens tokens) 0 0 = None).
    { apply scan_None. intros j _ Hc.
      pose proof (sorted_perm key_lt true tokens) as Hperm.
      fold (sorted_tokens tokens) in Hperm.
      assert (Hpos' : Forall (fun pair => 0 <= snd pair
                                /\ Float64.is_double (snd pair))
                        (sorted_tokens tokens))
        by (eapply Permutation_Forall; [apply Permutation_sym|]; eauto).
      assert (H0 : 0 <= 0) by lra.
      pose proof (@Float64Facts.accumulated_from_firstn _ Hpos' 0 j H0
                    Float64Facts.zero_is_double) as Hj.
      unfold Spec.accumulated in Hlow. lra. }
    now rewrite Hs. }
  destruct (@run_break self seq_len prompt g encoded0 k encoded g1
              Hp Hn He Hne Hr Hb) as (H1 & H2 & H3 & H4).
  split; [exact Hb|]. split; [exact H1|]. split; [exact H2|].
  split; [|exact H4].
  intros Hf. split; [now apply H3|reflexivity].
Qed.

(** C6, as the program has it. [TopPGenerator.run] raises exactly when the
    prompt is empty, or the number of tokens asked for is not positive, or
    encoding the prompt gives nothing, or the model answers some pass with
    [None], or decoding the final tokens gives nothing; what it raises is
    always a [ValueError]; an empty distribution does not make it raise. *)
Theorem run_raises_iff (self : t) (seq_len : Z) (prompt : string) (g : rng) :
  (raises (run self seq_len prompt g) <->
     prompt = EmptyString
     \/ (seq_len <= 0)%Z
     \/ encode_fails self prompt
     \/ (exists encoded0 k encoded g1,
           encode (_word_processor self) prompt = Some encoded0
           /\ reaches self (Z.to_nat seq_len, encoded0, g) (S k, encoded, g1)
           /\ generate_next_token (_model self) encoded = None)
     \/ (exists encoded0 encoded g1,
           encode (_word_processor self) prompt = Some encoded0
           /\ loop self (Z.to_nat seq_len) encoded0 g = (Ok encoded, g1)
           /\ decode_fails self encoded))
  /\ (forall e g', run self seq_len prompt g = (Raise e, g') ->
        is_ValueError e = true).
Proof.
  unfold raises, run, encode_fails.
  destruct prompt as [|c prompt].
  { simpl. split; [|intros e g' H; injection H as <- _; reflexivity].
    split; [auto|]. intros _. do 2 eexists. split; reflexivity. }
  set (prompt0 := String c prompt).
  assert (Hp : prompt0 <> EmptyString) by discriminate.
  change (str_nonempty prompt0) with true.
  destruct (0 <? seq_len)%Z eqn:Hn; cbn [andb negb]; cbv beta iota.
  2:{ apply Z.ltb_ge in Hn.
      split; [|intros e g' H; injection H as <- _; reflexivity].
      split; [auto|]. intros _. do 2 eexists. split; reflexivity. }
  apply Z.ltb_lt in Hn.
  destruct (encode (_word_processor self) prompt0) as [[|x enc0]|] eqn:He.
  1,3: split; [|intros e g' H; injection H as <- _; reflexivity];
       (split; [auto|]); intros _; do 2 eexists; split; reflexivity.
  set (encoded0 := x :: enc0) in *.
  unfold bind.
  destruct (loop_cases self (Z.to_nat seq_len) encoded0 g)
    as [(k & enc & g1 & Hr & Hm & Hl)|(k & enc & g1 & Hr & Hl & Hall)];
    rewrite Hl.
  - split; [|intros e g' H; injection H as <- _; reflexivity].
    split; [|intros _; do 2 eexists; split; reflexivity].
    intros _. do 3 right. left. exists encoded0, k, enc, g1. auto.
  - unfold finish, decode_fails.
    destruct (decode (_word_processor self) enc) as [decoded|] eqn:Hd.
    + destruct (str_nonempty decoded) eqn:Hs.
      * split; [|intros e g' H; discriminate].
        split; [intros (e & g' & H & _); discriminate|].
        intros [H|[H|[H|[H|H]]]]; [congruence|lia|contradiction| |].
        -- destruct H as (e0 & k' & enc' & g' & He0 & Hr' & Hm').
           injection He0 as <-. exfalso. eapply Hall; eauto.
        -- destruct H as (e0 & enc' & g' & He0 & Hl' & Hf).
           injection He0 as <-. rewrite Hl in Hl'. injection Hl' as <- <-.
           rewrite Hd in Hf. congruence.
      * split; [|intros e g' H; injection H as <- _; reflexivity].
        split; [|intros _; do 2 eexists; split; reflexivity].
        intros _. do 4 right. exists encoded0, enc, g1.
        rewrite Hd. auto.
    + split; [|intros e g' H; injection H as <- _; reflexivity].
      split; [|intros _; do 2 eexists; split; reflexivity].
      intros _. do 4 right. exists encoded0, enc, g1.
      rewrite Hd. auto.
Qed.

End TopPRun.

(** ** QualityChecker: perplexity *)

Module PerplexityFacts.
Import QualityChecker PerplexitySpec.

Lemma seq_as_map (start len : nat) :
  seq start len = map (fun k => (start + k)%nat) (seq 0 len).
Proof.
  revert start. induction len as [|len IH]; intros start; [reflexivity|].
  simpl. rewrite Nat.add_0_r. f_equal.
  rewrite IH, <- seq_shift, map_map.
  apply map_ext. intros k. lia.
Qed.

(** [range(n - 1, L)] visits the positions [n - 1 .. L - 1]. *)
Lemma range_positions (n : Z) (L : nat) :
  (1 <= n)%Z ->
  Py.range (n - 1) (Z.of_nat L)
  = map Z.of_nat (seq (Z.to_nat n - 1) (L - (Z.to_nat n - 1))).
Proof.
  intros Hn. unfold Py.range.
  rewrite (seq_as_map (Z.to_nat n - 1)), map_map.
  replace (Z.to_nat (Z.of_nat L - (n - 1))) with (L - (Z.to_nat n - 1))%nat
    by lia.
  apply map_ext. intros k. lia.
Qed.

Lemma get_position {A} (l : list A) (i : nat) (x : A) :
  nth_error l i = Some x -> Py.get l (Z.of_nat i) = Ok x.
Proof.
  intros H. unfold Py.get.
  destruct (Z.of_nat i <? 0)%Z eqn:E; [apply Z.ltb_lt in E; lia|].
  rewrite E, Nat2Z.id, H. reflexivity.
Qed.

Lemma slice_window (encoded : list token) (n : Z) (i : nat) :
  (1 <= n)%Z -> (Z.to_nat n - 1 <= i < List.length encoded)%nat ->
  Py.slice encoded (Z.of_nat i - n + 1) (Z.of_nat i)
  = context_window encoded (Z.to_nat n) i.
Proof.
  intros Hn Hi. unfold Py.slice, context_window, Py.clamp.
  destruct (Z.of_nat i - n + 1 <? 0)%Z eqn:E1; [apply Z.ltb_lt in E1; lia|].
  destruct (Z.of_nat i <? 0)%Z eqn:E2; [apply Z.ltb_lt in E2; lia|].
  f_equal; [|f_equal]; lia.
Qed.

(** One pass of the scoring loop at a position whose context the model
    answers and whose observed probability is not negative. *)
Lemma score_position (self : t) (encoded : list token) (i : nat) (sum_log : R) :
  let lm := _language_model self in
  let n := get_n_gram_size lm in
  (1 <= n)%Z -> (Z.to_nat n - 1 <= i < List.length encoded)%nat ->
  answered lm encoded (Z.to_nat n) i ->
  (forall q, observed lm encoded (Z.to_nat n) i = Some q -> 0 <= q) ->
  score self encoded (Z.of_nat i) sum_log
  = Ok (sum_log + log_term (observed lm encoded (Z.to_nat n) i))%R.
Proof.
  intros lm n Hn Hi (tokens & Hm & Hne) Hq. unfold score. fold lm n.
  destruct (nth_error encoded i) as [tok|] eqn:Ht;
    [|apply nth_error_None in Ht; lia].
  rewrite (get_position _ _ Ht). simpl rbind.
  rewrite (slice_window _ Hn Hi), Hm.
  unfold observed in *. rewrite Ht, Hm in *.
  destruct tokens as [|x tokens']; [congruence|].
  set (d := x :: tokens') in *.
  destruct (Py.dict_get token_eqb d tok) as [q|]; simpl log_term.
  - destruct (Qeq_bool q 0) eqn:E0; [f_equal; lra|].
    destruct (Qle_bool q 0) eqn:E1; [|reflexivity].
    apply Qle_bool_iff in E1. apply Qeq_bool_neq in E0.
    specialize (Hq q eq_refl). exfalso. apply E0. lra.
  - f_equal. lra.
Qed.

Lemma sum_logs_positions (self : t) (encoded : list token)
  (positions : list nat) :
  let lm := _language_model self in
  let n := get_n_gram_size lm in
  (1 <= n)%Z ->
  (forall i, In i positions ->
     (Z.to_nat n - 1 <= i < List.length encoded)%nat
     /\ answered lm encoded (Z.to_nat n) i
     /\ forall q, observed lm encoded (Z.to_nat n) i = Some q -> 0 <= q) ->
  forall sum_log,
    sum_logs self encoded (map Z.of_nat positions) sum_log
    = Ok (sum_log
          + fold_right Rplus 0
              (map (fun i => log_term (observed lm encoded (Z.to_nat n) i))
                 positions))%R.
Proof.
  intros lm n Hn. induction positions as [|i positions IH]; intros H s.
  - simpl. f_equal. lra.
  - destruct (H i (or_introl eq_refl)) as (Hi & Ha & Hq).
    simpl. rewrite (@score_position self encoded i s Hn Hi Ha Hq). simpl rbind.
    fold lm n. rewrite IH by (intros j Hj; apply H; now right).
    f_equal. lra.
Qed.

(** Inside the scoring loop only [ValueError]s are raised, as soon as the
    n-gram size is at least 1. *)
Lemma score_raises (self : t) (encoded : list token) (i : nat) (s : R) (e : exn) :
  (i < List.length encoded)%nat ->
  score self encoded (Z.of_nat i) s = Raise e -> is_ValueError e = true.
Proof.
  intros Hi. unfold score.
  destruct (nth_error encoded i) as [tok|] eqn:Ht;
    [|apply nth_error_None in Ht; lia].
  rewrite (get_position _ _ Ht). simpl rbind.
  destruct (generate_next_token _ _) as [[|x d]|];
    try (intros H; injection H as <-; reflexivity).
  destruct (Py.dict_get _ _ _) as [q|]; [|discriminate].
  destruct (Qeq_bool q 0); [discriminate|].
  destruct (Qle_bool q 0); [|discriminate].
  intros H; injection H as <-; reflexivity.
Qed.

Lemma sum_logs_raises (self : t) (encoded : list token) (positions : list nat) :
  (forall i, In i positions -> (i < List.length encoded)%nat) ->
  forall s e,
    sum_logs self encoded (map Z.of_nat positions) s = Raise e ->
    is_ValueError e = true.
Proof.
  induction positions as [|i positions IH]; intros H s e; simpl.
  - discriminate.
  - destruct (score self encoded (Z.of_nat i) s) as [s'|e'] eqn:E; simpl.
    + apply IH. intros j Hj. apply H. now right.
    + intros He. injection He as <-.
      eapply score_raises; [|exact E]. apply H. now left.
Qed.

(** A position with an empty or missing distribution makes the loop raise. *)
Lemma sum_logs_unanswered (self : t) (encoded : list token)
  (indices : list Z) (index : Z) :
  In index indices ->
  (let n := get_n_gram_size (_language_model self) in
   match generate_next_token (_language_model self)
           (Py.slice encoded (index - n + 1) index) with
   | Some [] | None => True
   | Some _ => False
   end) ->
  forall s, exists e, sum_logs self encoded indices s = Raise e.
Proof.
  intros Hin Hm. induction indices as [|j indices IH]; [contradiction|].
  intros s. simpl.
  destruct (score self encoded j s) as [s'|e'] eqn:E; simpl; [|eauto].
  destruct Hin as [->|Hin]; [|now apply IH].
  exfalso. unfold score in E. cbv zeta in Hm.
  destruct (Py.get encoded index); cbn [rbind] in E; [|discriminate].
  destruct (generate_next_token _ _) as [[|x d]|];
    [discriminate|contradiction|discriminate].
Qed.

End PerplexityFacts.

Module Perplexity.
Import QualityChecker PerplexitySpec PerplexityFacts.

Lemma calculate_valid (self : t) (generated_text : string)
  (encoded : list token) :
  str_nonempty generated_text = true ->
  encode (_word_processor self) generated_text = Some encoded ->
  encoded <> [] ->
  _calculate_perplexity self generated_text
  = let n_gram_size := get_n_gram_size (_language_model self) in
    let len := Z.of_nat (List.length encoded) in
    rbind (sum_logs self encoded (Py.range (n_gram_size - 1) len) 0%R)
      (fun sum_log =>
         if Req_dec_T sum_log 0 then Raise SumOfProbabilitiesIsZero
         else
           let d := (- (len - n_gram_size))%Z in
           if (d =? 0)%Z then Raise ZeroDivisionError
           else Ok (exp (sum_log / IZR d))).
Proof.
  intros Ht He Hne. unfold _calculate_perplexity. rewrite Ht, He. simpl negb.
  destruct encoded; [congruence|reflexivity].
Qed.

(** C3, as the program has it. For a non-empty text whose re-encoding is
    longer than the n-gram size [n >= 1], if the model answers the context of
    every position [n - 1 .. L - 1] with a non-empty distribution, no
    observed probability is negative and the sum S of the logarithms is not
    zero, [_calculate_perplexity] returns [exp(-S / (L - n))]. *)
Theorem perplexity_formula (self : t) (generated_text : string)
  (encoded : list token) :
  let lm := _language_model self in
  let n := get_n_gram_size lm in
  let L := List.length encoded in
  str_nonempty generated_text = true ->
  encode (_word_processor self) generated_text = Some encoded ->
  (1 <= n < Z.of_nat L)%Z ->
  (forall i, (Z.to_nat n - 1 <= i < L)%nat ->
     answered lm encoded (Z.to_nat n) i) ->
  (forall i q, observed lm encoded (Z.to_nat n) i = Some q -> 0 <= q) ->
  log_sum lm encoded (Z.to_nat n) <> 0%R ->
  _calculate_perplexity self generated_text
  = Ok (exp (- log_sum lm encoded (Z.to_nat n) / IZR (Z.of_nat L - n))).
Proof.
  intros lm n L Ht He Hn Hans Hpos HS.
  assert (Hne : encoded <> [])
    by (intros ->; simpl in L; unfold L in Hn; simpl in Hn; lia).
  rewrite (@calculate_valid self generated_text encoded Ht He Hne).
  fold lm n L. cbv zeta.
  rewrite range_positions by lia.
  rewrite sum_logs_positions.
  - fold lm n. fold L. simpl rbind.
    change (fold_right Rplus 0%R _) with (log_sum lm encoded (Z.to_nat n)).
    rewrite Rplus_0_l.
    destruct (Req_dec_T (log_sum lm encoded (Z.to_nat n)) 0) as [E|_];
      [contradiction|].
    destruct (- (Z.of_nat L - n) =? 0)%Z eqn:Ed;
      [apply Z.eqb_eq in Ed; lia|].
    f_equal. f_equal. rewrite opp_IZR.
    assert (IZR (Z.of_nat L - n) <> 0%R) by (apply not_0_IZR; lia).
    field. assumption.
  - fold lm n. lia.
  - fold lm n L. intros i Hi. apply in_seq in Hi.
    assert (Hi' : (Z.to_nat n - 1 <= i < L)%nat) by lia.
    split; [exact Hi'|]. split; [now apply Hans|]. apply Hpos.
Qed.

Lemma in_range (a b i : Z) : (a <= i < b)%Z -> In i (Py.range a b).
Proof.
  intros H. unfold Py.range. apply in_map_iff.
  exists (Z.to_nat (i - a)). split; [lia|]. apply in_seq. lia.
Qed.

(** C7. [_calculate_perplexity] raises a [ValueError] when the text is
    empty, when re-encoding it gives nothing, and when the scoring loop ends
    with a log-sum of exactly zero; whenever it does return a value, none of
    the three was the case. *)
Theorem degenerate_perplexity_raises (self : t) (generated_text : string) :
  let n := get_n_gram_size (_language_model self) in
  (generated_text = EmptyString ->
     _calculate_perplexity self generated_text = Raise InappropriateInput)
  /\ (match encode (_word_processor self) generated_text with
      | Some [] | None => True
      | Some _ => False
      end ->
      raises_ValueError (_calculate_perplexity self generated_text))
  /\ (forall encoded,
        encode (_word_processor self) generated_text = Some encoded ->
        sum_logs self encoded
          (Py.range (n - 1) (Z.of_nat (List.length encoded))) 0%R = Ok 0%R ->
        raises_ValueError (_calculate_perplexity self generated_text))
  /\ (forall perplexity,
        _calculate_perplexity self generated_text = Ok perplexity ->
        generated_text <> EmptyString
        /\ exists encoded sum_log,
             encode (_word_processor self) generated_text = Some encoded
             /\ encoded <> []
             /\ sum_logs self encoded
                  (Py.range (n - 1) (Z.of_nat (List.length encoded))) 0%R
                = Ok sum_log
             /\ sum_log <> 0%R).
Proof.
  intros n. unfold raises_ValueError.
  destruct generated_text as [|c s].
  { repeat split; try (intros; eexists; split; reflexivity); discriminate. }
  set (text := String c s).
  split; [discriminate|].
  destruct (encode (_word_processor self) text) as [[|x enc]|] eqn:He.
  1,3: unfold _calculate_perplexity; rewrite He; simpl;
       repeat split; try (intros; eexists; split; reflexivity); discriminate.
  assert (Hne : x :: enc <> []) by discriminate.
  rewrite (@calculate_valid self text (x :: enc) eq_refl He Hne).
  fold n. cbv zeta. split; [contradiction|]. split.
  - intros encoded Hs Hsum. injection Hs as <-. rewrite Hsum. simpl rbind.
    destruct (Req_dec_T 0 0) as [_|Hc]; [|congruence].
    eexists; split; reflexivity.
  - intros perplexity H. split; [discriminate|].
    exists (x :: enc).
    destruct (sum_logs self (x :: enc) _ 0%R) as [sum_log|e];
      [|discriminate].
    exists sum_log. simpl rbind in H.
    destruct (Req_dec_T sum_log 0); [discriminate|]. auto.
Qed.

(** C10. While scoring, a context that the model answers with an empty
    distribution, or with [None], makes [_calculate_perplexity] raise (a
    [ValueError] as soon as the n-gram size is at least 1); during generation
    the same empty distribution only ends the loop. *)
Theorem empty_distribution_fails_scoring (self : t) (generated_text : string)
  (encoded : list token) (index : Z) :
  let lm := _language_model self in
  let n := get_n_gram_size lm in
  str_nonempty generated_text = true ->
  encode (_word_processor self) generated_text = Some encoded ->
  (n - 1 <= index < Z.of_nat (List.length encoded))%Z ->
  match generate_next_token lm (Py.slice encoded (index - n + 1) index) with
  | Some [] | None => True
  | Some _ => False
  end ->
  (exists e,
      _calculate_perplexity self generated_text = Raise e
      /\ ((1 <= n)%Z -> is_ValueError e = true))
  /\ (forall (gen : TopPGenerator.t) (enc : list token) (g : rng),
        generate_next_token (TopPGenerator._model gen) enc = Some [] ->
        TopPGenerator.body gen enc g = (Ok None, g)).
Proof.
  intros lm n Ht He Hi Hm. split.
  - destruct encoded as [|x enc] eqn:Henc.
    { unfold _calculate_perplexity. rewrite Ht, He. simpl.
      eexists; split; reflexivity. }
    rewrite <- Henc in *.
    assert (Hne : encoded <> []) by (rewrite Henc; discriminate).
    rewrite (@calculate_valid self generated_text encoded Ht He Hne).
    fold lm n. cbv zeta.
    destruct (@sum_logs_unanswered self encoded
                (Py.range (n - 1) (Z.of_nat (List.length encoded))) index
                (@in_range _ _ _ Hi) Hm 0%R) as [e Hs].
    exists e. rewrite Hs. split; [reflexivity|].
    intros Hn. rewrite range_positions in Hs by exact Hn.
    eapply sum_logs_raises; [|exact Hs].
    intros i Hin. apply in_seq in Hin. lia.
  - intros gen enc g Hg. unfold TopPGenerator.body. now rewrite Hg.
Qed.

End Perplexity.

(** ** QualityChecker: the ranking *)

Module Ranking.
Import QualityChecker.

Lemma dto_key_lt_false (a b : GenerationResultDTO) :
  key_lt b a = false <-> Spec.key_le a b.
Proof.
  unfold key_lt, Spec.key_le.
  destruct (Req_dec_T (get_perplexity b) (get_perplexity a)) as [E|E].
  - rewrite Z.ltb_ge. split.
    + intros H. right. split; [congruence|exact H].
    + intros [H|[_ H]]; [lra|exact H].
  - destruct (Rlt_dec (get_perplexity b) (get_perplexity a)) as [H|H].
    + split; [discriminate|]. intros [H'|[H' _]]; [lra|congruence].
    + split; [|reflexivity]. intros _. left.
      destruct (Rtotal_order (get_perplexity a) (get_perplexity b))
        as [?|[?|?]]; [assumption|congruence|contradiction].
Qed.

Lemma dto_key_lt_asym (a b : GenerationResultDTO) :
  key_lt a b = true -> key_lt b a = false.
Proof.
  intros H. apply dto_key_lt_false.
  assert (Hn : ~ Spec.key_le b a) by (rewrite <- dto_key_lt_false; congruence).
  unfold Spec.key_le in *.
  destruct (Rtotal_order (get_perplexity a) (get_perplexity b))
    as [?|[E|?]]; [now left| |exfalso; apply Hn; now left].
  right. split; [exact E|].
  destruct (Z_le_gt_dec (get_type a) (get_type b)); [assumption|].
  exfalso. apply Hn. right. split; [congruence|lia].
Qed.

Lemma dto_key_lt_negtrans (a b c : GenerationResultDTO) :
  key_lt a b = false -> key_lt b c = false -> key_lt a c = false.
Proof.
  rewrite !dto_key_lt_false. unfold Spec.key_le.
  intros [H1|[H1 H1']] [H2|[H2 H2']].
  - left. lra.
  - left. lra.
  - left. lra.
  - right. split; [congruence|lia].
Qed.

(** C4. The list [QualityChecker.run] returns holds the collected results
    in ascending order of (perplexity, generator type): of two results the
    earlier one has the smaller key, hence a perplexity that is not
    larger. *)
Theorem run_sorted_by_perplexity (self : t) (seq_len : Z) (prompt : string)
  (g g' : rng) (results : list GenerationResultDTO) :
  run self seq_len prompt g = (Ok results, g') ->
  (exists collected,
      collect self seq_len prompt (_generators self) [] g = (Ok collected, g')
      /\ Permutation results collected)
  /\ forall i j a b, (i < j)%nat ->
       nth_error results i = Some a -> nth_error results j = Some b ->
       Spec.key_le a b /\ (get_perplexity a <= get_perplexity b)%R.
Proof.
  unfold run. destruct (negb _); [discriminate|].
  intros H. apply bind_Ok in H as (collected & g1 & Hc & Hr).
  unfold ret in Hr. injection Hr as <- <-. split.
  - exists collected. split; [exact Hc|apply sorted_perm].
  - intros i j a b Hij Hi Hj.
    pose proof (@sorted_asc _ key_lt dto_key_lt_asym dto_key_lt_negtrans collected)
      as Hs.
    pose proof (StronglySorted_nth Hs Hij Hi Hj) as Hab.
    unfold Spec.asc in Hab. apply dto_key_lt_false in Hab.
    split; [exact Hab|].
    destruct Hab as [H|[H _]]; lra.
Qed.

End Ranking.

(** ** Examiner *)

Module Grading.
Import Examiner ExamSpec.

Lemma actual_answer_expected (items : list ((string * Z) * string))
  (question : string) :
  actual_answer items question
  = match find (fun item => String.eqb (fst (fst item)) question) items with
    | Some item => Ok (snd item)
    | None => Raise StopIteration
    end.
Proof.
  induction items as [|[[que loc] ans] items IH]; simpl; [reflexivity|].
  destruct (String.eqb que question); [reflexivity|exact IH].
Qed.

Lemma known_expected (self : t) (question : string) (loc : Z) (ans : string) :
  In ((question, loc), ans) (_questions_and_answers self) ->
  exists actual, expected self question = Some actual.
Proof.
  intros Hin. unfold expected.
  destruct (find _ _) as [item|] eqn:E; simpl; [eauto|].
  apply (find_none _ _ E) in Hin. simpl in Hin.
  rewrite String.eqb_refl in Hin. discriminate.
Qed.

Lemma count_correct (self : t) (items : list (string * string)) :
  (forall question answer, In (question, answer) items ->
     exists loc ans, In ((question, loc), ans) (_questions_and_answers self)) ->
  forall true_answers,
    count self items true_answers
    = Ok (true_answers + Z.of_nat (correct_count self items))%Z.
Proof.
  unfold correct_count.
  induction items as [|[question answer] items IH]; intros Hk acc.
  - simpl. f_equal. lia.
  - destruct (Hk question answer (or_introl eq_refl)) as (loc & ans & Hin).
    destruct (known_expected self _ _ _ Hin) as [actual Ha].
    simpl. unfold correct at 1. simpl fst. simpl snd. rewrite Ha.
    rewrite actual_answer_expected.
    unfold expected in Ha.
    destruct (find _ _) as [item|]; [|discriminate].
    simpl in Ha. injection Ha as ->. simpl rbind.
    destruct (String.eqb (Py.lower actual) (Py.lower answer));
      rewrite IH by (intros q a H; apply (Hk q a); now right);
      f_equal; simpl List.length; lia.
Qed.

Lemma ratio_bounds (c t : nat) :
  (c <= t)%nat -> (0 < t)%nat ->
  0 <= inject_Z (Z.of_nat c) / inject_Z (Z.of_nat t) <= 1.
Proof.
  intros Hc Ht.
  assert (H0 : 0 < inject_Z (Z.of_nat t))
    by (change 0 with (inject_Z 0); rewrite <- Zlt_Qlt; lia).
  assert (H1 : 0 <= inject_Z (Z.of_nat c))
    by (change 0 with (inject_Z 0); rewrite <- Zle_Qle; lia).
  assert (H2 : inject_Z (Z.of_nat c) <= inject_Z (Z.of_nat t))
    by (rewrite <- Zle_Qle; lia).
  split.
  - apply Qle_shift_div_l; [exact H0|]. lra.
  - apply Qle_shift_div_r; [exact H0|]. lra.
Qed.

(** C8, as the program has it. For a non-empty answer mapping all of whose
    questions are among the stored ones, [assess_exam] returns the number of
    answers that equal the stored expected answer of their question, letter
    case apart, divided by the number of answers, a ratio in [0, 1]; on an
    empty mapping it raises a [ValueError]; [{"q1": "Cat"}] against
    [{"q1": "cat"}] gives 1. *)
Theorem assess_exam_accuracy :
  (forall (self : t) (answers : list (string * string)),
      answers <> [] ->
      (forall question answer, In (question, answer) answers ->
         exists loc ans,
           In ((question, loc), ans) (_questions_and_answers self)) ->
      let accuracy :=
        inject_Z (Z.of_nat (correct_count self answers))
        / inject_Z (Z.of_nat (List.length answers)) in
      assess_exam self answers = Ok accuracy /\ 0 <= accuracy <= 1)
  /\ (forall self : t, assess_exam self [] = Raise InappropriateInput)
  /\ (forall loc : Z,
        exists accuracy,
          assess_exam {| _questions_and_answers := [(("q1", loc), "cat")] |}
            [("q1", "Cat")] = Ok accuracy
          /\ accuracy == 1)%string.
Proof.
  split; [|split].
  - intros self answers Hne Hk accuracy. split.
    + unfold assess_exam. destruct answers as [|x answers']; [congruence|].
      rewrite (count_correct self _ Hk). reflexivity.
    + apply ratio_bounds.
      * apply filter_length_le.
      * destruct answers; [congruence|simpl; lia].
  - reflexivity.
  - intros loc. eexists. split; [reflexivity|]. reflexivity.
Qed.

End Grading.

(** ** GeneratorRuleStudent *)

Module Exam.
Import GeneratorRuleStudent ExamSpec.

Lemma str_app (a b : list ascii) :
  Py.str (a ++ b) = (Py.str a ++ Py.str b)%string.
Proof.
  unfold Py.str. induction a as [|c a IH]; simpl; [reflexivity|].
  now rewrite IH.
Qed.

Lemma chars_app (a b : string) :
  Py.chars (a ++ b) = Py.chars a ++ Py.chars b.
Proof.
  unfold Py.chars. induction a as [|c a IH]; simpl; [reflexivity|].
  now rewrite IH.
Qed.

Lemma str_chars (s : string) : Py.str (Py.chars s) = s.
Proof. apply string_of_list_ascii_of_string. Qed.

Lemma chars_str (l : list ascii) : Py.chars (Py.str l) = l.
Proof. apply list_ascii_of_string_of_list_ascii. Qed.

Lemma get_last {A} (l : list A) (x : A) : Py.get (l ++ [x]) (-1) = Ok x.
Proof.
  unfold Py.get. change (-1 <? 0)%Z with true. cbv iota.
  rewrite length_app. simpl List.length.
  destruct (_ <? 0)%Z eqn:E; [apply Z.ltb_lt in E; lia|].
  replace (Z.to_nat _) with (List.length l + 0)%nat by lia.
  now rewrite nth_error_app2, Nat.add_0_r, Nat.sub_diag by lia.
Qed.

Lemma slice_to_last {A} (l : list A) (x : A) : Py.slice_to (l ++ [x]) (-1) = l.
Proof.
  unfold Py.slice_to, Py.clamp. change (-1 <? 0)%Z with true. cbv iota.
  rewrite length_app. simpl List.length.
  replace (Z.to_nat _) with (List.length l + 0)%nat by lia.
  now rewrite firstn_app_2, app_nil_r.
Qed.

(** [strip_full_stop] does what [fragment_of] says. *)
Lemma strip_full_stop_fragment (answer : string) :
  str_nonempty answer = true -> fragment_of answer (strip_full_stop answer).
Proof.
  intros Hne. unfold strip_full_stop, Py.str_slice_to.
  destruct (Py.chars answer) as [|c0 l0] eqn:Hc.
  { rewrite <- (str_chars answer), Hc in Hne. discriminate. }
  destruct (@exists_last _ (c0 :: l0)) as (body & c & Hl); [discriminate|].
  rewrite Hl in *. rewrite get_last, slice_to_last.
  assert (Ha : answer = (Py.str body ++ String c EmptyString)%string).
  { rewrite <- (str_chars answer), Hc, str_app. reflexivity. }
  assert (Hdot : forall A (x y : A), (if Ascii.eqb c "." then x else y)
                 = match c with "."%char => x | _ => y end).
  { intros A x y. destruct (Ascii.eqb_spec c "."%char) as [->|Hn];
      [reflexivity|].
    destruct c as [[] [] [] [] [] [] [] []]; try reflexivity; congruence. }
  rewrite <- Hdot.
  destruct (Ascii.eqb_spec c "."%char) as [->|Hn].
  - left. exists (Py.str body). now split.
  - right. split; [|reflexivity].
    intros body' E. rewrite Ha in E.
    apply (f_equal Py.chars) in E. rewrite !chars_app, chars_str in E.
    apply app_inj_tail in E as [_ E]. congruence.
Qed.

Lemma dict_get_set (d : list (string * string)) (k k' v : string) :
  Py.dict_get String.eqb (Py.dict_set String.eqb d k v) k'
  = if String.eqb k k' then Some v else Py.dict_get String.eqb d k'.
Proof.
  induction d as [|[k0 v0] d IH]; simpl.
  - reflexivity.
  - destruct (String.eqb_spec k0 k) as [->|Hk]; simpl.
    + destruct (String.eqb k k'); reflexivity.
    + rewrite IH. destruct (String.eqb_spec k0 k') as [->|Hk'];
        [|reflexivity].
      destruct (String.eqb_spec k k'); [congruence|reflexivity].
Qed.

(** The loop of [take_exam] records one answer per task; a later answer for
    the same question replaces an earlier one. *)
Lemma fill_answered (self : t) :
  forall tasks answers g answers' g',
    fill self tasks answers g = (Ok answers', g') ->
    exists log,
      answered self tasks g log g'
      /\ forall question,
           Py.dict_get String.eqb answers' question
           = match last_answer log question with
             | Some answer => Some answer
             | None => Py.dict_get String.eqb answers question
             end.
Proof.
  induction tasks as [|[question position] tasks IH];
    intros answers g answers' g' H.
  - simpl in H. unfold ret in H. injection H as <- <-.
    exists []. split; [constructor|reflexivity].
  - simpl in H. apply bind_Ok in H as (generated & g1 & Hgen & H).
    destruct (str_nonempty generated) eqn:Hne; simpl negb in H;
      [|discriminate].
    apply IH in H as (log & Hlog & Hget).
    exists ((question,
             (strip_full_stop generated
              ++ Py.str_slice_from question position)%string) :: log).
    split.
    + apply answered_task with (g1 := g1); [|exact Hlog].
      exists generated, (strip_full_stop generated).
      split; [exact Hgen|]. split; [exact Hne|].
      split; [now apply strip_full_stop_fragment|reflexivity].
    + intros q. rewrite Hget. simpl last_answer.
      destruct (last_answer log q); [reflexivity|].
      rewrite dict_get_set. destruct (String.eqb question q); reflexivity.
Qed.

End Exam.

Module ExamRun.
Import GeneratorRuleStudent ExamSpec Exam.

Lemma fill_total (self : t) :
  (forall prompt g, exists text g',
      _generator self 1%Z prompt g = (Ok text, g')
      /\ str_nonempty text = true) ->
  forall tasks answers g, exists answers' g',
    fill self tasks answers g = (Ok answers', g').
Proof.
  intros Hgen. induction tasks as [|[question position] tasks IH];
    intros answers g.
  - do 2 eexists. reflexivity.
  - destruct (Hgen (Py.str_slice_to question position) g)
      as (text & g1 & Hrun & Hne).
    simpl. unfold bind. rewrite Hrun, Hne. simpl negb. cbv iota.
    apply IH.
Qed.

(** C2, as the program has it. [take_exam] takes the tasks in turn; for
    every task the generator produces one token after the prompt
    [question[:position]]; a generated answer that ends with a full stop
    loses it and gains a trailing space, any other answer (one ending in [!]
    or [?] too) is kept as it is; the answer recorded for the question is
    that fragment followed by [question[position:]].  The answers returned
    hold, for every question, what its last task recorded. *)
Theorem take_exam_splices :
  (forall (self : t) (tasks : list (string * Z)) (g g' : rng)
          (answers : list (string * string)),
      take_exam self tasks g = (Ok answers, g') ->
      exists log,
        answered self tasks g log g'
        /\ forall question,
             Py.dict_get String.eqb answers question
             = last_answer log question)
  /\ (forall (self : t) (tasks : list (string * Z)) (g : rng),
        tasks <> [] ->
        (forall prompt g0, exists text g1,
            _generator self 1%Z prompt g0 = (Ok text, g1)
            /\ str_nonempty text = true) ->
        exists answers g', take_exam self tasks g = (Ok answers, g'))
  /\ (forall body : string,
        strip_full_stop (body ++ ".") = (body ++ " ")%string
        /\ strip_full_stop (body ++ "!") = (body ++ "!")%string
        /\ strip_full_stop (body ++ "?") = (body ++ "?")%string)%string.
Proof.
  split; [|split].
  - intros self tasks g g' answers H.
    unfold take_exam in H. destruct tasks as [|task tasks'] eqn:Ht;
      [discriminate|]. rewrite <- Ht in *.
    apply fill_answered in H as (log & Hlog & Hget).
    exists log. split; [exact Hlog|].
    intros question. rewrite Hget.
    destruct (last_answer log question); reflexivity.
  - intros self tasks g Hne Hgen. unfold take_exam.
    destruct tasks; [congruence|]. now apply fill_total.
  - intros body.
    assert (H : forall c, strip_full_stop (body ++ String c EmptyString)
                = match c with
                  | "."%char => (body ++ " ")%string
                  | _ => (body ++ String c EmptyString)%string
                  end).
    { intros c. unfold strip_full_stop, Py.str_slice_to.
      rewrite chars_app. change (Py.chars (String c EmptyString)) with [c].
      rewrite get_last, slice_to_last, str_chars. reflexivity. }
    repeat split; apply H.
Qed.

End ExamRun.

(** ** The theorems at concrete inputs *)

Module Instances.
Import Examples.


(** One token is generated after the prompt [ab], then the model has
    nothing more to offer. *)
Lemma empty_distribution_stops_generation_witness :
  let self := top_p_fading in
  let g1 := {| stream := stream g0; cursor := 1 |} in
  TopPGenerator.loop self 3 [97; 98]%Z g0 = (Ok [97; 98; 99]%Z, g1)
  /\ (forall decoded,
        decode (TopPGenerator._word_processor self) [97; 98; 99]%Z
        = Some decoded ->
        str_nonempty decoded = true ->
        TopPGenerator.run self 3 "ab" g0 = (Ok decoded, g1))
  /\ (Trace.decode_fails self [97; 98; 99]%Z ->
        TopPGenerator.run self 3 "ab" g0 = (Raise CouldntDecodeText, g1)
        /\ is_ValueError CouldntDecodeText = true)
  /\ (List.length [97; 98; 99]%Z + 2 = List.length [97; 98]%Z + 3)%nat.
Proof.
  intros self g1.
  refine (@TopPRun.empty_distribution_stops_generation self 3 "ab" g0
            [97; 98]%Z 1 [97; 98; 99]%Z g1 eq_refl eq_refl eq_refl _ _ eq_refl).
  - discriminate.
  - apply (@Trace.reaches_pass self 2 [97; 98]%Z g0 [97; 98; 99]%Z g1).
    + reflexivity.
    + apply Trace.reaches_here.
Defined.

(** C5 as stated fails: the model answers the second pass with an empty
    distribution, the loop stops without an exception, and [run] does not
    return the decoded tokens: their decoding gives nothing and it raises. *)
Lemma empty_distribution_then_decode_failure :
  let self := top_p_fading_mute in
  let g1 := {| stream := stream g0; cursor := 1 |} in
  str_nonempty "ab" = true
  /\ encode (TopPGenerator._word_processor self) "ab" = Some [97; 98]%Z
  /\ Trace.reaches self (Z.to_nat 3, [97; 98]%Z, g0) (2%nat, [97; 98; 99]%Z, g1)
  /\ generate_next_token (TopPGenerator._model self) [97; 98; 99]%Z = Some []
  /\ TopPGenerator.loop self 3 [97; 98]%Z g0 = (Ok [97; 98; 99]%Z, g1)
  /\ TopPGenerator.run self 3 "ab" g0 = (Raise CouldntDecodeText, g1)
  /\ ~ exists decoded g',
         TopPGenerator.run self 3 "ab" g0 = (Ok decoded, g').
Proof.
  intros self g1.
  assert (Hrun : TopPGenerator.run self 3 "ab" g0
                 = (Raise CouldntDecodeText, g1)) by reflexivity.
  split; [reflexivity|]. split; [reflexivity|]. split.
  { apply (@Trace.reaches_pass self 2 [97; 98]%Z g0 [97; 98; 99]%Z g1).
    - reflexivity.
    - apply Trace.reaches_here. }
  split; [reflexivity|]. split; [reflexivity|]. split; [exact Hrun|].
  intros (decoded & g' & H). rewrite Hrun in H. discriminate.
Qed.

(** [{A: 0.1, B: 0.2}] against a threshold of 0.5. *)
Lemma low_mass_stops_generation_witness :
  let self := top_p low (1 # 2) in
  TopPGenerator.body self [97; 98]%Z g0 = (Ok None, g0)
  /\ TopPGenerator.loop self 3 [97; 98]%Z g0 = (Ok [97; 98]%Z, g0)
  /\ (forall decoded,
        decode (TopPGenerator._word_processor self) [97; 98]%Z
        = Some decoded ->
        str_nonempty decoded = true ->
        TopPGenerator.run self 3 "ab" g0 = (Ok decoded, g0))
  /\ (Trace.decode_fails self [97; 98]%Z ->
        TopPGenerator.run self 3 "ab" g0 = (Raise CouldntDecodeText, g0)
        /\ is_ValueError CouldntDecodeText = true)
  /\ (List.length [97; 98]%Z + 3 = List.length [97; 98]%Z + 3)%nat.
Proof.
  intros self.
  refine (@TopPRun.low_mass_stops_generation self 3 "ab" g0
            [97; 98]%Z 2 [97; 98]%Z g0 low
            eq_refl eq_refl eq_refl _ _ eq_refl _ _ _).
  - discriminate.
  - apply Trace.reaches_here.
  - discriminate.
  - unfold low.
    constructor; [split; [apply Qle_bool_iff|]; vm_compute; reflexivity|].
    constructor; [split; [apply Qle_bool_iff|]; vm_compute; reflexivity|].
    constructor.
  - vm_compute. reflexivity.
Defined.

(** C9 as stated fails, in two ways.  With a [decode] that gives nothing,
    the distribution [{A: 0.1, B: 0.2}] stops the loop under a threshold of
    0.5 and [run] raises instead of returning.  And the doubles 0.35 and
    0.15 add up to less than 0.5, yet their sum in double precision is 0.5:
    the threshold is reached and a token is appended. *)
Lemma low_mass_counterexample :
  (let self := top_p_low_mute in
   str_nonempty "ab" = true
   /\ encode (TopPGenerator._word_processor self) "ab" = Some [97; 98]%Z
   /\ generate_next_token (TopPGenerator._model self) [97; 98]%Z = Some low
   /\ low <> []
   /\ Spec.mass low < TopPGenerator._p_value self
   /\ Spec.accumulated (TopPGenerator.sorted_tokens low)
      < TopPGenerator._p_value self
   /\ TopPGenerator.loop self 3 [97; 98]%Z g0 = (Ok [97; 98]%Z, g0)
   /\ TopPGenerator.run self 3 "ab" g0 = (Raise CouldntDecodeText, g0)
   /\ ~ exists decoded g',
          TopPGenerator.run self 3 "ab" g0 = (Ok decoded, g'))
  /\
  (let self := top_p rounding (1 # 2) in
   generate_next_token (TopPGenerator._model self) [97; 98]%Z = Some rounding
   /\ Forall (fun pair => 0 <= snd pair /\ Float64.is_double (snd pair))
        rounding
   /\ Spec.mass rounding < TopPGenerator._p_value self
   /\ Spec.accumulated (TopPGenerator.sorted_tokens rounding) == 1 # 2
   /\ TopPGenerator.body self [97; 98]%Z g0
      = (Ok (Some [97; 98; A]%Z), {| stream := stream g0; cursor := 1 |})).
Proof.
  split.
  - intros self.
    assert (Hrun : TopPGenerator.run self 3 "ab" g0
                   = (Raise CouldntDecodeText, g0))
      by (vm_compute; reflexivity).
    split; [reflexivity|]. split; [reflexivity|]. split; [reflexivity|].
    split; [discriminate|]. split; [vm_compute; reflexivity|].
    split; [vm_compute; reflexivity|]. split; [vm_compute; reflexivity|].
    split; [exact Hrun|].
    intros (decoded & g' & H). rewrite Hrun in H. discriminate.
  - intros self.
    split; [reflexivity|]. split.
    { unfold rounding.
      constructor; [split; [apply Qle_bool_iff|]; vm_compute; reflexivity|].
      constructor; [split; [apply Qle_bool_iff|]; vm_compute; reflexivity|].
      constructor. }
    split; [vm_compute; reflexivity|]. split; [vm_compute; reflexivity|].
    vm_compute. reflexivity.
Qed.

(** C6 as stated fails: with a [decode] that gives nothing, [run] generates
    the token it is asked for and then raises, although the prompt is not
    empty, a positive number of tokens is asked for, the prompt encodes to a
    non-empty sequence and the model never answers with [None]. *)
Lemma run_raises_on_decode_failure :
  let self := top_p_mute in
  ~ (Trace.raises (TopPGenerator.run self 1 "ab" g0) <->
       "ab"%string = EmptyString
       \/ (1 <= 0)%Z
       \/ Trace.encode_fails self "ab"
       \/ (exists encoded0 k encoded g1,
             encode (TopPGenerator._word_processor self) "ab" = Some encoded0
             /\ Trace.reaches self (Z.to_nat 1, encoded0, g0) (S k, encoded, g1)
             /\ generate_next_token (TopPGenerator._model self) encoded = None)).
Proof.
  intros self [H _].
  assert (Hr : Trace.raises (TopPGenerator.run self 1 "ab" g0)).
  { exists CouldntDecodeText, {| stream := stream g0; cursor := 1 |}.
    split; reflexivity. }
  destruct (H Hr) as [E|[E|[E|(e0 & k & enc & g1 & _ & _ & E)]]].
  - discriminate.
  - lia.
  - exact E.
  - discriminate.
Qed.

Lemma run_raises_iff_witness :
  Trace.raises (TopPGenerator.run top_p_mute 1 "ab" g0).
Proof.
  apply (proj1 (TopPRun.run_raises_iff top_p_mute 1 "ab" g0)).
  do 4 right.
  exists [97; 98]%Z, [97; 98; 99]%Z, {| stream := stream g0; cursor := 1 |}.
  split; [reflexivity|]. split; [reflexivity|exact I].
Defined.

End Instances.

Module ScoringInstances.
Import Examples.

Lemma ln_half : (ln (Q2R (1 # 2)) < 0)%R.
Proof.
  replace (Q2R (1 # 2)) with (/ 2)%R by (unfold Q2R; simpl; lra).
  rewrite <- ln_1. apply ln_increasing; lra.
Qed.

Lemma ln_one : ln (Q2R 1) = 0%R.
Proof.
  replace (Q2R 1) with 1%R by (unfold Q2R; simpl; lra).
  apply ln_1.
Qed.

(** The text [ab] under a unigram model that gives [b] probability 1/2 and
    does not know [a]: S = ln(1/2), L = 2, n = 1. *)
Lemma perplexity_formula_witness :
  let self := checker [] [(98%Z, 1 # 2)] in
  QualityChecker._calculate_perplexity self "ab"
  = Ok (exp (- PerplexitySpec.log_sum (QualityChecker._language_model self)
                 [97; 98]%Z 1
             / IZR (2 - 1))).
Proof.
  intros self.
  refine (@Perplexity.perplexity_formula self "ab" [97; 98]%Z
            eq_refl eq_refl _ _ _ _).
  - split; [discriminate|reflexivity].
  - intros i _. exists [(98%Z, 1 # 2)]. split; [reflexivity|discriminate].
  - intros [|[|[|i]]] q H; try discriminate H.
    injection H as <-. discriminate.
  - change (0 + (ln (Q2R (1 # 2)) + 0) <> 0)%R.
    pose proof ln_half. lra.
Defined.

(** C3 as stated fails: the text [aa] is not empty, its re-encoding is
    longer than the n-gram size 1 and the model answers every context, with
    probability 1 for [a]; S is zero, the formula gives [exp(0)], and the
    function raises instead. *)
Lemma perplexity_formula_fails_at_zero_sum :
  let self := checker [] [(97%Z, 1)] in
  let lm := QualityChecker._language_model self in
  str_nonempty "aa" = true
  /\ encode (QualityChecker._word_processor self) "aa" = Some [97; 97]%Z
  /\ (get_n_gram_size lm < Z.of_nat (List.length [97; 97]%Z))%Z
  /\ PerplexitySpec.log_sum lm [97; 97]%Z 1 = 0%R
  /\ QualityChecker._calculate_perplexity self "aa"
     = Raise SumOfProbabilitiesIsZero
  /\ QualityChecker._calculate_perplexity self "aa"
     <> Ok (exp (- PerplexitySpec.log_sum lm [97; 97]%Z 1 / IZR (2 - 1))).
Proof.
  intros self lm.
  assert (H : QualityChecker._calculate_perplexity self "aa"
              = Raise SumOfProbabilitiesIsZero).
  { change (QualityChecker._calculate_perplexity self "aa")
      with (if Req_dec_T (0 + ln (Q2R 1) + ln (Q2R 1)) 0
            then Raise SumOfProbabilitiesIsZero
            else Ok (exp ((0 + ln (Q2R 1) + ln (Q2R 1)) / IZR (- (2 - 1))))).
    destruct (Req_dec_T _ _) as [_|E]; [reflexivity|].
    exfalso. apply E. rewrite ln_one. lra. }
  repeat split; try reflexivity.
  - change (ln (Q2R 1) + (ln (Q2R 1) + 0) = 0)%R. rewrite ln_one. lra.
  - exact H.
  - rewrite H. discriminate.
Qed.

(** Likewise when the model answers with an empty distribution. *)
Lemma perplexity_formula_needs_answers :
  let self := checker [] [] in
  let lm := QualityChecker._language_model self in
  str_nonempty "ab" = true
  /\ encode (QualityChecker._word_processor self) "ab" = Some [97; 98]%Z
  /\ (get_n_gram_size lm < Z.of_nat (List.length [97; 98]%Z))%Z
  /\ QualityChecker._calculate_perplexity self "ab"
     = Raise CouldntGenerateTokens.
Proof.
  intros self lm. repeat split; reflexivity.
Qed.

(** A model that gives every observed token probability 1 has a log-sum of
    exactly zero. *)
Lemma degenerate_perplexity_raises_witness :
  raises_ValueError
    (QualityChecker._calculate_perplexity (checker [] [(97%Z, 1)]) "aa").
Proof.
  refine (proj1 (proj2 (proj2
            (Perplexity.degenerate_perplexity_raises
               (checker [] [(97%Z, 1)]) "aa"))) [97; 97]%Z eq_refl _).
  change (Ok (0 + ln (Q2R 1) + ln (Q2R 1))%R = Ok 0%R).
  rewrite ln_one. f_equal. lra.
Defined.

Lemma empty_distribution_fails_scoring_witness :
  (exists e,
      QualityChecker._calculate_perplexity (checker [] []) "ab" = Raise e
      /\ ((1 <= 1)%Z -> is_ValueError e = true))
  /\ (forall (gen : TopPGenerator.t) (enc : list token) (g : rng),
        generate_next_token (TopPGenerator._model gen) enc = Some [] ->
        TopPGenerator.body gen enc g = (Ok None, g)).
Proof.
  refine (@Perplexity.empty_distribution_fails_scoring (checker [] []) "ab"
            [97; 98]%Z 0%Z eq_refl eq_refl _ I).
  split; [discriminate|reflexivity].
Defined.

Lemma tied_calculate :
  QualityChecker._calculate_perplexity tied "ab" = Ok tied_perplexity.
Proof.
  change (QualityChecker._calculate_perplexity tied "ab")
    with (if Req_dec_T (0 + ln (Q2R (1 # 2))) 0
          then Raise SumOfProbabilitiesIsZero
          else Ok tied_perplexity).
  destruct (Req_dec_T _ _) as [E|_]; [|reflexivity].
  pose proof ln_half. lra.
Qed.

Lemma tied_run :
  QualityChecker.run tied 1 "a" g0
  = (Ok [tied_result 0; tied_result 1], g0).
Proof.
  assert (Hp : tied_perplexity <> 0%R)
    by (unfold tied_perplexity;
        pose proof (exp_pos ((0 + ln (Q2R (1 # 2))) / IZR (- (2 - 1))));
        lra).
  assert (Hc : QualityChecker.collect tied 1 "a"
                 (QualityChecker._generators tied) [] g0
               = (Ok [tied_result 1; tied_result 0], g0)).
  { unfold tied at 2, checker. simpl QualityChecker._generators.
    unfold QualityChecker.collect, constant_generator, bind, ret, lift.
    simpl negb. cbv iota. rewrite tied_calculate.
    destruct (Req_dec_T tied_perplexity 0); [contradiction|reflexivity]. }
  change (QualityChecker.run tied 1 "a" g0)
    with (bind (QualityChecker.collect tied 1 "a"
                  (QualityChecker._generators tied) [])
               (fun results =>
                  ret (Py.sorted QualityChecker.key_lt false results)) g0).
  unfold bind. rewrite Hc. unfold ret. f_equal. f_equal.
  unfold Py.sorted. simpl fold_right.
  unfold QualityChecker.key_lt. simpl get_perplexity.
  destruct (Req_dec_T tied_perplexity tied_perplexity); [|congruence].
  reflexivity.
Qed.

Lemma run_sorted_by_perplexity_witness :
  Spec.key_le (tied_result 0) (tied_result 1)
  /\ (get_perplexity (tied_result 0) <= get_perplexity (tied_result 1))%R.
Proof.
  refine (proj2 (@Ranking.run_sorted_by_perplexity tied 1 "a" g0 g0
                   [tied_result 0; tied_result 1] tied_run)
            0%nat 1%nat (tied_result 0) (tied_result 1) _ eq_refl eq_refl).
  constructor.
Defined.

End ScoringInstances.

Module ExamInstances.
Import Examples.

(** The example of the specification: [{"q1": "Cat"}] against
    [{"q1": "cat"}]. *)
Lemma assess_exam_accuracy_witness :
  let accuracy :=
    inject_Z (Z.of_nat (ExamSpec.correct_count examiner [("q1", "Cat")]%string))
    / inject_Z (Z.of_nat (List.length [("q1", "Cat")]%string)) in
  Examiner.assess_exam examiner [("q1", "Cat")]%string = Ok accuracy
  /\ 0 <= accuracy <= 1.
Proof.
  refine (proj1 Grading.assess_exam_accuracy examiner [("q1", "Cat")]%string
            _ _).
  - discriminate.
  - intros question answer [H|[]]. injection H as <- <-.
    exists 0%Z, "cat"%string. left. reflexivity.
Defined.

(** C8 as stated fails: a non-empty answer mapping with a question that is
    not among the stored ones gets no ratio, and what is raised is not a
    [ValueError]. *)
Lemma assess_exam_unknown_question :
  let answers := [("q2", "dog")]%string in
  answers <> []
  /\ Examiner.assess_exam examiner answers = Raise StopIteration
  /\ (forall accuracy, Examiner.assess_exam examiner answers <> Ok accuracy)
  /\ is_ValueError StopIteration = false.
Proof.
  intros answers. repeat split; try discriminate.
Qed.

(** The example of the specification: the generator answers [the.] for the
    mask at position 19. *)
Lemma take_exam_splices_witness :
  let question := "The cat sat on the ?.mat"%string in
  let self := student "the." in
  let answers := [(question, "the ?.mat"%string)] in
  exists log,
    ExamSpec.answered self [(question, 19%Z)] g0 log g0
    /\ forall q,
         Py.dict_get String.eqb answers q = ExamSpec.last_answer log q.
Proof.
  intros question self answers.
  exact (proj1 ExamRun.take_exam_splices self [(question, 19%Z)] g0 g0
           answers eq_refl).
Defined.

(** Two tasks for one question: the answer of the second replaces that of
    the first. *)
Example take_exam_last_task_wins :
  GeneratorRuleStudent.take_exam (student "x.")
    [("a b"%string, 1%Z); ("a b"%string, 2%Z)] g0
  = (Ok [("a b", "x b")]%string, g0)
  /\ ExamSpec.last_answer [("a b", "x  b"); ("a b", "x b")]%string "a b"
     = Some "x b"%string.
Proof. split; reflexivity. Qed.

(** C2 as stated fails: an answer that ends with an exclamation mark keeps
    it, where the claim has it replaced by a space. *)
Lemma take_exam_keeps_exclamation_mark :
  let question := "The cat sat on the ?.mat"%string in
  GeneratorRuleStudent.take_exam (student "the!") [(question, 19%Z)] g0
  = (Ok [(question, "the!?.mat"%string)], g0)
  /\ (ExamSpec.strip_terminal "the!" ++ Py.str_slice_from question 19)%string
     = "the ?.mat"%string
  /\ "the!?.mat"%string <> "the ?.mat"%string.
Proof.
  intros question. repeat split. discriminate.
Qed.

End ExamInstances.

(** ** The primitives on small inputs *)

Module Sanity.
Import Examples.

Example slice_to_negative : Py.str_slice_to "abc" (-1) = "ab"%string.
Proof. reflexivity. Qed.

Example slice_from_past_the_end : Py.str_slice_from "abc" 7 = EmptyString.
Proof. reflexivity. Qed.

Example slice_1_3 : Py.slice [10; 11; 12; 13]%Z 1 3 = [11; 12]%Z.
Proof. reflexivity. Qed.

Example get_negative : Py.get [10; 11; 12]%Z (-1) = Ok 12%Z.
Proof. reflexivity. Qed.

Example get_out_of_range : Py.get [10; 11; 12]%Z 3 = Raise IndexError.
Proof. reflexivity. Qed.

Example range_2_5 : Py.range 2 5 = [2; 3; 4]%Z.
Proof. reflexivity. Qed.

Example lower_Cat : Py.lower "Cat" = "cat"%string.
Proof. reflexivity. Qed.

Example dict_set_keeps_place :
  Py.dict_set String.eqb [("a", "1"); ("b", "2")]%string "a"%string "3"%string
  = [("a", "3"); ("b", "2")]%string.
Proof. reflexivity. Qed.

(** Equal probabilities: the larger token comes first. *)
Example sorted_tokens_tie :
  TopPGenerator.sorted_tokens [(1%Z, 1 # 4); (3%Z, 1 # 2); (2%Z, 1 # 4)]
  = [(3%Z, 1 # 2); (2%Z, 1 # 4); (1%Z, 1 # 4)].
Proof. reflexivity. Qed.

Example scan_abc :
  TopPGenerator.scan p07 (TopPGenerator.sorted_tokens abc) 0 0
  = Some 1%nat.
Proof. reflexivity. Qed.

Example scan_abc_all :
  TopPGenerator.scan 1 (TopPGenerator.sorted_tokens abc) 0 0 = Some 2%nat.
Proof. reflexivity. Qed.

(** [Float64.fadd] and [Float64.double] against the binary64 numbers of the
    proof assistant: single sums, and the running sums of the examples. *)
Example fadd_is_binary64_addition :
  forallb
    (fun ab =>
       match Float64.value (PrimFloat.add (Float64.literal (fst ab))
                                          (Float64.literal (snd ab))) with
       | Some v => Qeq_bool v (Float64.fadd (Float64.double (fst ab))
                                            (Float64.double (snd ab)))
       | None => false
       end)
    [(1 # 10, 2 # 10); (25 # 100, 1 # 10); (35 # 100, 15 # 100);
     (7 # 10, 2 # 10); (1 # 3, 1 # 3); (1 # 3, - 3 # 10); (- 1 # 7, 1 # 9);
     (123456789 # 1, 1 # 1000000000); (5 # 10, 3 # 10); (0, 3 # 10);
     (1 # 1000000007, 999999 # 1000003); (9007199254740991 # 1, 1 # 2)]
  = true.
Proof. vm_compute. reflexivity. Qed.

Example accumulated_is_binary64_sum :
  forallb
    (fun l =>
       match Float64.value
               (fold_left PrimFloat.add
                  (map (fun pair => Float64.literal (snd pair)) l)
                  (Float64.literal 0)) with
       | Some v =>
           Qeq_bool v
             (Spec.accumulated
                (map (fun pair => (fst pair, Float64.double (snd pair))) l))
       | None => false
       end)
    [[(1%Z, 25 # 100); (3%Z, 1 # 10); (2%Z, 1 # 10); (5%Z, 5 # 100);
      (4%Z, 5 # 100)];
     [(1%Z, 7 # 10); (2%Z, 2 # 10); (3%Z, 1 # 10)];
     [(1%Z, 35 # 100); (2%Z, 15 # 100)];
     [(1%Z, 5 # 10); (2%Z, 3 # 10); (3%Z, 2 # 10)];
     [(1%Z, 1 # 10); (2%Z, 1 # 10); (3%Z, 1 # 10); (4%Z, 1 # 10);
      (5%Z, 1 # 10); (6%Z, 1 # 10); (7%Z, 1 # 10); (8%Z, 1 # 10);
      (9%Z, 1 # 10); (10%Z, 1 # 10)]]
  = true.
Proof. vm_compute. reflexivity. Qed.

(** The running sums 0.25, 0.35, 0.44999999999999996, 0.49999999999999994,
    0.5499999999999999 reach 0.5 at the fifth pair only, although the first
    four doubles add up to more than 0.5. *)
Example scan_five :
  TopPGenerator.scan (1 # 2) (TopPGenerator.sorted_tokens five) 0 0
  = Some 4%nat
  /\ 1 # 2 <= Spec.mass (firstn 4 (TopPGenerator.sorted_tokens five)).
Proof. split; [vm_compute; reflexivity|apply Qle_bool_iff; vm_compute; reflexivity]. Qed.

(** 0.7 + 0.2 + 0.1 is 0.9999999999999999: a threshold of 1.0 is not
    reached and no token is chosen. *)
Example scan_whole :
  TopPGenerator.scan 1 (TopPGenerator.sorted_tokens whole) 0 0 = None
  /\ TopPGenerator.body (top_p whole 1) [97%Z] g0 = (Ok None, g0).
Proof. split; vm_compute; reflexivity. Qed.

(** 0.35 + 0.15 is 0.5: both pairs are candidates. *)
Example scan_rounding :
  TopPGenerator.scan (1 # 2) (TopPGenerator.sorted_tokens rounding) 0 0
  = Some 1%nat.
Proof. vm_compute. reflexivity. Qed.

(** With a second random number of 1 the run [ab] continues with B. *)
Example run_abc :
  TopPGenerator.run (top_p abc p07) 2 "ab"
    {| stream := fun i => i; cursor := 0 |}
  = (Ok "abAB"%string, {| stream := fun i => i; cursor := 2 |}).
Proof. reflexivity. Qed.

Example take_exam_full_stop :
  GeneratorRuleStudent.take_exam (student "the.")
    [("The cat sat on the ?.mat"%string, 19%Z)] g0
  = (Ok [("The cat sat on the ?.mat", "the ?.mat")]%string, g0).
Proof. reflexivity. Qed.

End Sanity.

(** ** TopPGenerator: what a run is made of *)

Module TopPMore.
Import TopPGenerator TopPFacts TopPStep Trace.

Lemma in_firstn {A} (n : nat) (l : list A) (x : A) :
  In x (firstn n l) -> In x l.
Proof.
  intros H. rewrite <- (firstn_skipn n l). apply in_or_app. now left.
Qed.

(** A pass that appends a token took it from the distribution the model gave
    for the tokens so far, and drew one random number. *)
Lemma body_appends (self : t) (encoded encoded' : list token) (g g' : rng) :
  body self encoded g = (Ok (Some encoded'), g') ->
  exists tokens pair,
    generate_next_token (_model self) encoded = Some tokens
    /\ In pair tokens
    /\ encoded' = encoded ++ [fst pair]
    /\ g' = advance g.
Proof.
  unfold body.
  destruct (generate_next_token (_model self) encoded) as [tokens|] eqn:Hm;
    [|discriminate].
  destruct tokens as [|x tokens'] eqn:Ht; [discriminate|]. rewrite <- Ht.
  destruct (scan _ _ 0%nat 0) as [index|]; [|discriminate].
  intros H. apply bind_Ok in H as (pair & g1 & Hc & Hr).
  apply choice_Ok in Hc as [Hn ->].
  unfold ret in Hr. injection Hr as <- <-.
  exists tokens, pair. repeat split; auto.
  apply (Permutation_in _ (sorted_perm key_lt true tokens)).
  eapply in_firstn. eapply nth_error_In. exact Hn.
Qed.

Lemma body_stops (self : t) (encoded : list token) (g g' : rng) :
  body self encoded g = (Ok None, g') -> g' = g.
Proof.
  unfold body.
  destruct (generate_next_token (_model self) encoded) as [[|x tokens]|];
    try discriminate.
  - unfold ret. congruence.
  - destruct (scan _ _ 0%nat 0) as [index|].
    + intros H. apply bind_Ok in H as (pair & g1 & _ & Hr). discriminate.
    + unfold ret. congruence.
Qed.

Lemma loop_appends (self : t) (seq_len : nat) :
  forall encoded g encoded' g',
    loop self seq_len encoded g = (Ok encoded', g') ->
    exists added,
      encoded' = encoded ++ added
      /\ (List.length added <= seq_len)%nat
      /\ stream g' = stream g
      /\ cursor g' = (cursor g + List.length added)%nat
      /\ forall i new,
           nth_error added i = Some new ->
           exists tokens,
             generate_next_token (_model self) (encoded ++ firstn i added)
             = Some tokens
             /\ In new (map fst tokens).
Proof.
  induction seq_len as [|n IH]; intros encoded g encoded' g' H.
  - simpl in H. unfold ret in H. injection H as <- <-.
    exists []. rewrite app_nil_r.
    split; [reflexivity|]. split; [simpl; lia|]. split; [reflexivity|].
    split; [simpl; lia|].
    intros [|i] new; discriminate.
  - simpl in H. apply bind_Ok in H as (r & g1 & Hb & H).
    destruct r as [enc1|].
    + apply body_appends in Hb as (tokens & pair & Hm & Hin & -> & ->).
      apply IH in H as (added & -> & Hlen & Hs & Hc & Hprov).
      exists (fst pair :: added). rewrite <- app_assoc.
      split; [reflexivity|]. split; [simpl; lia|]. split; [exact Hs|].
      split; [simpl in *; lia|].
      intros [|i] new Hn; simpl in Hn.
      * injection Hn as <-. simpl. rewrite app_nil_r.
        exists tokens. split; [exact Hm|]. now apply in_map.
      * destruct (Hprov i new Hn) as (tokens' & Hm' & Hin').
        exists tokens'. rewrite <- app_assoc in Hm'. simpl in *. auto.
    + apply body_stops in Hb as ->. unfold ret in H. injection H as <- <-.
      exists []. rewrite app_nil_r.
      split; [reflexivity|]. split; [simpl; lia|]. split; [reflexivity|].
      split; [simpl; lia|].
      intros [|i] new; discriminate.
Qed.

(** X1. The text [TopPGenerator.run] returns decodes the encoded prompt
    followed by at most [seq_len] new tokens; each new token is a key of the
    distribution the model gave for the tokens before it; one random number
    is drawn per new token and none otherwise. *)
Theorem run_extends_prompt (self : t) (seq_len : Z) (prompt decoded : string)
  (g g' : rng) :
  run self seq_len prompt g = (Ok decoded, g') ->
  exists encoded added,
    encode (_word_processor self) prompt = Some encoded
    /\ decode (_word_processor self) (encoded ++ added) = Some decoded
    /\ (Z.of_nat (List.length added) <= seq_len)%Z
    /\ stream g' = stream g
    /\ cursor g' = (cursor g + List.length added)%nat
    /\ forall i new,
         nth_error added i = Some new ->
         exists tokens,
           generate_next_token (_model self) (encoded ++ firstn i added)
           = Some tokens
           /\ In new (map fst tokens).
Proof.
  unfold run. destruct (negb _) eqn:Hv; [discriminate|].
  destruct (encode (_word_processor self) prompt) as [[|x enc]|];
    try discriminate.
  intros H. apply bind_Ok in H as (encoded' & g1 & Hl & Hf).
  apply loop_appends in Hl as (added & -> & Hlen & Hs & Hc & Hprov).
  unfold finish in Hf.
  destruct (decode _ _) as [d|] eqn:Hd; [|discriminate].
  destruct (str_nonempty d); [|discriminate].
  unfold ret in Hf. injection Hf as <- <-.
  exists (x :: enc), added. repeat split; auto. lia.
Qed.

(** X2. If the model answers every context with a distribution whose
    probabilities, added up in double precision in sorted order, reach
    [p_value], the loop never stops early: it appends exactly the number of
    tokens asked for. *)
Theorem loop_full_length (self : t) (seq_len : nat) (encoded : list token)
  (g : rng) :
  (forall context, exists tokens,
      generate_next_token (_model self) context = Some tokens
      /\ tokens <> []
      /\ _p_value self <= Spec.accumulated (sorted_tokens tokens)) ->
  exists added,
    loop self seq_len encoded g
    = (Ok (encoded ++ added),
       {| stream := stream g; cursor := cursor g + seq_len |})
    /\ List.length added = seq_len.
Proof.
  intros Hm. revert encoded g.
  induction seq_len as [|n IH]; intros encoded g.
  - exists []. rewrite app_nil_r, Nat.add_0_r. destruct g. now split.
  - destruct (Hm encoded) as (tokens & Ht & Hne & Hp).
    assert (Hb : exists pair : token * Q,
               body self encoded g
               = (Ok (Some (encoded ++ [fst pair])), advance g)).
    { rewrite (body_nonempty self encoded g Ht Hne).
      assert (Hne' : sorted_tokens tokens <> []).
      { intros E. apply (f_equal (@List.length _)) in E.
        unfold sorted_tokens in E. rewrite sorted_length in E.
        destruct tokens; [congruence|discriminate]. }
      destruct (scan_reaches Hne' Hp) as (index & Hs & Hi). rewrite Hs.
      assert (Hl : firstn (index + 1) (sorted_tokens tokens) <> []).
      { intros E. apply (f_equal (@List.length _)) in E.
        rewrite length_firstn in E. simpl in E. lia. }
      destruct (choice_nonempty g Hl) as (x & _ & Hc).
      exists x. unfold bind. rewrite Hc. reflexivity. }
    destruct Hb as [pair Hb].
    destruct (IH (encoded ++ [fst pair]) (advance g)) as (added & Hl & Hlen).
    exists (fst pair :: added). split; [|simpl; now rewrite Hlen].
    simpl. unfold bind at 1. rewrite Hb, Hl. rewrite <- app_assoc. simpl.
    do 2 f_equal. f_equal. lia.
Qed.

(** X3. When [p_value] is not above the largest probability, randomness
    plays no part: whatever the random numbers, the pass appends the token
    of the first sorted pair, the most probable one (the largest token among
    equally probable ones). *)
Theorem body_is_greedy (self : t) (encoded : list token)
  (tokens : distribution) (best : token) (prob : Q)
  (rest : list (token * Q)) (g : rng) :
  generate_next_token (_model self) encoded = Some tokens ->
  sorted_tokens tokens = (best, prob) :: rest ->
  _p_value self <= prob ->
  body self encoded g = (Ok (Some (encoded ++ [best])), advance g)
  /\ In (best, prob) tokens
  /\ forall pair, In pair tokens -> Spec.before (best, prob) pair.
Proof.
  intros Hm Hs Hp.
  assert (Hne : tokens <> []).
  { intros ->. discriminate. }
  assert (Hin : In (best, prob) tokens).
  { apply (Permutation_in _ (sorted_perm key_lt true tokens)).
    fold (sorted_tokens tokens). rewrite Hs. now left. }
  split; [|split; [exact Hin|]].
  - rewrite (body_nonempty self encoded g Hm Hne), Hs. simpl scan.
    change (Float64.fadd 0 prob) with prob.
    assert (E : Qle_bool (_p_value self) prob = true)
      by (apply Qle_bool_iff; exact Hp).
    rewrite E. reflexivity.
  - intros pair Hpair.
    apply (Permutation_in _ (Permutation_sym (sorted_perm key_lt true tokens)))
      in Hpair.
    fold (sorted_tokens tokens) in Hpair.
    pose proof (sorted_tokens_before tokens) as Hsorted.
    rewrite Hs in *. inversion Hsorted as [|? ? _ Hall]; subst.
    destruct Hpair as [<-|Hpair].
    + right. split; [reflexivity|lia].
    + rewrite Forall_forall in Hall. now apply Hall.
Qed.

Lemma same_key_same_pair (l : list (token * Q)) (a b : token * Q) :
  NoDup (map fst l) -> In a l -> In b l -> fst a = fst b -> a = b.
Proof.
  induction l as [|x l IH]; intros Hnd Ha Hb E; [contradiction|].
  simpl in Hnd. inversion Hnd as [|? ? Hx Hnd']; subst.
  destruct Ha as [->|Ha], Hb as [->|Hb]; auto.
  - exfalso. apply Hx. rewrite E. now apply in_map.
  - exfalso. apply Hx. rewrite <- E. now apply in_map.
Qed.

(** Two sorted arrangements of the same pairs coincide. *)
Lemma sorted_unique (l1 : list (token * Q)) :
  forall l2,
    (forall a b, In a l1 -> In b l1 ->
       Spec.before a b -> Spec.before b a -> a = b) ->
    StronglySorted Spec.before l1 -> StronglySorted Spec.before l2 ->
    Permutation l1 l2 -> l1 = l2.
Proof.
  induction l1 as [|a l1 IH]; intros l2 Hanti H1 H2 Hp.
  - apply Permutation_nil in Hp. now subst.
  - destruct l2 as [|b l2];
      [apply Permutation_sym, Permutation_nil in Hp; discriminate|].
    inversion H1 as [|? ? H1' Ha]; subst.
    inversion H2 as [|? ? H2' Hb]; subst.
    rewrite Forall_forall in Ha, Hb.
    assert (E : a = b).
    { assert (Hin_a : In a (b :: l2))
        by (apply (Permutation_in _ Hp); now left).
      assert (Hin_b : In b (a :: l1))
        by (apply (Permutation_in _ (Permutation_sym Hp)); now left).
      destruct Hin_a as [->|Hin_a]; [reflexivity|].
      destruct Hin_b as [->|Hin_b]; [reflexivity|].
      apply Hanti; [now left|now right|now apply Ha|now apply Hb]. }
    subst b. f_equal. apply IH; auto.
    + intros x y Hx Hy. apply Hanti; now right.
    + eapply Permutation_cons_inv; eauto.
Qed.

(** X4. The order in which the model's [dict] holds its tokens does not
    matter: two distributions with the same pairs, each token once, give the
    same sorted candidates, hence the same nucleus. *)
Theorem sorted_tokens_order_independent (tokens tokens' : distribution) :
  NoDup (map fst tokens) ->
  Permutation tokens tokens' ->
  sorted_tokens tokens = sorted_tokens tokens'
  /\ forall p_value,
       scan p_value (sorted_tokens tokens) 0 0
       = scan p_value (sorted_tokens tokens') 0 0.
Proof.
  intros Hnd Hp.
  assert (E : sorted_tokens tokens = sorted_tokens tokens').
  { apply sorted_unique.
    - intros a b Ha Hb Hab Hba.
      apply (Permutation_in _ (sorted_perm key_lt true tokens)) in Ha, Hb.
      apply (same_key_same_pair tokens a b Hnd Ha Hb).
      unfold Spec.before in *.
      destruct Hab as [H1|[E1 H1]], Hba as [H2|[E2 H2]];
        [exfalso; lra|exfalso; lra|exfalso; lra|lia].
    - apply sorted_tokens_before.
    - apply sorted_tokens_before.
    - unfold sorted_tokens.
      rewrite (sorted_perm key_lt true tokens), Hp.
      symmetry. apply sorted_perm. }
  split; [exact E|]. intros p_value. now rewrite E.
Qed.

End TopPMore.

(** ** QualityChecker: what a returned perplexity looks like *)

Module PerplexityMore.
Import QualityChecker PerplexityFacts Perplexity.

(** Every way [_calculate_perplexity] returns a value. *)
Lemma calculate_Ok (self : t) (generated_text : string) (perplexity : R) :
  _calculate_perplexity self generated_text = Ok perplexity ->
  exists encoded sum_log,
    str_nonempty generated_text = true
    /\ encode (_word_processor self) generated_text = Some encoded
    /\ encoded <> []
    /\ sum_logs self encoded
         (Py.range (get_n_gram_size (_language_model self) - 1)
            (Z.of_nat (List.length encoded))) 0%R = Ok sum_log
    /\ sum_log <> 0%R
    /\ Z.of_nat (List.length encoded)
       <> get_n_gram_size (_language_model self)
    /\ perplexity
       = exp (sum_log
              / IZR (- (Z.of_nat (List.length encoded)
                        - get_n_gram_size (_language_model self)))).
Proof.
  intros H.
  destruct (str_nonempty generated_text) eqn:Ht;
    [|unfold _calculate_perplexity in H; rewrite Ht in H; discriminate].
  destruct (encode (_word_processor self) generated_text) as [[|x enc]|]
    eqn:He;
    try (unfold _calculate_perplexity in H; rewrite Ht, He in H;
         discriminate).
  assert (Hne : x :: enc <> []) by discriminate.
  rewrite (@calculate_valid self generated_text (x :: enc) Ht He Hne) in H.
  cbv zeta in H.
  destruct (sum_logs self (x :: enc) _ 0%R) as [sum_log|e] eqn:Hs;
    cbn [rbind] in H; [|discriminate].
  destruct (Req_dec_T sum_log 0) as [|Hn]; [discriminate|].
  destruct (_ =? 0)%Z eqn:Hd; [discriminate|].
  injection H as <-. apply Z.eqb_neq in Hd.
  exists (x :: enc), sum_log.
  split; [reflexivity|]. split; [reflexivity|]. split; [exact Hne|].
  split; [exact Hs|]. split; [exact Hn|]. split; [lia|reflexivity].
Qed.

Lemma range_empty (a b : Z) : (b <= a)%Z -> Py.range a b = [].
Proof.
  intros H. unfold Py.range. replace (Z.to_nat (b - a)) with 0%nat by lia.
  reflexivity.
Qed.

Lemma ln_prob_nonpos (q : Q) : 0 < q -> q <= 1 -> (ln (Q2R q) <= 0)%R.
Proof.
  intros H0 H1. apply Qlt_Rlt in H0. apply Qle_Rle in H1.
  replace (Q2R 0) with 0%R in H0 by (unfold Q2R; simpl; lra).
  replace (Q2R 1) with 1%R in H1 by (unfold Q2R; simpl; lra).
  destruct (Req_dec_T (Q2R q) 1) as [->|Hn].
  - rewrite ln_1. lra.
  - rewrite <- ln_1. left. apply ln_increasing; lra.
Qed.

Lemma score_le (self : t) (encoded : list token) (index : Z) (s s' : R) :
  (forall context tokens tok q,
      generate_next_token (_language_model self) context = Some tokens ->
      Py.dict_get token_eqb tokens tok = Some q -> q <= 1) ->
  score self encoded index s = Ok s' -> (s' <= s)%R.
Proof.
  intros Hle. unfold score.
  destruct (Py.get encoded index) as [tok|]; [|discriminate]. simpl rbind.
  destruct (generate_next_token _ _) as [[|x d]|] eqn:Hm; try discriminate.
  destruct (Py.dict_get _ _ _) as [q|] eqn:Hq.
  - destruct (Qeq_bool q 0) eqn:E0; [intros H; injection H as <-; lra|].
    destruct (Qle_bool q 0) eqn:E1; [discriminate|].
    intros H. injection H as <-.
    assert (0 < q).
    { destruct (Qlt_le_dec 0 q) as [|Hc]; [assumption|].
      apply Qle_bool_iff in Hc. congruence. }
    pose proof (ln_prob_nonpos H (Hle _ _ _ _ Hm Hq)). lra.
  - intros H; injection H as <-; lra.
Qed.

Lemma sum_logs_le (self : t) (encoded : list token) (indices : list Z) :
  (forall context tokens tok q,
      generate_next_token (_language_model self) context = Some tokens ->
      Py.dict_get token_eqb tokens tok = Some q -> q <= 1) ->
  forall s s', sum_logs self encoded indices s = Ok s' -> (s' <= s)%R.
Proof.
  intros Hle. induction indices as [|i indices IH]; intros s s'; simpl.
  - intros H. injection H as <-. lra.
  - destruct (score self encoded i s) as [s1|] eqn:E; [|discriminate].
    simpl. intros H. apply IH in H. apply (@score_le _ _ _ _ _ Hle) in E. lra.
Qed.

(** X5. Under a model whose probabilities are at most 1, every perplexity
    [_calculate_perplexity] returns is greater than 1. *)
Theorem perplexity_above_one (self : t) (generated_text : string)
  (perplexity : R) :
  (forall context tokens tok q,
      generate_next_token (_language_model self) context = Some tokens ->
      Py.dict_get token_eqb tokens tok = Some q -> q <= 1) ->
  _calculate_perplexity self generated_text = Ok perplexity ->
  (1 < perplexity)%R.
Proof.
  intros Hle H.
  apply calculate_Ok in H
    as (encoded & s & _ & _ & _ & Hs & Hs0 & Hd & ->).
  set (n := get_n_gram_size (_language_model self)) in *.
  set (L := Z.of_nat (List.length encoded)) in *.
  assert (Hn : (n - 1 < L)%Z).
  { destruct (Z_lt_le_dec (n - 1) L) as [|Hc]; [assumption|].
    rewrite (@range_empty _ _ Hc) in Hs. simpl in Hs. congruence. }
  pose proof (@sum_logs_le self encoded _ Hle _ _ Hs) as Hneg.
  assert (Hdneg : (IZR (- (L - n)) < 0)%R) by (apply IZR_lt; lia).
  rewrite <- exp_0. apply exp_increasing.
  replace (s / IZR (- (L - n)))%R with ((- s) / (- IZR (- (L - n))))%R
    by (field; lra).
  apply Rdiv_lt_0_compat; lra.
Qed.

(** X6. A text whose encoding is not longer than the n-gram size never gets
    a perplexity.  With fewer tokens the log-sum is zero and a [ValueError]
    is raised; with exactly as many, a non-zero log-sum runs into a division
    by zero, which is not a [ValueError]. *)
Theorem short_text_never_scored (self : t) (generated_text : string)
  (encoded : list token) :
  let n := get_n_gram_size (_language_model self) in
  let L := Z.of_nat (List.length encoded) in
  str_nonempty generated_text = true ->
  encode (_word_processor self) generated_text = Some encoded ->
  encoded <> [] ->
  (L <= n)%Z ->
  (forall perplexity,
      _calculate_perplexity self generated_text <> Ok perplexity)
  /\ ((L < n)%Z ->
      _calculate_perplexity self generated_text
      = Raise SumOfProbabilitiesIsZero)
  /\ (L = n ->
      forall sum_log,
        score self encoded (n - 1) 0 = Ok sum_log -> sum_log <> 0%R ->
        _calculate_perplexity self generated_text = Raise ZeroDivisionError
        /\ is_ValueError ZeroDivisionError = false).
Proof.
  intros n L Ht He Hne HL. split; [|split].
  - intros perplexity H.
    apply calculate_Ok in H as (enc & s & _ & He' & _ & Hs & Hs0 & Hd & _).
    rewrite He in He'. injection He' as <-. fold n L in Hs, Hd.
    destruct (Z_lt_le_dec L n) as [Hlt|Hge]; [|lia].
    rewrite range_empty in Hs by lia. simpl in Hs. congruence.
  - intros Hlt.
    rewrite (@calculate_valid self generated_text encoded Ht He Hne).
    fold n L. cbv zeta. rewrite range_empty by lia. simpl rbind.
    destruct (Req_dec_T 0 0); [reflexivity|congruence].
  - intros E sum_log Hs Hs0. split; [|reflexivity].
    rewrite (@calculate_valid self generated_text encoded Ht He Hne).
    fold n L. cbv zeta.
    assert (Hr : Py.range (n - 1) L = [(n - 1)%Z]).
    { unfold Py.range. replace (Z.to_nat (L - (n - 1))) with 1%nat by lia.
      simpl. f_equal. lia. }
    rewrite Hr. simpl sum_logs. rewrite Hs. simpl rbind.
    destruct (Req_dec_T sum_log 0); [contradiction|].
    replace (- (L - n))%Z with 0%Z by lia. reflexivity.
Qed.

Lemma collect_results (self : t) (seq_len : Z) (prompt : string)
  (items : list (Z * generator)) :
  forall results g results' g',
    collect self seq_len prompt items results g = (Ok results', g') ->
    exists new,
      results' = results ++ new
      /\ map get_type new = map fst items
      /\ Forall (fun dto =>
                   str_nonempty (get_text dto) = true
                   /\ _calculate_perplexity self (get_text dto)
                      = Ok (get_perplexity dto)) new.
Proof.
  induction items as [|[gen_type generator] items IH];
    intros results g results' g' H; simpl in H.
  - unfold ret in H. injection H as <- <-. exists [].
    rewrite app_nil_r. repeat split. constructor.
  - apply bind_Ok in H as (text & g1 & Hgen & H).
    destruct (str_nonempty text) eqn:Ht; simpl negb in H; [|discriminate].
    cbv iota in H. apply bind_Ok in H as (perplexity & g2 & Hp & H).
    unfold lift in Hp. injection Hp as Hp <-.
    destruct (Req_dec_T perplexity 0); [discriminate|].
    apply IH in H as (new & -> & Htypes & Hall).
    eexists (_ :: new). rewrite <- app_assoc. split; [reflexivity|].
    split; [simpl; now rewrite Htypes|].
    constructor; [simpl; now split|exact Hall].
Qed.

(** X7. When [QualityChecker.run] returns, the arguments were valid, there
    is exactly one result per registered generator, under that generator's
    type, and every result has a non-empty text together with the perplexity
    of that text, a positive number. *)
Theorem run_one_result_per_generator (self : t) (seq_len : Z)
  (prompt : string) (g g' : rng) (results : list GenerationResultDTO) :
  run self seq_len prompt g = (Ok results, g') ->
  str_nonempty prompt = true
  /\ (0 < seq_len)%Z
  /\ Permutation (map get_type results) (map fst (_generators self))
  /\ Forall (fun dto =>
               str_nonempty (get_text dto) = true
               /\ _calculate_perplexity self (get_text dto)
                  = Ok (get_perplexity dto)
               /\ (0 < get_perplexity dto)%R) results.
Proof.
  unfold run. destruct (str_nonempty prompt); [|discriminate].
  destruct (0 <? seq_len)%Z eqn:Hn; [|discriminate]. simpl negb. cbv iota.
  intros H. apply bind_Ok in H as (collected & g1 & Hc & Hr).
  unfold ret in Hr. injection Hr as <- <-.
  apply collect_results in Hc as (new & -> & Htypes & Hall). simpl in *.
  pose proof (sorted_perm key_lt false new) as Hperm.
  split; [reflexivity|]. split; [now apply Z.ltb_lt|]. split.
  - rewrite <- Htypes. now apply Permutation_map.
  - apply (Permutation_Forall (Permutation_sym Hperm)).
    eapply Forall_impl; [|exact Hall].
    intros dto (Ht & Hp). split; [exact Ht|]. split; [exact Hp|].
    apply calculate_Ok in Hp as (enc & s & _ & _ & _ & _ & _ & _ & ->).
    apply exp_pos.
Qed.

End PerplexityMore.

(** ** Examiner and student: outcomes of an exam *)

Module ExamMore.
Import Examiner GeneratorRuleStudent ExamSpec Grading Exam.

Lemma expected_actual (self : Examiner.t) (question : string) :
  actual_answer (_questions_and_answers self) question
  = match expected self question with
    | Some actual => Ok actual
    | None => Raise StopIteration
    end.
Proof.
  rewrite actual_answer_expected. unfold expected.
  destruct (find _ _); reflexivity.
Qed.

Lemma expected_known (self : Examiner.t) (question : string) :
  expected self question <> None <->
  exists loc ans, In ((question, loc), ans) (_questions_and_answers self).
Proof.
  split.
  - unfold expected. destruct (find _ _) as [[[q loc] ans]|] eqn:E;
      [|simpl; congruence].
    intros _. apply find_some in E as [Hin Heq]. simpl in Heq.
    apply String.eqb_eq in Heq. subst. eauto.
  - intros (loc & ans & Hin).
    destruct (known_expected self _ _ _ Hin) as [actual ->]. discriminate.
Qed.

(** The counting loop either meets a question that is not stored, or counts
    the correct answers. *)
Lemma count_cases (self : Examiner.t) (items : list (string * string)) :
  forall true_answers,
    (Exists (fun item => expected self (fst item) = None) items
     /\ count self items true_answers = Raise StopIteration)
    \/ (Forall (fun item => expected self (fst item) <> None) items
        /\ count self items true_answers
           = Ok (true_answers + Z.of_nat (correct_count self items))%Z).
Proof.
  unfold correct_count.
  induction items as [|[question answer] items IH]; intros acc.
  - right. split; [constructor|]. simpl. f_equal. lia.
  - simpl count. rewrite expected_actual.
    destruct (expected self question) as [actual|] eqn:He.
    + simpl rbind. simpl filter. unfold correct at 1 3. simpl fst.
      simpl snd. rewrite He.
      destruct (String.eqb (Py.lower actual) (Py.lower answer)).
      * destruct (IH (acc + 1)%Z) as [[Hex ->]|[Hall ->]].
        -- left. split; [now apply Exists_cons_tl|reflexivity].
        -- right. split; [constructor; [simpl; congruence|exact Hall]|].
           f_equal. simpl List.length. lia.
      * destruct (IH acc) as [[Hex ->]|[Hall ->]].
        -- left. split; [now apply Exists_cons_tl|reflexivity].
        -- right. split; [constructor; [simpl; congruence|exact Hall]|].
           reflexivity.
    + left. split; [now apply Exists_cons_hd|reflexivity].
Qed.

(** X8. [assess_exam] has three outcomes and no other: a [ValueError] for
    an empty answer mapping; [StopIteration], which is not a [ValueError],
    when the mapping is not empty and some question in it is not stored; a
    value when it is not empty and every question is stored. *)
Theorem assess_exam_outcomes (self : Examiner.t) (answers : list (string * string)) :
  (answers = [] /\ assess_exam self answers = Raise InappropriateInput)
  \/ (answers <> []
      /\ Exists (fun item => expected self (fst item) = None) answers
      /\ assess_exam self answers = Raise StopIteration
      /\ is_ValueError StopIteration = false)
  \/ (answers <> []
      /\ Forall (fun item => expected self (fst item) <> None) answers
      /\ exists accuracy, assess_exam self answers = Ok accuracy).
Proof.
  destruct answers as [|item answers]; [left; now split|].
  right. set (l := item :: answers).
  assert (Hne : l <> []) by discriminate.
  change (assess_exam self l)
    with (rbind (count self l 0)
            (fun true_answers =>
               Ok (inject_Z true_answers
                   / inject_Z (Z.of_nat (List.length l))))).
  destruct (count_cases self l 0%Z) as [[Hex ->]|[Hall ->]].
  - left. repeat split; auto.
  - right. repeat split; auto. eexists. reflexivity.
Qed.

Lemma filter_all {A} (f : A -> bool) (l : list A) :
  List.length (filter f l) = List.length l <-> forallb f l = true.
Proof.
  induction l as [|x l IH]; simpl; [tauto|].
  pose proof (filter_length_le f l).
  destruct (f x); simpl; [|split; [lia|discriminate]].
  rewrite <- IH. lia.
Qed.

Lemma filter_none {A} (f : A -> bool) (l : list A) :
  List.length (filter f l) = 0%nat <-> forallb (fun x => negb (f x)) l = true.
Proof.
  induction l as [|x l IH]; simpl; [tauto|].
  destruct (f x); simpl; [split; [lia|discriminate]|exact IH].
Qed.

Lemma ratio_one (c t : nat) :
  (0 < t)%nat ->
  (inject_Z (Z.of_nat c) / inject_Z (Z.of_nat t) == 1 <-> c = t).
Proof.
  intros Ht.
  assert (H0 : ~ inject_Z (Z.of_nat t) == 0).
  { intros E. apply (proj1 (inject_Z_injective (Z.of_nat t) 0)) in E. lia. }
  split.
  - intros E.
    pose proof (@Qmult_div_r (inject_Z (Z.of_nat c)) _ H0) as H.
    rewrite E, Qmult_1_r in H.
    apply (proj1 (inject_Z_injective _ _)) in H. lia.
  - intros ->. unfold Qdiv. apply Qmult_inv_r. exact H0.
Qed.

Lemma ratio_zero (c t : nat) :
  (0 < t)%nat ->
  (inject_Z (Z.of_nat c) / inject_Z (Z.of_nat t) == 0 <-> c = 0%nat).
Proof.
  intros Ht.
  assert (H0 : ~ inject_Z (Z.of_nat t) == 0).
  { intros E. apply (proj1 (inject_Z_injective (Z.of_nat t) 0)) in E. lia. }
  split.
  - intros E.
    pose proof (@Qmult_div_r (inject_Z (Z.of_nat c)) _ H0) as H.
    rewrite E, Qmult_0_r in H.
    apply (proj1 (inject_Z_injective 0 (Z.of_nat c))) in H. lia.
  - intros ->. unfold Qdiv. simpl. apply Qmult_0_l.
Qed.

(** X9. When [assess_exam] returns, the accuracy is 1 exactly when every
    answer is correct and 0 exactly when none is. *)
Theorem accuracy_extremes (self : Examiner.t) (answers : list (string * string))
  (accuracy : Q) :
  assess_exam self answers = Ok accuracy ->
  (accuracy == 1 <-> forallb (correct self) answers = true)
  /\ (accuracy == 0
      <-> forallb (fun item => negb (correct self item)) answers = true).
Proof.
  intros H.
  destruct answers as [|item answers]; [discriminate|].
  set (l := item :: answers) in *.
  assert (Ht : (0 < List.length l)%nat) by (simpl; lia).
  change (assess_exam self l)
    with (rbind (count self l 0)
            (fun true_answers =>
               Ok (inject_Z true_answers
                   / inject_Z (Z.of_nat (List.length l))))) in H.
  destruct (count_cases self l 0%Z) as [[_ E]|[_ E]]; rewrite E in H;
    [discriminate|].
  cbn [rbind] in H. injection H as <-.
  change (Z.pos (Pos.of_succ_nat (List.length answers)))
    with (Z.of_nat (List.length l)). split.
  - rewrite (ratio_one _ Ht). apply filter_all.
  - rewrite (ratio_zero _ Ht). apply filter_none.
Qed.

Lemma dict_set_keys (d : list (string * string)) (k v : string) :
  map fst (Py.dict_set String.eqb d k v)
  = if in_dec string_dec k (map fst d) then map fst d else map fst d ++ [k].
Proof.
  induction d as [|[k0 v0] d IH]; simpl; [reflexivity|].
  destruct (String.eqb_spec k0 k) as [->|Hk]; simpl.
  - destruct (string_dec k k); [reflexivity|congruence].
  - rewrite IH. destruct (string_dec k0 k); [congruence|].
    destruct (in_dec string_dec k (map fst d)); reflexivity.
Qed.

Lemma dict_set_NoDup (d : list (string * string)) (k v : string) :
  NoDup (map fst d) -> NoDup (map fst (Py.dict_set String.eqb d k v)).
Proof.
  intros H. rewrite dict_set_keys.
  destruct (in_dec string_dec k (map fst d)) as [|Hn]; [exact H|].
  apply NoDup_app; [exact H|repeat constructor; intros []|].
  intros x Hx [<-|[]]. contradiction.
Qed.

Lemma fill_keys (self : GeneratorRuleStudent.t) :
  forall tasks answers g answers' g',
    fill self tasks answers g = (Ok answers', g') ->
    NoDup (map fst answers) ->
    NoDup (map fst answers')
    /\ (forall q, In q (map fst answers')
                  <-> In q (map fst answers) \/ In q (map fst tasks))
    /\ (List.length answers' <= List.length answers + List.length tasks)%nat.
Proof.
  induction tasks as [|[question position] tasks IH];
    intros answers g answers' g' H Hnd.
  - simpl in H. unfold ret in H. injection H as <- <-.
    split; [exact Hnd|]. split; [simpl; tauto|lia].
  - simpl in H. apply bind_Ok in H as (generated & g1 & _ & H).
    destruct (str_nonempty generated); simpl negb in H; [|discriminate].
    apply IH in H as (H1 & H2 & H3); [|now apply dict_set_NoDup].
    split; [exact H1|]. split.
    + intros q. rewrite H2, dict_set_keys. simpl.
      destruct (in_dec string_dec question (map fst answers)) as [Hi|Hn].
      * intuition (subst; auto).
      * rewrite in_app_iff. simpl. intuition (subst; auto).
    + apply (f_equal (@List.length _)) in H3 || idtac.
      assert (Hl : (List.length (Py.dict_set String.eqb answers question
                      (strip_full_stop generated
                       ++ Py.str_slice_from question position)%string)
                    <= S (List.length answers))%nat).
      { rewrite <- (length_map fst), dict_set_keys.
        destruct (in_dec _ _ _); rewrite ?length_app, length_map; simpl; lia. }
      simpl. lia.
Qed.

(** X10. The answers [take_exam] returns hold every question of the tasks
    exactly once and nothing else, so there are at most as many answers as
    tasks. *)
Theorem take_exam_one_answer_per_question (self : GeneratorRuleStudent.t)
  (tasks : list (string * Z)) (g g' : rng)
  (answers : list (string * string)) :
  take_exam self tasks g = (Ok answers, g') ->
  NoDup (map fst answers)
  /\ (forall question,
        In question (map fst answers) <-> In question (map fst tasks))
  /\ (0 < List.length answers <= List.length tasks)%nat.
Proof.
  unfold take_exam. destruct tasks as [|task tasks'] eqn:Ht; [discriminate|].
  rewrite <- Ht. intros H.
  apply fill_keys in H as (H1 & H2 & H3); [|constructor].
  split; [exact H1|]. split; [intros q; rewrite H2; simpl; tauto|].
  split; [|simpl in H3; lia].
  assert (Hin : In (fst task) (map fst answers)).
  { apply H2. right. rewrite Ht. now left. }
  destruct answers; [contradiction|simpl; lia].
Qed.

Lemma fill_Raise (self : GeneratorRuleStudent.t) :
  forall tasks answers g e g',
    fill self tasks answers g = (Raise e, g') ->
    exists question position g1,
      In (question, position) tasks
      /\ (_generator self 1%Z (Py.str_slice_to question position) g1
          = (Raise e, g')
          \/ (e = NoAnswersGenerated
              /\ _generator self 1%Z (Py.str_slice_to question position) g1
                 = (Ok EmptyString, g'))).
Proof.
  induction tasks as [|[question position] tasks IH];
    intros answers g e g' H; simpl in H; [discriminate|].
  unfold bind in H.
  destruct (_generator self 1%Z (Py.str_slice_to question position) g)
    as [[generated|e1] g1] eqn:Hgen.
  - destruct generated as [|c generated'] eqn:Hs.
    + simpl in H. unfold throw in H. injection H as <- <-.
      exists question, position, g. split; [now left|]. right. now split.
    + simpl negb in H. cbv iota in H.
      apply IH in H as (q & p & g2 & Hin & Hcase).
      exists q, p, g2. split; [now right|exact Hcase].
  - injection H as <- <-. exists question, position, g.
    split; [now left|]. now left.
Qed.

(** X11. [take_exam] raises only for an empty task list (a [ValueError],
    before the generator is used), or with the exception the generator
    raised for the prompt of some task, or with a [ValueError] because the
    generator returned nothing for the prompt of some task. *)
Theorem take_exam_raises (self : GeneratorRuleStudent.t)
  (tasks : list (string * Z)) (g g' : rng) (e : exn) :
  take_exam self tasks g = (Raise e, g') ->
  (tasks = [] /\ e = InappropriateInput /\ g' = g)
  \/ exists question position g1,
       In (question, position) tasks
       /\ (_generator self 1%Z (Py.str_slice_to question position) g1
           = (Raise e, g')
           \/ (e = NoAnswersGenerated
               /\ _generator self 1%Z (Py.str_slice_to question position) g1
                  = (Ok EmptyString, g'))).
Proof.
  unfold take_exam. destruct tasks as [|task tasks'] eqn:Ht.
  - unfold throw. intros H. injection H as <- <-. left. auto.
  - rewrite <- Ht. intros H. right. eapply fill_Raise; eauto.
Qed.

(** X12. A student who takes the exam on the questions the examiner
    provides always gets a grade: [assess_exam] returns a ratio between 0
    and 1 for the answers, it never meets a question it has not stored. *)
Theorem provided_questions_are_graded (examiner : Examiner.t)
  (student : GeneratorRuleStudent.t) (g g' : rng)
  (answers : list (string * string)) :
  take_exam student (Questions.provide_questions examiner) g
  = (Ok answers, g') ->
  exists accuracy,
    assess_exam examiner answers = Ok accuracy /\ 0 <= accuracy <= 1.
Proof.
  intros H.
  unfold take_exam in H.
  destruct (Questions.provide_questions examiner) as [|task tasks'] eqn:Ht;
    [discriminate|]. rewrite <- Ht in H.
  apply fill_keys in H as (_ & H2 & _); [|constructor].
  assert (Hne : answers <> []).
  { intros ->. apply (proj2 (H2 (fst task))). right. rewrite Ht. now left. }
  assert (Hk : forall question answer, In (question, answer) answers ->
             exists loc ans,
               In ((question, loc), ans) (_questions_and_answers examiner)).
  { intros q a Hin.
    assert (Hq : In q (map fst (Questions.provide_questions examiner))).
    { apply (in_map fst) in Hin. apply H2 in Hin as [[]|Hin]. exact Hin. }
    unfold Questions.provide_questions in Hq. rewrite map_map in Hq.
    apply in_map_iff in Hq as ([[q' loc] ans] & E & Hin'). simpl in E.
    subst q'. eauto. }
  exists (inject_Z (Z.of_nat (correct_count examiner answers))
          / inject_Z (Z.of_nat (List.length answers))).
  split.
  - unfold assess_exam. destruct answers as [|x answers']; [congruence|].
    rewrite (count_correct examiner _ Hk). reflexivity.
  - apply ratio_bounds.
    + apply filter_length_le.
    + destruct answers; [congruence|simpl; lia].
Qed.

End ExamMore.

(** ** WordProcessor: tokens and storage *)

Module WordProcessorFacts.
Import WordProcessorCode.

Lemma lower_char_idempotent (c : ascii) :
  Py.lower_char (Py.lower_char c) = Py.lower_char c.
Proof. destruct c as [[] [] [] [] [] [] [] []]; reflexivity. Qed.

Lemma isalpha_lower_char (c : ascii) :
  isalpha (Py.lower_char c) = isalpha c.
Proof. destruct c as [[] [] [] [] [] [] [] []]; reflexivity. Qed.

Lemma isalpha_not_space (c : ascii) : isalpha c = true -> isspace c = false.
Proof. destruct c as [[] [] [] [] [] [] [] []]; vm_compute; congruence. Qed.

Lemma in_cons_word (word : list ascii) (words : list (list ascii))
  (w : list ascii) :
  In w (cons_word word words) <-> (word <> [] /\ w = word) \/ In w words.
Proof.
  destruct word; simpl.
  - split; [auto|]. intros [[H _]|H]; [congruence|exact H].
  - split.
    + intros [<-|H]; [left; split; [discriminate|reflexivity]|now right].
    + intros [[_ ->]|H]; [now left|now right].
Qed.

(** The words of [split] are made of characters of the text that are not
    whitespace, and no such character is lost. *)
Lemma split_from_chars (l : list ascii) :
  (forall c, In c (fst (split_from l)) -> In c l /\ isspace c = false)
  /\ (forall w c, In w (snd (split_from l)) -> In c w ->
        In c l /\ isspace c = false)
  /\ (forall c, In c l -> isspace c = false ->
        In c (fst (split_from l))
        \/ exists w, In w (snd (split_from l)) /\ In c w).
Proof.
  induction l as [|x l (IH1 & IH2 & IH3)]; simpl.
  - repeat split; try contradiction.
  - destruct (split_from l) as [word words] eqn:E. simpl in *.
    destruct (isspace x) eqn:Hx; simpl.
    + split; [intros c []|]. split.
      * intros w c Hw Hc.
        apply in_cons_word in Hw as [[_ ->]|Hw].
        -- destruct (IH1 c Hc). auto.
        -- destruct (IH2 w c Hw Hc). auto.
      * intros c [->|Hc] Hs; [congruence|]. right.
        destruct (IH3 c Hc Hs) as [H|(w & Hw & Hcw)].
        -- exists word. split; [|exact H].
           apply in_cons_word. left.
           split; [intros ->; contradiction|reflexivity].
        -- exists w. split; [|exact Hcw].
           apply in_cons_word. now right.
    + split; [|split].
      * intros c [<-|Hc]; [auto|]. destruct (IH1 c Hc). auto.
      * intros w c Hw Hc. destruct (IH2 w c Hw Hc). auto.
      * intros c [->|Hc] Hs; [left; now left|].
        destruct (IH3 c Hc Hs) as [H|H]; [left; now right|now right].
Qed.

Lemma split_chars (l : list ascii) :
  (forall w c, In w (split l) -> In c w -> In c l /\ isspace c = false)
  /\ (forall c, In c l -> isspace c = false ->
        exists w, In w (split l) /\ In c w).
Proof.
  destruct (split_from_chars l) as (H1 & H2 & H3). unfold split.
  destruct (split_from l) as [word words]. simpl in *. split.
  - intros w c Hw Hc.
    apply in_cons_word in Hw as [[_ ->]|Hw]; eauto.
  - intros c Hc Hs. destruct (H3 c Hc Hs) as [H|(w & Hw & Hcw)].
    + exists word. split; [|exact H].
      apply in_cons_word. left.
      split; [intros ->; contradiction|reflexivity].
    + exists w. split; [|exact Hcw].
      apply in_cons_word. now right.
Qed.

Lemma str_nonempty_chars (l : list ascii) :
  l <> [] -> Py.str l <> EmptyString.
Proof. destruct l; [congruence|discriminate]. Qed.

Lemma filter_word (word : list ascii) :
  (forall c, In c word -> Py.lower_char c = c) ->
  filter isalpha word <> [] ->
  is_word (Py.str (filter isalpha word)).
Proof.
  intros Hl Hne. split; [now apply str_nonempty_chars|]. split.
  - unfold Py.chars, Py.str. rewrite list_ascii_of_string_of_list_ascii.
    apply forallb_forall. intros c Hc. now apply filter_In in Hc.
  - unfold Py.lower, Py.chars, Py.str.
    rewrite list_ascii_of_string_of_list_ascii. f_equal.
    rewrite <- (map_id (filter isalpha word)) at 2.
    apply map_ext_in. intros c Hc. apply Hl.
    now apply filter_In in Hc.
Qed.

Lemma tokens_of_blocks (self : t) (words : list (list ascii)) :
  (forall w c, In w words -> In c w -> Py.lower_char c = c) ->
  exists blocks,
    tokens_of self words = List.concat blocks
    /\ Forall (is_block self) blocks
    /\ (List.length blocks <= List.length words)%nat.
Proof.
  induction words as [|word words IH]; intros Hl.
  - exists []. repeat split; [constructor|simpl; lia].
  - destruct IH as (blocks & E & Hb & Hlen);
      [intros w c Hw; apply Hl; now right|].
    simpl tokens_of.
    destruct (filter isalpha word) as [|c0 clear] eqn:Hf.
    + exists blocks. repeat split; auto. simpl. lia.
    + assert (Hw : is_word (Py.str (c0 :: clear))).
      { rewrite <- Hf. apply filter_word.
        - intros c Hc. apply (Hl word c); [now left|exact Hc].
        - rewrite Hf. discriminate. }
      exists ((Py.str (c0 :: clear)
               :: (if ends_sentence word
                   then [_end_of_word_token self] else []))
              :: blocks).
      split; [simpl; now rewrite E|]. split; [|simpl; lia].
      constructor; [|exact Hb]. exists (Py.str (c0 :: clear)).
      split; [exact Hw|]. destruct (ends_sentence word); auto.
Qed.

Lemma tokens_of_nil (self : t) (words : list (list ascii)) :
  tokens_of self words = []
  <-> forall w c, In w words -> In c w -> isalpha c = false.
Proof.
  induction words as [|word words IH]; simpl.
  - split; [intros _ w c []|reflexivity].
  - destruct (filter isalpha word) as [|c0 clear] eqn:Hf.
    + rewrite IH. split.
      * intros H w c [E|Hw] Hc; [subst w|eauto].
        destruct (isalpha c) eqn:Ha; [|reflexivity].
        assert (Hin : In c (filter isalpha word))
          by (apply filter_In; auto).
        rewrite Hf in Hin. contradiction.
      * intros H w c Hw. apply H. now right.
    + split; [discriminate|]. intros H. exfalso.
      assert (Hin : In c0 (filter isalpha word)) by (rewrite Hf; now left).
      apply filter_In in Hin as [Hin Ha].
      rewrite (H word c0 (or_introl eq_refl) Hin) in Ha. discriminate.
Qed.

(** X13. [_tokenize] raises exactly for the empty text.  Otherwise the
    tokens are, word of the text by word, nothing, or one token that is not
    empty, consists of letters and has no capital, possibly followed by the
    end-of-word token: no punctuation, digit or space gets through, and the
    end-of-word token only ever follows a word. *)
Theorem tokenize_words (self : t) (text : string) :
  (_tokenize self text = Raise InappropriateInput <-> text = EmptyString)
  /\ (text <> EmptyString ->
      exists tokens blocks,
        _tokenize self text = Ok tokens
        /\ tokens = List.concat blocks
        /\ Forall (is_block self) blocks
        /\ (List.length blocks
            <= List.length (split (Py.chars (Py.lower text))))%nat).
Proof.
  unfold _tokenize. destruct text as [|c text].
  - split; [split; reflexivity|congruence].
  - set (s := String c text). simpl negb. cbv iota.
    split; [split; discriminate|]. intros _.
    destruct (tokens_of_blocks self (split (Py.chars (Py.lower s))))
      as (blocks & E & Hb & Hlen).
    + intros w x Hw Hx.
      destruct (proj1 (split_chars _) w x Hw Hx) as [Hin _].
      unfold Py.lower, Py.chars, Py.str in Hin.
      rewrite list_ascii_of_string_of_list_ascii in Hin.
      apply in_map_iff in Hin as (y & <- & _).
      apply lower_char_idempotent.
    + exists (tokens_of self (split (Py.chars (Py.lower s)))), blocks.
      auto.
Qed.

(** X14. [_tokenize] returns the empty tuple exactly for a non-empty text
    without any letter. *)
Theorem tokenize_nothing (self : t) (text : string) :
  _tokenize self text = Ok []
  <-> text <> EmptyString
      /\ forallb (fun c => negb (isalpha c)) (Py.chars text) = true.
Proof.
  unfold _tokenize. destruct text as [|c0 text].
  - split; [discriminate|intros [H _]; congruence].
  - set (s := String c0 text). simpl negb. cbv iota.
    assert (Hl : Py.chars (Py.lower s) = map Py.lower_char (Py.chars s)).
    { unfold Py.lower, Py.chars, Py.str.
      apply list_ascii_of_string_of_list_ascii. }
    split.
    + intros H. injection H as H. split; [discriminate|].
      apply forallb_forall. intros c Hc.
      destruct (isalpha c) eqn:Ha; [|reflexivity]. exfalso.
      assert (Hin : In (Py.lower_char c) (Py.chars (Py.lower s)))
        by (rewrite Hl; now apply in_map).
      assert (Ha' : isalpha (Py.lower_char c) = true)
        by (now rewrite isalpha_lower_char).
      destruct (proj2 (split_chars _) _ Hin (isalpha_not_space _ Ha'))
        as (w & Hw & Hcw).
      rewrite (proj1 (tokens_of_nil self _) H w _ Hw Hcw) in Ha'.
      discriminate.
    + intros [_ H]. f_equal. apply tokens_of_nil. intros w c Hw Hc.
      destruct (proj1 (split_chars _) w c Hw Hc) as [Hin _].
      rewrite Hl in Hin. apply in_map_iff in Hin as (y & <- & Hy).
      rewrite isalpha_lower_char.
      rewrite forallb_forall in H. specialize (H y Hy).
      now apply negb_true_iff in H.
Qed.

Section Storage.
Variable V : Type.

Lemma dict_get_In (d : list (string * V)) (k : string) (v : V) :
  Py.dict_get String.eqb d k = Some v -> In (k, v) d.
Proof.
  induction d as [|[k0 v0] d IH]; simpl; [discriminate|].
  destruct (String.eqb_spec k0 k) as [->|Hk].
  - intros H. injection H as <-. now left.
  - intros H. right. now apply IH.
Qed.

Lemma dict_set_new (d : list (string * V)) (k : string) (v : V) :
  Py.dict_get String.eqb d k = None ->
  Py.dict_set String.eqb d k v = d ++ [(k, v)].
Proof.
  induction d as [|[k0 v0] d IH]; simpl; [reflexivity|].
  destruct (String.eqb k0 k); [discriminate|].
  intros H. now rewrite IH.
Qed.

Lemma dict_get_app (d : list (string * V)) (k k' : string) (v : V) :
  Py.dict_get String.eqb (d ++ [(k, v)]) k'
  = match Py.dict_get String.eqb d k' with
    | Some v' => Some v'
    | None => if String.eqb k k' then Some v else None
    end.
Proof.
  induction d as [|[k0 v0] d IH]; simpl; [reflexivity|].
  destruct (String.eqb k0 k'); [reflexivity|exact IH].
Qed.
End Storage.

Lemma dense_nth (storage : list (string * Z)) (k : string) (id : Z) :
  dense storage -> In (k, id) storage ->
  nth_error storage (Z.to_nat id) = Some (k, id)
  /\ (0 <= id < Z.of_nat (List.length storage))%Z.
Proof.
  intros Hd Hin. apply In_nth_error in Hin as [i Hi].
  assert (Hlt : (i < List.length storage)%nat)
    by (apply nth_error_Some; congruence).
  assert (E : nth_error (map snd storage) i = Some id)
    by (rewrite nth_error_map, Hi; reflexivity).
  rewrite Hd, nth_error_map, nth_error_seq in E.
  destruct (Nat.ltb_spec i (List.length storage)) as [_|]; [|lia].
  simpl in E. injection E as <-. rewrite Nat2Z.id. split; [exact Hi|lia].
Qed.

(** X15. [_put] raises exactly for the empty element.  On a storage whose
    ids are its positions it keeps them so, hence no two elements ever
    share an id; the element put is stored afterwards, every element stored
    before keeps its id, and a new element gets the old size as its id. *)
Theorem put_keeps_ids (self : t) (element : string) :
  (_put self element = Raise InappropriateInput <-> element = EmptyString)
  /\ (element <> EmptyString ->
      dense (_storage self) ->
      exists self',
        _put self element = Ok self'
        /\ _end_of_word_token self' = _end_of_word_token self
        /\ dense (_storage self')
        /\ (forall k1 k2 id,
              Py.dict_get String.eqb (_storage self') k1 = Some id ->
              Py.dict_get String.eqb (_storage self') k2 = Some id ->
              k1 = k2)
        /\ (forall k id,
              Py.dict_get String.eqb (_storage self) k = Some id ->
              Py.dict_get String.eqb (_storage self') k = Some id)
        /\ (exists id,
              Py.dict_get String.eqb (_storage self') element = Some id
              /\ (0 <= id < Z.of_nat (List.length (_storage self')))%Z)
        /\ (Py.dict_get String.eqb (_storage self) element = None ->
            Py.dict_get String.eqb (_storage self') element
            = Some (Z.of_nat (List.length (_storage self))))).
Proof.
  unfold _put. destruct element as [|c element].
  { split; [split; reflexivity|congruence]. }
  set (e := String c element). simpl negb. cbv iota.
  split.
  { split; [|discriminate].
    destruct (Py.dict_get _ _ _); discriminate. }
  intros _ Hd.
  assert (Hinj : forall storage, dense storage ->
            forall k1 k2 id,
              Py.dict_get String.eqb storage k1 = Some id ->
              Py.dict_get String.eqb storage k2 = Some id -> k1 = k2).
  { intros storage Hs k1 k2 id H1 H2.
    apply dict_get_In in H1, H2.
    destruct (dense_nth _ _ Hs H1) as [E1 _].
    destruct (dense_nth _ _ Hs H2) as [E2 _]. congruence. }
  destruct (Py.dict_get String.eqb (_storage self) e) as [id|] eqn:Hg.
  - exists self. split; [reflexivity|]. split; [reflexivity|].
    split; [exact Hd|]. split; [now apply Hinj|]. split; [auto|].
    split; [|discriminate].
    exists id. split; [exact Hg|].
    apply dict_get_In in Hg. now destruct (dense_nth _ _ Hd Hg).
  - eexists. split; [reflexivity|]. simpl.
    rewrite (@dict_set_new _ _ _ _ Hg).
    assert (Hd' : dense (_storage self
                         ++ [(e, Z.of_nat (List.length (_storage self)))])).
    { unfold dense in *. rewrite map_app, length_app. simpl.
      rewrite Nat.add_1_r, seq_S, map_app, Hd. reflexivity. }
    split; [reflexivity|]. split; [exact Hd'|]. split; [now apply Hinj|].
    split; [|split].
    + intros k id Hk. now rewrite dict_get_app, Hk.
    + exists (Z.of_nat (List.length (_storage self))).
      rewrite dict_get_app, Hg, String.eqb_refl, length_app. simpl.
      split; [reflexivity|lia].
    + intros _. now rewrite dict_get_app, Hg, String.eqb_refl.
Qed.

(** X16. Putting an element a second time changes nothing. *)
Theorem put_twice (self self' : t) (element : string) :
  _put self element = Ok self' -> _put self' element = Ok self'.
Proof.
  unfold _put. destruct (str_nonempty element); simpl negb; cbv iota;
    [|discriminate].
  destruct (Py.dict_get String.eqb (_storage self) element) as [id|] eqn:Hg.
  - intros H. injection H as <-. now rewrite Hg.
  - intros H. injection H as <-. simpl.
    rewrite (@dict_set_new _ _ _ _ Hg), dict_get_app, Hg, String.eqb_refl.
    reflexivity.
Qed.

End WordProcessorFacts.

(** ** Which generator a student gets *)

Module StudentFacts.
Import Student.

Lemma get_beyond_bounds {A} (l : list A) (i : Z) :
  (i < - Z.of_nat (List.length l) \/ Z.of_nat (List.length l) <= i)%Z ->
  Py.get l i = Raise IndexError.
Proof.
  intros H. unfold Py.get.
  destruct (i <? 0)%Z eqn:E.
  - apply Z.ltb_lt in E.
    destruct (_ <? 0)%Z eqn:E'; [reflexivity|].
    apply Z.ltb_ge in E'. lia.
  - pose proof (proj1 (Z.ltb_ge _ _) E) as E'.
    assert (Hn : nth_error l (Z.to_nat i) = None)
      by (apply nth_error_None; lia).
    now rewrite E, Hn.
Qed.

(** X17. A student can be built for the types -3 to 2 and for no other
    (an [IndexError] otherwise): the tuple of generators is indexed the
    Python way, so -3, -2 and -1 pick the greedy, top-p and beam search
    generator as 0, 1 and 2 do.  The top-p generator runs with threshold
    0.5.  The name of the type exists for 0, 1 and 2 only: for a student
    built with a negative type [get_generator_type] ends in a [KeyError]. *)
Theorem student_generator_types
  (Greedy : NGramLanguageModel -> WordProcessor -> generator)
  (Beam : NGramLanguageModel -> WordProcessor -> Z -> generator)
  (generator_type : Z) (lm : NGramLanguageModel) (wp : WordProcessor) :
  let top_p :=
    TopPGenerator.run
      {| TopPGenerator._model := lm;
         TopPGenerator._word_processor := wp;
         TopPGenerator._p_value := 5 # 10 |} in
  let chosen :=
    if ((generator_type =? 0) || (generator_type =? -3))%Z then Greedy lm wp
    else if ((generator_type =? 1) || (generator_type =? -2))%Z then top_p
    else Beam lm wp 5%Z in
  ((-3 <= generator_type <= 2)%Z ->
     __init__ Greedy Beam generator_type lm wp
     = Ok {| GeneratorRuleStudent._generator := chosen;
             GeneratorRuleStudent._generator_type := generator_type |})
  /\ (~ (-3 <= generator_type <= 2)%Z ->
      __init__ Greedy Beam generator_type lm wp = Raise IndexError)
  /\ (forall self,
        __init__ Greedy Beam generator_type lm wp = Ok self ->
        (get_generator_type self <> None <-> (0 <= generator_type <= 2)%Z)).
Proof.
  intros top_p chosen.
  assert (Hout : ~ (-3 <= generator_type <= 2)%Z ->
            __init__ Greedy Beam generator_type lm wp = Raise IndexError).
  { intros H. unfold __init__. rewrite get_beyond_bounds; [reflexivity|].
    simpl. lia. }
  assert (Hin : (-3 <= generator_type <= 2)%Z ->
            __init__ Greedy Beam generator_type lm wp
            = Ok {| GeneratorRuleStudent._generator := chosen;
                    GeneratorRuleStudent._generator_type := generator_type |}).
  { intros H. unfold chosen.
    assert (E : generator_type = (-3)%Z \/ generator_type = (-2)%Z
                \/ generator_type = (-1)%Z \/ generator_type = 0%Z
                \/ generator_type = 1%Z \/ generator_type = 2%Z) by lia.
    destruct E as [->|[->|[->|[->|[->| ->]]]]]; reflexivity. }
  split; [exact Hin|]. split; [exact Hout|].
  intros self Hs.
  destruct (Z_le_dec (-3) generator_type) as [H1|H1];
    [|rewrite Hout in Hs by lia; discriminate].
  destruct (Z_le_dec generator_type 2) as [H2|H2];
    [|rewrite Hout in Hs by lia; discriminate].
  rewrite Hin in Hs by lia. injection Hs as <-.
  unfold get_generator_type. simpl GeneratorRuleStudent._generator_type.
  assert (E : generator_type = (-3)%Z \/ generator_type = (-2)%Z
              \/ generator_type = (-1)%Z \/ generator_type = 0%Z
              \/ generator_type = 1%Z \/ generator_type = 2%Z) by lia.
  destruct E as [->|[->|[->|[->|[->| ->]]]]];
    match goal with
    | |- ?x <> None <-> _ =>
        let y := eval vm_compute in x in change x with y
    end;
    (split; [intros H; try lia; congruence|intros H; try lia; discriminate]).
Qed.

End StudentFacts.

(** ** WordProcessor: the decoded text *)

Module PostprocessFacts.
Import WordProcessorCode Postprocess Exam.

Lemma title_char_tidy (c : ascii) :
  isspace c = false ->
  exists body last, title_char c = body ++ [last] /\ last <> 32%nat.
Proof.
  intros Hs.
  destruct c as [[] [] [] [] [] [] [] []]; vm_compute in Hs;
    try discriminate Hs;
    try (eexists [], _; split; [reflexivity|discriminate]);
    try (exists [83%nat], 115%nat; split; [reflexivity|discriminate]).
Qed.

Lemma lower_char_not_space (c : ascii) :
  isspace c = false -> nat_of_ascii (Py.lower_char c) <> 32%nat.
Proof.
  destruct c as [[] [] [] [] [] [] [] []]; vm_compute; congruence.
Qed.

Lemma lstrip_head (l : list ascii) :
  lstrip l = [] \/ exists c l', lstrip l = c :: l' /\ isspace c = false.
Proof.
  induction l as [|c l IH]; simpl; [now left|].
  destruct (isspace c) eqn:E; [exact IH|]. right. eauto.
Qed.

Lemma strip_end (l : list ascii) :
  strip l = []
  \/ exists body last, strip l = body ++ [last] /\ isspace last = false.
Proof.
  unfold strip. destruct (lstrip_head (rev (lstrip l))) as [->|(c & m & -> & Hc)].
  - now left.
  - right. exists (rev m), c. now split.
Qed.

Lemma capitalize_tidy (l : list ascii) : tidy (capitalize (strip l)).
Proof.
  destruct (strip_end l) as [->|(body & last & -> & Hs)].
  - now left.
  - right. destruct body as [|c body]; cbn [app capitalize].
    + rewrite app_nil_r. now apply title_char_tidy.
    + exists (title_char c
              ++ map (fun d => nat_of_ascii (Py.lower_char d)) body),
             (nat_of_ascii (Py.lower_char last)).
      split; [now rewrite map_app, app_assoc|].
      now apply lower_char_not_space.
Qed.

Lemma split_on_nonempty (sep l : list ascii) :
  forall skip piece, split_on sep l skip piece <> [].
Proof.
  induction l as [|c l IH]; intros skip piece; simpl; [discriminate|].
  destruct skip; [|apply IH].
  destruct (starts_with sep (c :: l)); [discriminate|apply IH].
Qed.

(** How sentences joined with a full stop and a space can end. *)
Lemma join_end (capitalized : list (list nat)) :
  capitalized <> [] -> Forall tidy capitalized ->
  join [46; 32]%nat capitalized = []
  \/ (exists body last,
        join [46; 32]%nat capitalized = body ++ [last]
        /\ last <> 32%nat)
  \/ (exists body,
        join [46; 32]%nat capitalized = body ++ [46; 32]%nat).
Proof.
  induction capitalized as [|c rest IH]; intros Hne Hall; [congruence|].
  inversion Hall as [|? ? Hc Hrest]; subst.
  destruct rest as [|c2 rest].
  - simpl. destruct Hc as [->|(body & last & -> & Hl)]; [now left|].
    right. left. eauto.
  - change (join [46; 32]%nat (c :: c2 :: rest))
      with (c ++ [46; 32]%nat ++ join [46; 32]%nat (c2 :: rest)).
    destruct (IH ltac:(discriminate) Hrest)
      as [->|[(body & last & -> & Hl)|(body & ->)]].
    + right. right. exists c. now rewrite app_nil_r.
    + right. left. exists (c ++ [46; 32]%nat ++ body), last.
      split; [now rewrite <- !app_assoc|exact Hl].
    + right. right. exists (c ++ [46; 32]%nat ++ body).
      now rewrite <- !app_assoc.
Qed.

Lemma strip_full_stop_app (body : string) :
  GeneratorRuleStudent.strip_full_stop (body ++ ".")
  = (body ++ " ")%string.
Proof.
  unfold GeneratorRuleStudent.strip_full_stop, Py.str_slice_to.
  rewrite chars_app. change (Py.chars ".") with ["."%char].
  now rewrite get_last, slice_to_last, str_chars.
Qed.

(** A text that ends with a full stop and is a string loses the full stop
    to a space in [take_exam]. *)
Lemma to_str_full_stop (body : list nat) (s : string) :
  to_str (body ++ [46%nat]) = Some s ->
  GeneratorRuleStudent.strip_full_stop s
  = (Py.str (map ascii_of_nat body) ++ " ")%string.
Proof.
  unfold to_str. destruct (forallb _ _); [|discriminate].
  intros H. injection H as <-. rewrite map_app, str_app.
  apply strip_full_stop_app.
Qed.

(** X18. [_postprocess_decoded_text] either returns or raises.  Whatever
    it returns ends with a full stop, which is the one mark [take_exam]
    replaces by a space.  It raises a [ValueError] exactly for the empty
    corpus and for an empty end-of-word token (the separator of
    [str.split]); its only other exception is the [IndexError] of
    [text[-1]] when nothing but whitespace is left to print. *)
Theorem postprocess_ends_with_full_stop (self : t)
  (decoded_corpus : list string) :
  (forall text,
      _postprocess_decoded_text self decoded_corpus = Returns text ->
      decoded_corpus <> [] /\ _end_of_word_token self <> EmptyString
      /\ exists body,
           text = body ++ [46%nat]
           /\ forall s, to_str text = Some s ->
                GeneratorRuleStudent.strip_full_stop s
                = (Py.str (map ascii_of_nat body) ++ " ")%string)
  /\ (forall e,
        _postprocess_decoded_text self decoded_corpus = Raises e ->
        (decoded_corpus = [] /\ e = InappropriateInput)
        \/ (decoded_corpus <> [] /\ _end_of_word_token self = EmptyString
            /\ e = EmptySeparator)
        \/ (decoded_corpus <> [] /\ _end_of_word_token self <> EmptyString
            /\ e = IndexError))
  /\ (decoded_corpus = [] \/ _end_of_word_token self = EmptyString ->
        exists e, _postprocess_decoded_text self decoded_corpus = Raises e
                  /\ is_ValueError e = true).
Proof.
  unfold _postprocess_decoded_text.
  destruct decoded_corpus as [|token corpus].
  { split; [discriminate|]. split.
    - intros e H. injection H as <-. now left.
    - intros _. exists InappropriateInput. now split. }
  set (joined := join [" "%char] (map Py.chars (token :: corpus))).
  destruct (_end_of_word_token self) as [|s0 sep'] eqn:Heow.
  { simpl. split; [discriminate|]. split.
    - intros e H. injection H as <-. right. left.
      split; [discriminate|]. now split.
    - intros _. exists EmptySeparator. now split. }
  change (Py.chars (String s0 sep')) with (s0 :: Py.chars sep').
  cbv iota. set (sep := s0 :: Py.chars sep').
  set (capitalized :=
         map (fun sentence => capitalize (strip sentence))
             (split_on sep joined 0 [])).
  assert (Htidy : Forall tidy capitalized).
  { apply Forall_forall. intros x Hx. apply in_map_iff in Hx as (l & <- & _).
    apply capitalize_tidy. }
  assert (Hne : capitalized <> []).
  { intros E. apply map_eq_nil in E. now apply split_on_nonempty in E. }
  assert (Hcorpus : token :: corpus <> []) by discriminate.
  assert (Hsep : String s0 sep' <> EmptyString) by discriminate.
  split; [|split; [|intros [H|H]; discriminate H]].
  - destruct (join_end Hne Htidy)
      as [->|[(body & last & -> & Hl)|(body & ->)]].
    + discriminate.
    + rewrite get_last.
      destruct (Nat.eqb_spec last 32) as [|_]; [contradiction|].
      intros text H. injection H as <-.
      split; [exact Hcorpus|]. split; [exact Hsep|].
      exists (body ++ [last]). split; [reflexivity|].
      intros s. apply to_str_full_stop.
    + replace (body ++ [46; 32]%nat) with ((body ++ [46%nat]) ++ [32%nat])
        by (now rewrite <- app_assoc).
      rewrite get_last, slice_to_last. simpl Nat.eqb. cbv iota.
      intros text H. injection H as <-.
      split; [exact Hcorpus|]. split; [exact Hsep|].
      exists body. split; [reflexivity|].
      intros s. apply to_str_full_stop.
  - destruct (join_end Hne Htidy)
      as [->|[(body & last & -> & Hl)|(body & ->)]].
    + intros e H. injection H as <-. right. right.
      split; [exact Hcorpus|]. now split.
    + rewrite get_last.
      destruct (Nat.eqb_spec last 32) as [|_]; [contradiction|discriminate].
    + replace (body ++ [46; 32]%nat) with ((body ++ [46%nat]) ++ [32%nat])
        by (now rewrite <- app_assoc).
      rewrite get_last. simpl Nat.eqb. cbv iota. discriminate.
Qed.

End PostprocessFacts.

(** ** The later theorems at concrete inputs *)

Module MoreInstances.
Import Examples MoreExamples.

Example tokenize_sentence :
  WordProcessorCode._tokenize words "The cat sat. It's 5!"
  = Ok ["the"; "cat"; "sat"; "_"; "its"]%string.
Proof. reflexivity. Qed.

Example tokenize_digits :
  WordProcessorCode._tokenize words "12 + 30 = 42." = Ok [].
Proof. reflexivity. Qed.

Example split_whitespace :
  map Py.str (WordProcessorCode.split (Py.chars "  a  bc d "))
  = ["a"; "bc"; "d"]%string.
Proof. reflexivity. Qed.

Example put_new :
  WordProcessorCode._put words "cat"
  = Ok {| WordProcessorCode._end_of_word_token := "_";
          WordProcessorCode._storage := [("_", 0%Z); ("cat", 1%Z)]%string |}.
Proof. reflexivity. Qed.

Example split_on_separator :
  map Py.str (Postprocess.split_on (Py.chars "_") (Py.chars "a_b__c_") 0 [])
  = ["a"; "b"; ""; "c"; ""]%string.
Proof. reflexivity. Qed.

Example split_on_long_separator :
  map Py.str (Postprocess.split_on (Py.chars "ab") (Py.chars "cababab") 0 [])
  = ["c"; ""; ""; ""]%string.
Proof. reflexivity. Qed.

Example strip_both_ends :
  Py.str (Postprocess.strip (Py.chars "  the cat ")) = "the cat"%string.
Proof. reflexivity. Qed.

Example capitalize_word :
  Postprocess.capitalize (Py.chars "tHE cAT") = Postprocess.codes "The cat".
Proof. reflexivity. Qed.

(** The micro sign has its capital above code point 255. *)
Example capitalize_micro :
  Postprocess.capitalize [ascii_of_nat 181; "m"%char] = [924; 109]%nat
  /\ Postprocess.to_str [924; 109]%nat = None.
Proof. split; reflexivity. Qed.

Example postprocess_two_sentences :
  Postprocess._postprocess_decoded_text words
    ["the"; "cat"; "_"; "it"; "sat"]%string
  = Postprocess.Returns (Postprocess.codes "The cat. It sat.").
Proof. reflexivity. Qed.

Example postprocess_closed_sentence :
  Postprocess._postprocess_decoded_text words ["the"; "cat"; "_"]%string
  = Postprocess.Returns (Postprocess.codes "The cat.").
Proof. reflexivity. Qed.

Example postprocess_blank :
  Postprocess._postprocess_decoded_text words [" "]%string
  = Postprocess.Raises IndexError.
Proof. reflexivity. Qed.

Example postprocess_empty_separator :
  Postprocess._postprocess_decoded_text
    {| WordProcessorCode._end_of_word_token := EmptyString;
       WordProcessorCode._storage := [] |} ["the"; "cat"]%string
  = Postprocess.Raises EmptySeparator.
Proof. reflexivity. Qed.

Lemma run_extends_prompt_witness :
  exists encoded added,
    encode (TopPGenerator._word_processor (top_p abc p07)) "ab"
    = Some encoded
    /\ decode (TopPGenerator._word_processor (top_p abc p07))
         (encoded ++ added) = Some "abAB"%string
    /\ (Z.of_nat (List.length added) <= 2)%Z
    /\ stream {| stream := fun i => i; cursor := 2 |} = stream counting
    /\ cursor {| stream := fun i => i; cursor := 2 |}
       = (cursor counting + List.length added)%nat
    /\ forall i new,
         nth_error added i = Some new ->
         exists tokens,
           generate_next_token (TopPGenerator._model (top_p abc p07))
             (encoded ++ firstn i added) = Some tokens
           /\ In new (map fst tokens).
Proof.
  exact (@TopPMore.run_extends_prompt (top_p abc p07) 2 "ab" "abAB"
           counting {| stream := fun i => i; cursor := 2 |} eq_refl).
Defined.

Lemma loop_full_length_witness :
  exists added,
    TopPGenerator.loop (top_p abc p07) 3 [97; 98]%Z counting
    = (Ok ([97; 98]%Z ++ added),
       {| stream := stream counting; cursor := cursor counting + 3 |})
    /\ List.length added = 3%nat.
Proof.
  refine (@TopPMore.loop_full_length (top_p abc p07) 3 [97; 98]%Z
            counting _).
  intros context. exists abc. split; [reflexivity|]. split; [discriminate|].
  vm_compute. discriminate.
Defined.

Lemma body_is_greedy_witness :
  TopPGenerator.body (top_p abc (1 # 2)) [97]%Z counting
  = (Ok (Some ([97]%Z ++ [A])), advance counting)
  /\ In (A, Float64.double (5 # 10)) abc
  /\ forall pair, In pair abc -> Spec.before (A, Float64.double (5 # 10)) pair.
Proof.
  refine (@TopPMore.body_is_greedy (top_p abc (1 # 2)) [97]%Z abc A
            (Float64.double (5 # 10))
            [(B, Float64.double (3 # 10)); (C, Float64.double (2 # 10))]
            counting eq_refl _ _).
  - vm_compute. reflexivity.
  - vm_compute. discriminate.
Defined.

Lemma sorted_tokens_order_independent_witness :
  TopPGenerator.sorted_tokens abc = TopPGenerator.sorted_tokens (rev abc)
  /\ forall p_value,
       TopPGenerator.scan p_value (TopPGenerator.sorted_tokens abc) 0 0
       = TopPGenerator.scan p_value
           (TopPGenerator.sorted_tokens (rev abc)) 0 0.
Proof.
  refine (@TopPMore.sorted_tokens_order_independent abc (rev abc) _ _).
  - repeat constructor; simpl; intros H;
      repeat (destruct H as [H|H]; [discriminate H|]); exact H.
  - apply Permutation_rev.
Defined.

Lemma perplexity_above_one_witness : (1 < tied_perplexity)%R.
Proof.
  refine (@PerplexityMore.perplexity_above_one tied "ab" tied_perplexity _
            ScoringInstances.tied_calculate).
  intros context tokens tok q Hm Hq. injection Hm as <-.
  cbn [Py.dict_get] in Hq. destruct (token_eqb 98%Z tok); [|discriminate Hq].
  injection Hq as <-. vm_compute. discriminate.
Defined.

Lemma short_text_never_scored_witness :
  QualityChecker._calculate_perplexity (checker [] [(97%Z, 1 # 2)]) "a"
  = Raise ZeroDivisionError
  /\ is_ValueError ZeroDivisionError = false.
Proof.
  refine (proj2 (proj2
            (@PerplexityMore.short_text_never_scored
               (checker [] [(97%Z, 1 # 2)]) "a" [97]%Z eq_refl eq_refl _ _))
            eq_refl (0 + ln (Q2R (1 # 2)))%R eq_refl _).
  - discriminate.
  - vm_compute. discriminate.
  - pose proof ScoringInstances.ln_half. lra.
Defined.

Lemma run_one_result_per_generator_witness :
  str_nonempty "a" = true
  /\ (0 < 1)%Z
  /\ Permutation (map get_type [tied_result 0; tied_result 1])
       (map fst (QualityChecker._generators tied))
  /\ Forall (fun dto =>
               str_nonempty (get_text dto) = true
               /\ QualityChecker._calculate_perplexity tied (get_text dto)
                  = Ok (get_perplexity dto)
               /\ (0 < get_perplexity dto)%R)
       [tied_result 0; tied_result 1].
Proof.
  exact (@PerplexityMore.run_one_result_per_generator tied 1 "a" g0 g0
           [tied_result 0; tied_result 1] ScoringInstances.tied_run).
Defined.

Lemma accuracy_extremes_witness :
  (inject_Z 1 / inject_Z 1 == 1
   <-> forallb (ExamSpec.correct examiner) [("q1", "Cat")]%string = true)
  /\ (inject_Z 1 / inject_Z 1 == 0
      <-> forallb (fun item => negb (ExamSpec.correct examiner item))
            [("q1", "Cat")]%string = true).
Proof.
  exact (@ExamMore.accuracy_extremes examiner [("q1", "Cat")]%string
           (inject_Z 1 / inject_Z 1) eq_refl).
Defined.

Lemma take_exam_one_answer_per_question_witness :
  let tasks := [("a b", 1%Z); ("c d", 1%Z); ("a b", 2%Z)]%string in
  let answers := [("a b", "the b"); ("c d", "the  d")]%string in
  NoDup (map fst answers)
  /\ (forall question,
        In question (map fst answers) <-> In question (map fst tasks))
  /\ (0 < List.length answers <= List.length tasks)%nat.
Proof.
  intros tasks answers.
  exact (@ExamMore.take_exam_one_answer_per_question (student "the.") tasks
           g0 g0 answers eq_refl).
Defined.

Lemma take_exam_raises_witness :
  let tasks := [("a b", 1%Z)]%string in
  (tasks = [] /\ NoAnswersGenerated = InappropriateInput /\ g0 = g0)
  \/ exists question position g1,
       In (question, position) tasks
       /\ (GeneratorRuleStudent._generator (student "") 1%Z
             (Py.str_slice_to question position) g1
           = (Raise NoAnswersGenerated, g0)
           \/ (NoAnswersGenerated = NoAnswersGenerated
               /\ GeneratorRuleStudent._generator (student "") 1%Z
                    (Py.str_slice_to question position) g1
                  = (Ok EmptyString, g0))).
Proof.
  intros tasks.
  exact (@ExamMore.take_exam_raises (student "") tasks g0 g0
           NoAnswersGenerated eq_refl).
Defined.

Lemma provided_questions_are_graded_witness :
  exists accuracy,
    Examiner.assess_exam examiner [("q1", "cat q1")]%string = Ok accuracy
    /\ 0 <= accuracy <= 1.
Proof.
  exact (@ExamMore.provided_questions_are_graded examiner (student "cat.")
           g0 g0 [("q1", "cat q1")]%string eq_refl).
Defined.

Lemma tokenize_words_witness :
  exists tokens blocks,
    WordProcessorCode._tokenize words "The cat sat. It's 5!" = Ok tokens
    /\ tokens = List.concat blocks
    /\ Forall (WordProcessorCode.is_block words) blocks
    /\ (List.length blocks
        <= List.length
             (WordProcessorCode.split
                (Py.chars (Py.lower "The cat sat. It's 5!"))))%nat.
Proof.
  refine (proj2 (WordProcessorFacts.tokenize_words words
                   "The cat sat. It's 5!") _).
  discriminate.
Defined.

Lemma put_keeps_ids_witness :
  exists self',
    WordProcessorCode._put words "cat" = Ok self'
    /\ WordProcessorCode._storage self' = [("_", 0%Z); ("cat", 1%Z)]%string
    /\ WordProcessorCode.dense (WordProcessorCode._storage self').
Proof.
  destruct (proj2 (WordProcessorFacts.put_keeps_ids words "cat")
              ltac:(discriminate) eq_refl)
    as (self' & Hput & _ & Hdense & _).
  exists self'. split; [exact Hput|]. split; [|exact Hdense].
  injection Hput as <-. reflexivity.
Defined.

Lemma put_twice_witness :
  let self' :=
    {| WordProcessorCode._end_of_word_token := "_";
       WordProcessorCode._storage := [("_", 0%Z); ("cat", 1%Z)]%string |} in
  WordProcessorCode._put self' "cat" = Ok self'.
Proof.
  intros self'.
  exact (@WordProcessorFacts.put_twice words self' "cat" eq_refl).
Defined.

Lemma postprocess_ends_with_full_stop_witness :
  ["the"; "cat"; "_"]%string <> []
  /\ WordProcessorCode._end_of_word_token words <> EmptyString
  /\ exists body,
       Postprocess.codes "The cat." = body ++ [46%nat]
       /\ forall s, Postprocess.to_str (Postprocess.codes "The cat.") = Some s ->
            GeneratorRuleStudent.strip_full_stop s
            = (Py.str (map ascii_of_nat body) ++ " ")%string.
Proof.
  exact (proj1 (PostprocessFacts.postprocess_ends_with_full_stop words
                  ["the"; "cat"; "_"]%string)
           (Postprocess.codes "The cat.") eq_refl).
Defined.

Lemma student_generator_types_witness :
  Student.__init__ lab3_greedy lab3_beam (-2)
    (constant_model abc 2) char_tokens
  = Ok {| GeneratorRuleStudent._generator :=
            TopPGenerator.run
              {| TopPGenerator._model := constant_model abc 2;
                 TopPGenerator._word_processor := char_tokens;
                 TopPGenerator._p_value := 5 # 10 |};
          GeneratorRuleStudent._generator_type := -2 |}.
Proof.
  refine (proj1 (StudentFacts.student_generator_types lab3_greedy lab3_beam
                   (-2) (constant_model abc 2) char_tokens) _).
  split; discriminate.
Defined.

End MoreInstances.
